(** * Ansel thumbnail table and act-on image set

    A shallow embedding of [src/dtgtk/thumbtable.c] and [src/common/act_on.c].

    Conventions of the embedding.
    - A C [int] is a [Z]; the development assumes that no intermediate value
      leaves the range of [int] (signed overflow is undefined behaviour in C
      and is not modelled), with one exception: over an empty list
      [_pos_compute_area] always overflows, and the wrap-around is written
      out there.  [/] and [%] are C's truncating operators ([Z.quot],
      [Z.rem]); a zero divisor is a [Fault].
    - A [GList] of thumbnails is a Rocq list.  Every thumbnail carries the
      identity of its heap object ([th_obj]), so that "the same entry" can be
      told from "an equal entry".  The thumbnails that the reload of the full
      redraw destroys are returned by [redraw_reload_destroy].
    - The GTK widgets, CSS classes, scrollbars and the preference store are
      not part of the state; neither is [table->code_scrolling], which only
      [_thumbtable_update_scrollbars] writes. *)

From Stdlib Require Import ZArith List Bool Lia.
Import ListNotations.
Open Scope Z_scope.

(** ** Outcomes of a C call *)

Inductive outcome (A : Type) : Type :=
| Done (a : A)   (* the call returned *)
| Fault          (* undefined behaviour: division by zero, NULL dereference *)
| OutOfFuel.     (* the recursion budget of the model is exhausted *)

Arguments Done {A} a.
Arguments Fault {A}.
Arguments OutOfFuel {A}.

Definition bind {A B : Type} (m : outcome A) (k : A -> outcome B) : outcome B :=
  match m with
  | Done a => k a
  | Fault => Fault
  | OutOfFuel => OutOfFuel
  end.

Notation "x <- m ;; k" := (bind m (fun x => k))
  (at level 61, m at next level, right associativity).
Notation "' p <- m ;; k" := (bind m (fun x => match x with p => k end))
  (at level 61, p pattern, m at next level, right associativity).

(** ** C arithmetic and the glib macros *)

Definition c_div (a b : Z) : outcome Z :=
  if b =? 0 then Fault else Done (Z.quot a b).

Definition c_mod (a b : Z) : outcome Z :=
  if b =? 0 then Fault else Done (Z.rem a b).

(* #define MAX(a, b)  (((a) > (b)) ? (a) : (b)) *)
Definition MAX (a b : Z) : Z := if a >? b then a else b.
(* #define MIN(a, b)  (((a) < (b)) ? (a) : (b)) *)
Definition MIN (a b : Z) : Z := if a <? b then a else b.

(* MIN of a [guint] and an [int]: the [int] is converted to unsigned for the
   comparison, so a negative [b] compares as a huge value. *)
Definition MIN_guint_int (a b : Z) : Z :=
  if b <? 0 then a else MIN a b.

Definition INT_MAX : Z := 2147483647.
Definition INT_MIN : Z := -2147483648.

Definition b2z (b : bool) : Z := if b then 1 else 0.

(* dereference of a possibly NULL pointer *)
Definition deref {A : Type} (o : option A) : outcome A :=
  match o with
  | Some a => Done a
  | None => Fault
  end.

Module Thumbtable.

(** ** Data (thumbnail.h, thumbtable.h) *)

Definition DT_THUMBNAIL_BORDER_NONE : Z := 0.
Definition DT_THUMBNAIL_BORDER_LEFT : Z := Z.shiftl 1 0.
Definition DT_THUMBNAIL_BORDER_TOP : Z := Z.shiftl 1 1.
Definition DT_THUMBNAIL_BORDER_RIGHT : Z := Z.shiftl 1 2.
Definition DT_THUMBNAIL_BORDER_BOTTOM : Z := Z.shiftl 1 3.

(** Modelled from the spec: the declaration of [dt_thumbtable_mode_t]
    (thumbtable.h) is missing.  The spec has the two layouts GRID
    (filemanager) and STRIP (filmstrip); the code tests the mode with
    [if ... else if ...], so a table that is in neither layout (as after
    [calloc]) is kept as a third value. *)
Inductive dt_thumbtable_mode_t : Type :=
| DT_THUMBTABLE_MODE_NONE
| DT_THUMBTABLE_MODE_FILEMANAGER
| DT_THUMBTABLE_MODE_FILMSTRIP.

Definition mode_eqb (a b : dt_thumbtable_mode_t) : bool :=
  match a, b with
  | DT_THUMBTABLE_MODE_NONE, DT_THUMBTABLE_MODE_NONE => true
  | DT_THUMBTABLE_MODE_FILEMANAGER, DT_THUMBTABLE_MODE_FILEMANAGER => true
  | DT_THUMBTABLE_MODE_FILMSTRIP, DT_THUMBTABLE_MODE_FILMSTRIP => true
  | _, _ => false
  end.

(* dt_thumbnail_t, restricted to the fields the table code reads or writes *)
Record dt_thumbnail_t : Type := mk_thumb {
  th_obj : nat;          (* identity of the allocated object *)
  th_imgid : Z;
  th_rowid : Z;
  th_width : Z;
  th_height : Z;
  th_x : Z;
  th_y : Z;
  th_mouse_over : bool;
  th_selected : bool;
  th_is_grouped : bool;
  th_groupid : Z;
  th_group_borders : Z
}.

Definition set_th_rowid (v : Z) (th : dt_thumbnail_t) : dt_thumbnail_t :=
  mk_thumb (th_obj th) (th_imgid th) v (th_width th) (th_height th) (th_x th) (th_y th)
           (th_mouse_over th) (th_selected th) (th_is_grouped th) (th_groupid th)
           (th_group_borders th).

Definition set_th_size (w h : Z) (th : dt_thumbnail_t) : dt_thumbnail_t :=
  mk_thumb (th_obj th) (th_imgid th) (th_rowid th) w h (th_x th) (th_y th)
           (th_mouse_over th) (th_selected th) (th_is_grouped th) (th_groupid th)
           (th_group_borders th).

Definition set_th_pos (px py : Z) (th : dt_thumbnail_t) : dt_thumbnail_t :=
  mk_thumb (th_obj th) (th_imgid th) (th_rowid th) (th_width th) (th_height th) px py
           (th_mouse_over th) (th_selected th) (th_is_grouped th) (th_groupid th)
           (th_group_borders th).

Definition set_th_mouse_over (b : bool) (th : dt_thumbnail_t) : dt_thumbnail_t :=
  mk_thumb (th_obj th) (th_imgid th) (th_rowid th) (th_width th) (th_height th)
           (th_x th) (th_y th) b (th_selected th) (th_is_grouped th) (th_groupid th)
           (th_group_borders th).

Definition set_th_selected (b : bool) (th : dt_thumbnail_t) : dt_thumbnail_t :=
  mk_thumb (th_obj th) (th_imgid th) (th_rowid th) (th_width th) (th_height th)
           (th_x th) (th_y th) (th_mouse_over th) b (th_is_grouped th) (th_groupid th)
           (th_group_borders th).

Definition set_th_group_borders (v : Z) (th : dt_thumbnail_t) : dt_thumbnail_t :=
  mk_thumb (th_obj th) (th_imgid th) (th_rowid th) (th_width th) (th_height th)
           (th_x th) (th_y th) (th_mouse_over th) (th_selected th) (th_is_grouped th)
           (th_groupid th) v.

Record GdkRectangle : Type := mk_rect {
  r_x : Z;
  r_y : Z;
  r_width : Z;
  r_height : Z
}.

(* dt_thumbtable_t.  [tb_next_obj] is not a C field: it stands for the
   allocator and counts the thumbnails created so far. *)
Record dt_thumbtable_t : Type := mk_table {
  tb_mode : dt_thumbtable_mode_t;
  tb_list : list dt_thumbnail_t;
  tb_offset : Z;
  tb_offset_imgid : Z;
  tb_thumbs_per_row : Z;
  tb_rows : Z;
  tb_thumb_size : Z;
  tb_view_width : Z;
  tb_view_height : Z;
  tb_center_offset : Z;
  tb_thumbs_area : GdkRectangle;
  tb_realign_top_try : Z;
  tb_dragging : bool;
  tb_scrollbars : bool;
  tb_next_obj : nat
}.

Definition set_tb_mode (v : dt_thumbtable_mode_t) (t : dt_thumbtable_t) :=
  mk_table v (tb_list t) (tb_offset t) (tb_offset_imgid t) (tb_thumbs_per_row t)
           (tb_rows t) (tb_thumb_size t) (tb_view_width t) (tb_view_height t)
           (tb_center_offset t) (tb_thumbs_area t) (tb_realign_top_try t)
           (tb_dragging t) (tb_scrollbars t) (tb_next_obj t).

Definition set_tb_list (v : list dt_thumbnail_t) (t : dt_thumbtable_t) :=
  mk_table (tb_mode t) v (tb_offset t) (tb_offset_imgid t) (tb_thumbs_per_row t)
           (tb_rows t) (tb_thumb_size t) (tb_view_width t) (tb_view_height t)
           (tb_center_offset t) (tb_thumbs_area t) (tb_realign_top_try t)
           (tb_dragging t) (tb_scrollbars t) (tb_next_obj t).

Definition set_tb_offset (v : Z) (t : dt_thumbtable_t) :=
  mk_table (tb_mode t) (tb_list t) v (tb_offset_imgid t) (tb_thumbs_per_row t)
           (tb_rows t) (tb_thumb_size t) (tb_view_width t) (tb_view_height t)
           (tb_center_offset t) (tb_thumbs_area t) (tb_realign_top_try t)
           (tb_dragging t) (tb_scrollbars t) (tb_next_obj t).

Definition set_tb_offset_imgid (v : Z) (t : dt_thumbtable_t) :=
  mk_table (tb_mode t) (tb_list t) (tb_offset t) v (tb_thumbs_per_row t)
           (tb_rows t) (tb_thumb_size t) (tb_view_width t) (tb_view_height t)
           (tb_center_offset t) (tb_thumbs_area t) (tb_realign_top_try t)
           (tb_dragging t) (tb_scrollbars t) (tb_next_obj t).

(* the fields [_compute_sizes] assigns together *)
Definition set_tb_sizes (per_row rows size vw vh center : Z) (t : dt_thumbtable_t) :=
  mk_table (tb_mode t) (tb_list t) (tb_offset t) (tb_offset_imgid t) per_row
           rows size vw vh center (tb_thumbs_area t) (tb_realign_top_try t)
           (tb_dragging t) (tb_scrollbars t) (tb_next_obj t).

Definition set_tb_view (vw vh : Z) (t : dt_thumbtable_t) :=
  set_tb_sizes (tb_thumbs_per_row t) (tb_rows t) (tb_thumb_size t) vw vh
               (tb_center_offset t) t.

Definition set_tb_thumbs_area (v : GdkRectangle) (t : dt_thumbtable_t) :=
  mk_table (tb_mode t) (tb_list t) (tb_offset t) (tb_offset_imgid t) (tb_thumbs_per_row t)
           (tb_rows t) (tb_thumb_size t) (tb_view_width t) (tb_view_height t)
           (tb_center_offset t) v (tb_realign_top_try t)
           (tb_dragging t) (tb_scrollbars t) (tb_next_obj t).

Definition set_tb_realign_top_try (v : Z) (t : dt_thumbtable_t) :=
  mk_table (tb_mode t) (tb_list t) (tb_offset t) (tb_offset_imgid t) (tb_thumbs_per_row t)
           (tb_rows t) (tb_thumb_size t) (tb_view_width t) (tb_view_height t)
           (tb_center_offset t) (tb_thumbs_area t) v
           (tb_dragging t) (tb_scrollbars t) (tb_next_obj t).

Definition set_tb_dragging (v : bool) (t : dt_thumbtable_t) :=
  mk_table (tb_mode t) (tb_list t) (tb_offset t) (tb_offset_imgid t) (tb_thumbs_per_row t)
           (tb_rows t) (tb_thumb_size t) (tb_view_width t) (tb_view_height t)
           (tb_center_offset t) (tb_thumbs_area t) (tb_realign_top_try t)
           v (tb_scrollbars t) (tb_next_obj t).

Definition set_tb_next_obj (v : nat) (t : dt_thumbtable_t) :=
  mk_table (tb_mode t) (tb_list t) (tb_offset t) (tb_offset_imgid t) (tb_thumbs_per_row t)
           (tb_rows t) (tb_thumb_size t) (tb_view_width t) (tb_view_height t)
           (tb_center_offset t) (tb_thumbs_area t) (tb_realign_top_try t)
           (tb_dragging t) (tb_scrollbars t) v.

(** The collaborators the table code only reads: the widget allocation, the
    zoom level, the collected images, the selection, the hover id and the
    image cache. *)
Record collaborators : Type := mk_collab {
  allocation_width : Z;               (* gtk_widget_get_allocation *)
  allocation_height : Z;
  lighttable_zoom : Z;                (* dt_view_lighttable_get_zoom *)
  collected_images : list Z;          (* memory.collected_images: imgid of rowid 1, 2, ... *)
  selection : list Z;                 (* the selected image ids *)
  mouse_over_id : Z;                  (* dt_control_get_mouse_over_id *)
  image_is_grouped : Z -> bool;       (* image cache *)
  image_group_id : Z -> Z
}.

(** ** The collection (memory.collected_images) and the selection

    Modelled from the spec: the collection is an ordered sequence of
    (row_number, image_id) pairs, 1-indexed and contiguous; the SQL statements
    of thumbtable.c are evaluated on it.  [LIMIT n] with a negative [n] puts
    no bound on the result, as in SQLite. *)

Fixpoint rows_from (r : Z) (ids : list Z) : list (Z * Z) :=
  match ids with
  | [] => []
  | id :: ids' => (r, id) :: rows_from (r + 1) ids'
  end.

Definition collected_rows (e : collaborators) : list (Z * Z) :=
  rows_from 1 (collected_images e).

Definition sql_limit {A : Type} (n : Z) (l : list A) : list A :=
  if n <? 0 then l else firstn (Z.to_nat n) l.

(* SELECT rowid, imgid FROM memory.collected_images WHERE rowid>=%d LIMIT %d *)
Definition select_rows_ge (e : collaborators) (rowid limit : Z) : list (Z * Z) :=
  sql_limit limit (filter (fun r => rowid <=? fst r) (collected_rows e)).

(* ... WHERE rowid<%d ORDER BY rowid DESC LIMIT %d *)
Definition select_rows_lt_desc (e : collaborators) (rowid limit : Z) : list (Z * Z) :=
  sql_limit limit (rev (filter (fun r => fst r <? rowid) (collected_rows e))).

(* ... WHERE rowid>%d ORDER BY rowid LIMIT %d *)
Definition select_rows_gt (e : collaborators) (rowid limit : Z) : list (Z * Z) :=
  sql_limit limit (filter (fun r => rowid <? fst r) (collected_rows e)).

(* SELECT COUNT( * ) FROM memory.collected_images *)
Definition select_count (e : collaborators) : Z :=
  Z.of_nat (length (collected_images e)).

(* get imgid from rowid *)
Definition _thumb_get_imgid (e : collaborators) (rowid : Z) : Z :=
  match find (fun r => fst r =? rowid) (collected_rows e) with
  | Some r => snd r
  | None => -1
  end.

(* get rowid from imgid *)
Definition _thumb_get_rowid (e : collaborators) (imgid : Z) : Z :=
  match find (fun r => snd r =? imgid) (collected_rows e) with
  | Some r => fst r
  | None => -1
  end.

(** Modelled from the spec: [Selection.firstId() -> image_id | none] and
    [Selection.isSelected(id)] (selection.c is missing); "none" is -1, the
    value the callers test for. *)
Definition dt_selection_get_first_id (e : collaborators) : Z :=
  match selection e with
  | [] => -1
  | id :: _ => id
  end.

Definition dt_selection_is_selected (e : collaborators) (imgid : Z) : bool :=
  existsb (Z.eqb imgid) (selection e).

(** ** Thumbnails (thumbnail.c is missing) *)

(** Modelled from the spec: [dt_thumbnail_new] creates the entry of an image
    that enters the window: a new object with the given image id, row number
    and size, whose selection, hover and group fields are read from the
    collaborators and which has no group border yet. *)
Definition dt_thumbnail_new (e : collaborators) (obj : nat) (width height imgid rowid : Z)
  : dt_thumbnail_t :=
  mk_thumb obj imgid rowid width height 0 0
           (mouse_over_id e =? imgid) (dt_selection_is_selected e imgid)
           (image_is_grouped e imgid) (image_group_id e imgid)
           DT_THUMBNAIL_BORDER_NONE.

(** Modelled from the spec: [dt_thumbnail_resize] updates the size of an
    entry in place. *)
Definition dt_thumbnail_resize (th : dt_thumbnail_t) (width height : Z) : dt_thumbnail_t :=
  set_th_size width height th.

(** Modelled from the spec: [dt_thumbnail_update_selection] recomputes
    [selected] from the membership of the image in the selection. *)
Definition dt_thumbnail_update_selection (e : collaborators) (th : dt_thumbnail_t)
  : dt_thumbnail_t :=
  set_th_selected (dt_selection_is_selected e (th_imgid th)) th.

(** Modelled from the spec: [group_borders] is a bitset of
    {left, top, right, bottom}; [dt_thumbnail_set_group_border] clears it for
    DT_THUMBNAIL_BORDER_NONE and adds the given border otherwise. *)
Definition dt_thumbnail_set_group_border (th : dt_thumbnail_t) (border : Z) : dt_thumbnail_t :=
  if border =? DT_THUMBNAIL_BORDER_NONE
  then set_th_group_borders DT_THUMBNAIL_BORDER_NONE th
  else set_th_group_borders (Z.lor (th_group_borders th) border) th.

(** Modelled from the spec: [dt_thumbnail_set_mouseover] sets [mouse_over]. *)
Definition dt_thumbnail_set_mouseover (th : dt_thumbnail_t) (over : bool) : dt_thumbnail_t :=
  set_th_mouse_over over th.

(** ** GList helpers *)

(* _list_compare_by_imgid: 0 means "found" *)
Definition _list_compare_by_imgid (th : dt_thumbnail_t) (imgid : Z) : Z :=
  if (th_imgid th <? 0) || (imgid <? 0) then 1
  else b2z (negb (th_imgid th =? imgid)).

(* g_list_find_custom(list, imgid, _list_compare_by_imgid) *)
Definition g_list_find_by_imgid (l : list dt_thumbnail_t) (imgid : Z) : option dt_thumbnail_t :=
  find (fun th => _list_compare_by_imgid th imgid =? 0) l.

(* g_list_remove(list, thumb): unlinks the first node that holds this object *)
Fixpoint g_list_remove (l : list dt_thumbnail_t) (obj : nat) : list dt_thumbnail_t :=
  match l with
  | [] => []
  | th :: l' => if Nat.eqb (th_obj th) obj then l' else th :: g_list_remove l' obj
  end.

(* g_list_last(list)->data *)
Definition g_list_last (l : list dt_thumbnail_t) : option dt_thumbnail_t :=
  match l with
  | [] => None
  | th :: l' => Some (last l' th)
  end.

(* g_list_nth_data(list, n), [n] being a guint *)
Definition g_list_nth_data (l : list dt_thumbnail_t) (n : Z) : option dt_thumbnail_t :=
  if n <? 0 then None else nth_error l (Z.to_nat n).

Definition g_list_length (l : list dt_thumbnail_t) : Z := Z.of_nat (length l).

(** ** Positions *)

(* the value an int holds for a result [z] that has left its range: two's
   complement wrap-around *)
Definition int_wrap (z : Z) : Z := (z - INT_MIN) mod 4294967296 + INT_MIN.

(* x2 + table->thumb_size - x1, for the bounds [lo] and [hi] found over the
   list [l].  Over an empty list lo is still INT_MAX and hi is still INT_MIN:
   the difference does not fit in an int and wraps around (to thumb_size + 1).
   Over a window that is not empty it is the difference itself: there, as
   everywhere else in this model, the ints are taken not to overflow. *)
Definition area_extent (l : list dt_thumbnail_t) (lo hi thumb_size : Z) : Z :=
  match l with
  | [] => int_wrap (hi + thumb_size - lo)
  | _ :: _ => hi + thumb_size - lo
  end.

(* get the coordinate of the rectangular area used by all the loaded thumbs *)
Definition _pos_compute_area (t : dt_thumbtable_t) : dt_thumbtable_t :=
  let x1 := fold_left (fun a th => MIN a (th_x th)) (tb_list t) INT_MAX in
  let y1 := fold_left (fun a th => MIN a (th_y th)) (tb_list t) INT_MAX in
  let x2 := fold_left (fun a th => MAX a (th_x th)) (tb_list t) INT_MIN in
  let y2 := fold_left (fun a th => MAX a (th_y th)) (tb_list t) INT_MIN in
  set_tb_thumbs_area
    (mk_rect x1 y1 (area_extent (tb_list t) x1 x2 (tb_thumb_size t))
             (area_extent (tb_list t) y1 y2 (tb_thumb_size t))) t.

(* get the position of the next image after the one at (x,y) *)
Definition _pos_get_next (t : dt_thumbtable_t) (x y : Z) : Z * Z :=
  match tb_mode t with
  | DT_THUMBTABLE_MODE_FILEMANAGER =>
      let x := x + tb_thumb_size t in
      if x + tb_thumb_size t >? tb_view_width t
      then (tb_center_offset t, y + tb_thumb_size t)
      else (x, y)
  | DT_THUMBTABLE_MODE_FILMSTRIP => (x + tb_thumb_size t, y)
  | DT_THUMBTABLE_MODE_NONE => (x, y)
  end.

(* get the position of the previous image after the one at (x,y) *)
Definition _pos_get_previous (t : dt_thumbtable_t) (x y : Z) : Z * Z :=
  match tb_mode t with
  | DT_THUMBTABLE_MODE_FILEMANAGER =>
      let x := x - tb_thumb_size t in
      if x <? 0
      then ((tb_thumbs_per_row t - 1) * tb_thumb_size t + tb_center_offset t,
            y - tb_thumb_size t)
      else (x, y)
  | DT_THUMBTABLE_MODE_FILMSTRIP => (x - tb_thumb_size t, y)
  | DT_THUMBTABLE_MODE_NONE => (x, y)
  end.

(** ** Sizes *)

(* compute thumb_size, thumbs_per_row and rows for the current widget size;
   return TRUE if something as changed (or forced), FALSE otherwise.  The
   overlay refresh that follows a change of thumb_size only touches widgets. *)
Definition _compute_sizes (e : collaborators) (t : dt_thumbtable_t) (force : bool)
  : outcome (dt_thumbtable_t * bool) :=
  if (allocation_width e <=? 20) || (allocation_height e <=? 20)
  then Done (set_tb_view (allocation_width e) (allocation_height e) t, false)
  else
    match tb_mode t with
    | DT_THUMBTABLE_MODE_FILEMANAGER =>
        let npr := lighttable_zoom e in
        if force
           || negb (allocation_width e =? tb_view_width t)
           || negb (allocation_height e =? tb_view_height t)
           || negb (npr =? tb_thumbs_per_row t)
        then
          let view_width := allocation_width e in
          let view_height := allocation_height e in
          q <- c_div view_width npr ;;
          let thumb_size := MIN q view_height in
          r <- c_div view_height thumb_size ;;
          let rows := r + 1 in
          let center_offset := Z.quot (view_width - npr * thumb_size) 2 in
          Done (set_tb_sizes npr rows thumb_size view_width view_height center_offset t,
                true)
        else Done (t, false)
    | DT_THUMBTABLE_MODE_FILMSTRIP =>
        if force
           || negb (allocation_width e =? tb_view_width t)
           || negb (allocation_height e =? tb_view_height t)
        then
          let view_width := allocation_width e in
          let view_height := allocation_height e in
          let thumb_size := view_height in
          r <- c_div view_width thumb_size ;;
          let rows := if negb (Z.rem r 2 =? 0) then r + 2 else r + 1 in
          Done (set_tb_sizes 1 rows thumb_size view_width view_height 0 t, true)
        else Done (t, false)
    | DT_THUMBTABLE_MODE_NONE => Done (t, false)
    end.

(* update scrollbars positions and visibility: only the divisions by
   thumbs_per_row can be observed in the model (the rest drives the scrollbar
   widget and [code_scrolling]) *)
Definition _thumbtable_update_scrollbars (t : dt_thumbtable_t) : outcome unit :=
  if negb (mode_eqb (tb_mode t) DT_THUMBTABLE_MODE_FILEMANAGER) then Done tt
  else if negb (tb_scrollbars t) then Done tt
  else
    _ <- c_div (tb_offset t - 1) (tb_thumbs_per_row t) ;;
    Done tt.
(** ** Incremental loading and eviction *)

Definition is_filmstrip (t : dt_thumbtable_t) : bool :=
  mode_eqb (tb_mode t) DT_THUMBTABLE_MODE_FILMSTRIP.

Definition is_filemanager (t : dt_thumbtable_t) : bool :=
  mode_eqb (tb_mode t) DT_THUMBTABLE_MODE_FILEMANAGER.

(* the test of _thumbs_remove_unneeded: the thumbnail is completely hidden *)
Definition thumb_unneeded (t : dt_thumbtable_t) (th : dt_thumbnail_t) : bool :=
  (th_y th + tb_thumb_size t <=? 0)
  || (th_y th >? tb_view_height t)
  || (is_filmstrip t
      && ((th_x th + tb_thumb_size t <=? 0) || (th_x th >? tb_view_width t))).

(* remove all unneeded thumbnails from the list and the widget.  The C loop
   restarts from the head after every removal; the test does not depend on
   the list, so the survivors are the filtered list, in order. *)
Definition _thumbs_remove_unneeded (t : dt_thumbtable_t) : dt_thumbtable_t * Z :=
  let kept := filter (fun th => negb (thumb_unneeded t th)) (tb_list t) in
  (set_tb_list kept t, g_list_length (tb_list t) - g_list_length kept).

(* the thumbnail that dt_thumbnail_new returns, placed at (posx, posy) *)
Definition new_thumb_at (e : collaborators) (t : dt_thumbtable_t)
           (imgid rowid posx posy : Z) : dt_thumbnail_t :=
  set_th_pos posx posy
    (dt_thumbnail_new e (tb_next_obj t) (tb_thumb_size t) (tb_thumb_size t) imgid rowid).

(* the while loop that loads images at the beginning *)
Fixpoint load_at_start (e : collaborators) (t : dt_thumbtable_t) (q : list (Z * Z))
         (posx posy changed : Z) : dt_thumbtable_t * Z :=
  match q with
  | [] => (t, changed)
  | (rowid, imgid) :: q' =>
      let '(t1, changed1) :=
        if posy <? tb_view_height t (* we don't load invisible thumbs *)
        then (set_tb_next_obj (S (tb_next_obj t))
                (set_tb_list (new_thumb_at e t imgid rowid posx posy :: tb_list t) t),
              changed + 1)
        else (t, changed) in
      let '(posx1, posy1) := _pos_get_previous t1 posx posy in
      load_at_start e t1 q' posx1 posy1 changed1
  end.

(* the while loop that loads images at the end *)
Fixpoint load_at_end (e : collaborators) (t : dt_thumbtable_t) (q : list (Z * Z))
         (posx posy changed : Z) : dt_thumbtable_t * Z :=
  match q with
  | [] => (t, changed)
  | (rowid, imgid) :: q' =>
      let '(t1, changed1) :=
        if posy + tb_thumb_size t >=? 0 (* we don't load invisible thumbs *)
        then (set_tb_next_obj (S (tb_next_obj t))
                (set_tb_list (tb_list t ++ [new_thumb_at e t imgid rowid posx posy]) t),
              changed + 1)
        else (t, changed) in
      let '(posx1, posy1) := _pos_get_next t1 posx posy in
      load_at_end e t1 q' posx1 posy1 changed1
  end.

(* space / table->thumb_size + (space % table->thumb_size != 0) *)
Definition nb_to_load (space thumb_size : Z) : outcome Z :=
  q <- c_div space thumb_size ;;
  r <- c_mod space thumb_size ;;
  Done (q + b2z (negb (r =? 0))).

(* load all needed thumbnails in the list and the widget *)
Definition _thumbs_load_needed (e : collaborators) (t : dt_thumbtable_t)
  : outcome (dt_thumbtable_t * Z) :=
  match tb_list t with
  | [] => Done (t, 0)
  | first :: _ =>
      (* we load image at the beginning *)
      '(t1, changed1) <-
        (if (th_rowid first >? 1)
            && ((is_filemanager t && (th_y first >? 0))
                || (is_filmstrip t && (th_x first >? 0)))
         then
           let space := if is_filmstrip t then th_x first else th_y first in
           n <- nb_to_load space (tb_thumb_size t) ;;
           let q := select_rows_lt_desc e (th_rowid first) (n * tb_thumbs_per_row t) in
           let '(posx, posy) := _pos_get_previous t (th_x first) (th_y first) in
           Done (load_at_start e t q posx posy 0)
         else Done (t, 0)) ;;
      (* we load images at the end *)
      last <- deref (g_list_last (tb_list t1)) ;;
      if (is_filemanager t1
          && (th_y last + tb_thumb_size t1 <? tb_view_height t1)
          && (th_x last >=? tb_thumb_size t1 * (tb_thumbs_per_row t1 - 1)))
         || (is_filmstrip t1 && (th_x last + tb_thumb_size t1 <? tb_view_width t1))
      then
        let space :=
          if is_filmstrip t1
          then tb_view_width t1 - (th_x last + tb_thumb_size t1)
          else tb_view_height t1 - (th_y last + tb_thumb_size t1) in
        n <- nb_to_load space (tb_thumb_size t1) ;;
        let q := select_rows_gt e (th_rowid last) (n * tb_thumbs_per_row t1) in
        let '(posx, posy) := _pos_get_next t1 (th_x last) (th_y last) in
        Done (load_at_end e t1 q posx posy changed1)
      else Done (t1, changed1)
  end.

(** ** Incremental move *)

(* the bounds check of _move when clamp is set: either the function returns
   at once (left), or the move goes on with the clamped deltas (right) *)
Definition move_clamp (redraw : dt_thumbtable_t -> bool -> outcome dt_thumbtable_t)
           (e : collaborators) (t : dt_thumbtable_t) (first : dt_thumbnail_t) (x y : Z)
  : outcome ((dt_thumbtable_t * bool) + (dt_thumbtable_t * Z * Z)) :=
  match tb_mode t with
  | DT_THUMBTABLE_MODE_FILEMANAGER =>
      let posx := 0 in (* to be sure, we don't want horizontal move *)
      let posy := y in
      if posy =? 0 then Done (inl (t, false))
      else if (th_rowid first =? 1) && (posy >? 0) && (th_y first >=? 0)
      then
        (* we stop when first rowid image is fully shown *)
        if negb (th_x first =? 0)
        then
          let t1 := set_tb_realign_top_try (tb_realign_top_try t + 1) t in
          if tb_realign_top_try t1 >? 2
          then
            t2 <- redraw (set_tb_realign_top_try 0 t1) true ;;
            Done (inl (t2, true))
          else Done (inl (t1, false))
        else Done (inl (t, false))
      else
        let t1 := set_tb_realign_top_try 0 t in
        last <- deref (g_list_last (tb_list t1)) ;;
        if (tb_thumbs_per_row t1 =? 1) && (posy <? 0) && (g_list_length (tb_list t1) =? 1)
        then
          (* special case for zoom == 1 as we don't want any space under last image *)
          let nbid := select_count e in
          if nbid <=? th_rowid last then Done (inl (t1, false))
          else Done (inr (t1, posx, posy))
        else
          (* we stop when last image is fully shown *)
          if (th_y last + tb_thumb_size t1 <? tb_view_height t1) && (posy <? 0)
             && (r_y (tb_thumbs_area t1) =? 0)
          then Done (inl (t1, false))
          else Done (inr (t1, posx, posy))
  | DT_THUMBTABLE_MODE_FILMSTRIP =>
      let posy := 0 in (* to be sure, we don't want vertical move *)
      let posx := x in
      if posx =? 0 then Done (inl (t, false))
      else if (th_rowid first =? 1) && (posx >? 0)
              && (th_x first >=? Z.quot (tb_view_width t) 2 - tb_thumb_size t)
      then Done (inl (t, false))
      else
        last <- deref (g_list_last (tb_list t)) ;;
        if (th_x last <? Z.quot (tb_view_width t) 2) && (posx <? 0)
        then Done (inl (t, false))
        else Done (inr (t, posx, posy))
  | DT_THUMBTABLE_MODE_NONE => Done (inr (t, x, y))
  end.

(* the part of _move after the bounds check *)
Definition move_apply (e : collaborators) (t : dt_thumbtable_t) (posx posy : Z)
  : outcome (dt_thumbtable_t * bool) :=
  if (posy =? 0) && (posx =? 0) then Done (t, false)
  else
    (* we move all current thumbs *)
    let t1 := set_tb_list
                (map (fun th => set_th_pos (th_x th + posx) (th_y th + posy) th) (tb_list t))
                t in
    (* we update the thumbs_area *)
    let old_areay := r_y (tb_thumbs_area t1) in
    let a := tb_thumbs_area t1 in
    let t2 := set_tb_thumbs_area (mk_rect (r_x a + posx) (r_y a + posy) (r_width a) (r_height a))
                t1 in
    (* we load all needed thumbs *)
    '(t3, changed) <- _thumbs_load_needed e t2 ;;
    (* we remove the images not visible on screen *)
    let '(t4, removed) := _thumbs_remove_unneeded t3 in
    let changed := changed + removed in
    (* if there has been changed, we recompute thumbs area *)
    let t5 := if changed >? 0 then _pos_compute_area t4 else t4 in
    (* we update the offset *)
    t6 <-
      match tb_mode t5 with
      | DT_THUMBTABLE_MODE_FILEMANAGER =>
          q <- c_div (posy + old_areay) (tb_thumb_size t5) ;;
          let t' := set_tb_offset (MAX 1 (tb_offset t5 - q * tb_thumbs_per_row t5)) t5 in
          Done (set_tb_offset_imgid (_thumb_get_imgid e (tb_offset t')) t')
      | DT_THUMBTABLE_MODE_FILMSTRIP =>
          q <- c_div posx (tb_thumb_size t5) ;;
          let t' := set_tb_offset (MAX 1 (tb_offset t5 - q)) t5 in
          Done (set_tb_offset_imgid (_thumb_get_imgid e (tb_offset t')) t')
      | DT_THUMBTABLE_MODE_NONE => Done t5
      end ;;
    (* update scrollbars *)
    _ <- _thumbtable_update_scrollbars t6 ;;
    Done (t6, true).

(* move all thumbs from the table.
   if clamp, we verify that the move is allowed (collection bounds, etc...).
   [redraw] is dt_thumbtable_full_redraw, which the realign case calls. *)
Definition _move (redraw : dt_thumbtable_t -> bool -> outcome dt_thumbtable_t)
           (e : collaborators) (t : dt_thumbtable_t) (x y : Z) (clamp : bool)
  : outcome (dt_thumbtable_t * bool) :=
  match tb_list t with
  | [] => Done (t, false)
  | first :: _ =>
      if clamp
      then
        c <- move_clamp redraw e t first x y ;;
        match c with
        | inl r => Done r
        | inr (t1, posx, posy) => move_apply e t1 posx posy
        end
      else move_apply e t x y
  end.
(** ** Visibility of a row *)

Fixpoint _filemanager_ensure_rowid_visibility
         (redraw : dt_thumbtable_t -> bool -> outcome dt_thumbtable_t)
         (fuel : nat) (e : collaborators) (t : dt_thumbtable_t) (rowid : Z)
  : outcome (dt_thumbtable_t * bool) :=
  match fuel with
  | O => OutOfFuel
  | S fuel' =>
      let rowid := if rowid <? 1 then 1 else rowid in
      match tb_list t with
      | [] => Done (t, false)
      | first :: _ =>
          (* get first and last fully visible thumbnails *)
          let pos := MIN_guint_int (g_list_length (tb_list t) - 1)
                                   (tb_thumbs_per_row t * (tb_rows t - 1) - 1) in
          last <- deref (g_list_nth_data (tb_list t) pos) ;;
          if th_rowid first >? rowid
          then
            q <- c_div (th_rowid first - rowid) (tb_thumbs_per_row t) ;;
            let rows := MAX 1 q in
            '(t1, moved) <- _move redraw e t 0 (rows * tb_thumb_size t) true ;;
            if moved
            then _filemanager_ensure_rowid_visibility redraw fuel' e t1 rowid
            else Done (t1, false)
          else if th_rowid last <? rowid
          then
            q <- c_div (rowid - th_rowid last) (tb_thumbs_per_row t) ;;
            let rows := MAX 1 q in
            '(t1, moved) <- _move redraw e t 0 (- rows * tb_thumb_size t) true ;;
            if moved
            then _filemanager_ensure_rowid_visibility redraw fuel' e t1 rowid
            else Done (t1, false)
          else Done (t, true)
      end
  end.

Definition dt_thumbtable_ensure_imgid_visibility
           (redraw : dt_thumbtable_t -> bool -> outcome dt_thumbtable_t)
           (fuel : nat) (e : collaborators) (t : dt_thumbtable_t) (imgid : Z)
  : outcome (dt_thumbtable_t * bool) :=
  if imgid <? 1 then Done (t, false)
  else if is_filemanager t
  then _filemanager_ensure_rowid_visibility redraw fuel e t (_thumb_get_rowid e imgid)
  else Done (t, false).

(** ** Full redraw *)

(* the body of the while loop that consumes the rows of the query: the table
   (whose list loses the thumbnails that are reused), the position of the
   next thumbnail and the new list, built in reverse order *)
Definition redraw_row (e : collaborators) (st : dt_thumbtable_t * Z * Z * list dt_thumbnail_t)
           (row : Z * Z) : dt_thumbtable_t * Z * Z * list dt_thumbnail_t :=
  let '(t, posx, posy, newlist) := st in
  let '(nrow, nid) := row in
  let '(t1, newlist1) :=
    (* first, we search if the thumb is already here *)
    match g_list_find_by_imgid (tb_list t) nid with
    | Some thumb =>
        let thumb1 := set_th_rowid nrow thumb in (* this may have changed *)
        (* we set new position/size if needed *)
        let thumb2 :=
          if negb (th_x thumb1 =? posx) || negb (th_y thumb1 =? posy)
          then set_th_pos posx posy thumb1
          else thumb1 in
        let thumb3 := dt_thumbnail_resize thumb2 (tb_thumb_size t) (tb_thumb_size t) in
        (* and we remove the thumb from the old list *)
        (set_tb_list (g_list_remove (tb_list t) (th_obj thumb)) t, thumb3 :: newlist)
    | None =>
        (* we create a completely new thumb *)
        (set_tb_next_obj (S (tb_next_obj t)) t,
         new_thumb_at e t nid nrow posx posy :: newlist)
    end in
  let '(posx1, posy1) := _pos_get_next t1 posx posy in
  (* if it's the offset, we record the imgid *)
  let t2 := if nrow =? tb_offset t1 then set_tb_offset_imgid nid t1 else t1 in
  (t2, posx1, posy1, newlist1).

(* the start of the desired range: the first row to query, the number of
   empty positions before it and the position of the first thumbnail; in
   filemanager the stored offset is aligned on a row first *)
Definition redraw_start (t : dt_thumbtable_t)
  : outcome (dt_thumbtable_t * Z * Z * Z * Z) :=
  match tb_mode t with
  | DT_THUMBTABLE_MODE_FILEMANAGER =>
      (* ensure that the overall layout doesn't change
         (i.e. we don't get empty spaces in the very first row) *)
      offset_row <- c_div (tb_offset t - 1) (tb_thumbs_per_row t) ;;
      let offset := offset_row * tb_thumbs_per_row t + 1 in
      Done (set_tb_offset offset t, offset, 0, tb_center_offset t, 0)
  | DT_THUMBTABLE_MODE_FILMSTRIP =>
      (* in filmstrip, the offset is the centered image *)
      let offset := MAX 1 (tb_offset t - Z.quot (tb_rows t) 2) in
      let empty_start := - MIN 0 (tb_offset t - Z.quot (tb_rows t) 2 - 1) in
      let posx := Z.quot (tb_view_width t - tb_rows t * tb_thumb_size t) 2 in
      Done (t, offset, empty_start, posx + empty_start * tb_thumb_size t, 0)
  | DT_THUMBTABLE_MODE_NONE => Done (t, tb_offset t, 0, 0, 0)
  end.

(* reload all thumbs from the collection: the reconciliation of the window
   with the desired range, up to the recomputation of the thumbs area.  The
   second component is the list handed to g_list_free_full with
   _list_remove_thumb: the thumbnails that the call destroys. *)
Definition redraw_reload_destroy (e : collaborators) (t : dt_thumbtable_t)
  : outcome (dt_thumbtable_t * list dt_thumbnail_t) :=
  '(t1, offset, empty_start, posx, posy) <- redraw_start t ;;
  let q := select_rows_ge e offset (tb_rows t1 * tb_thumbs_per_row t1 - empty_start) in
  let '(t2, _, _, newlist) := fold_left (redraw_row e) q (t1, posx, posy, []) in
  (* now we cleanup all remaining thumbs from old table->list *)
  let destroyed := tb_list t2 in
  (* and set it again; list was built in reverse order, so un-reverse it *)
  Done (_pos_compute_area (set_tb_list (rev newlist) t2), destroyed).

(* the table that the reload leaves *)
Definition redraw_reload (e : collaborators) (t : dt_thumbtable_t) : outcome dt_thumbtable_t :=
  '(t', _) <- redraw_reload_destroy e t ;;
  Done t'.

(* the end of dt_thumbtable_full_redraw, after the thumbs area is recomputed;
   [redraw] is dt_thumbtable_full_redraw, which a move can call back *)
Definition redraw_finish (redraw : dt_thumbtable_t -> bool -> outcome dt_thumbtable_t)
           (fuel : nat) (e : collaborators) (force : bool) (t : dt_thumbtable_t)
  : outcome dt_thumbtable_t :=
  let lastid := dt_selection_get_first_id e in
  t1 <-
    (if (lastid >? -1) && is_filemanager t
     then
       (* this mean we arrive from filmstrip with some active images
          we need to ensure they are visible *)
       '(t', _) <- dt_thumbtable_ensure_imgid_visibility redraw fuel e t lastid ;;
       Done t'
     else Done t) ;;
  (* if we force the redraw, we ensure selection is updated *)
  Done (if force
        then set_tb_list (map (dt_thumbnail_update_selection e) (tb_list t1)) t1
        else t1).

(* reload all thumbs from scratch.
   force define if this should occurs in any case or just if thumbtable
   sizing properties have changed *)
Fixpoint dt_thumbtable_full_redraw (fuel : nat) (e : collaborators) (t : dt_thumbtable_t)
         (force : bool) : outcome dt_thumbtable_t :=
  match fuel with
  | O => OutOfFuel
  | S fuel' =>
      '(t1, changed) <- _compute_sizes e t force ;;
      if changed
      then
        (* we update the scrollbars *)
        _ <- _thumbtable_update_scrollbars t1 ;;
        t2 <- redraw_reload e (set_tb_dragging false t1) ;;
        redraw_finish (dt_thumbtable_full_redraw fuel' e) fuel' e force t2
      else Done t1
  end.

(* the incremental move, as the rest of the file calls it *)
Definition dt_thumbtable_move (fuel : nat) (e : collaborators) (t : dt_thumbtable_t)
           (x y : Z) (clamp : bool) : outcome (dt_thumbtable_t * bool) :=
  _move (dt_thumbtable_full_redraw fuel e) e t x y clamp.
(** ** Offset *)

(* dt_thumbtable_new: the table is zero-filled by calloc, then the offset is
   read from the preference "plugins/lighttable/recentcollect/pos0" *)
Definition dt_thumbtable_new (pos0 : Z) : dt_thumbtable_t :=
  mk_table DT_THUMBTABLE_MODE_NONE [] (MAX 1 pos0) 0 0 0 0 0 0 0 (mk_rect 0 0 0 0) 0
           false false 0.

(* set offset and redraw if needed *)
Definition dt_thumbtable_set_offset (fuel : nat) (e : collaborators) (t : dt_thumbtable_t)
           (offset : Z) (redraw : bool) : outcome (dt_thumbtable_t * bool) :=
  if (offset <? 1) || (offset =? tb_offset t) then Done (t, false)
  else
    let t1 := set_tb_offset offset t in
    t2 <- (if redraw then dt_thumbtable_full_redraw fuel e t1 true else Done t1) ;;
    Done (t2, true).

(** ** Collection change *)

(** Modelled from the spec: the notification is collection-changed(reload |
    other); the declaration of [dt_collection_change_t] is missing. *)
Inductive dt_collection_change_t : Type :=
| DT_COLLECTION_CHANGE_RELOAD
| DT_COLLECTION_CHANGE_OTHER.

(* the loop that looks into the still-live window for the next image that
   is valid in the new collection *)
Fixpoint next_valid_thumb (e : collaborators) (l : list dt_thumbnail_t) (after : bool)
         (nrow newid : Z) : Z * Z :=
  match l with
  | [] => (nrow, newid)
  | thumb :: l' =>
      if after
      then
        let nrow1 := _thumb_get_rowid e (th_imgid thumb) in
        if nrow1 >? 0 then (nrow1, th_imgid thumb)
        else next_valid_thumb e l' true nrow1 newid
      else next_valid_thumb e l' (th_imgid thumb =? newid) nrow newid
  end.

(* this is called each time collected images change; the final block, which
   moves the hover to the next image, only writes the global hover id *)
Definition _dt_collection_changed_callback (fuel : nat) (e : collaborators)
           (t : dt_thumbtable_t) (query_change : dt_collection_change_t)
           (imgs : list Z) (next : Z) : outcome dt_thumbtable_t :=
  match query_change with
  | DT_COLLECTION_CHANGE_RELOAD =>
      (* in filmstrip mode, let's first ensure the offset is the right one *)
      let tmpoff := dt_selection_get_first_id e in
      '(t1, old_offset) <-
        (if is_filmstrip t && (tmpoff >? -1) && negb (tmpoff =? tb_offset_imgid t)
         then
           let t' := set_tb_offset_imgid tmpoff
                       (set_tb_offset (_thumb_get_rowid e tmpoff) t) in
           t'' <- dt_thumbtable_full_redraw fuel e t' true ;;
           Done (t'', tb_offset_imgid t)
         else Done (t, -1)) ;;
      let newid := tb_offset_imgid t1 in
      let newid := if (newid <=? 0) && (tb_offset t1 >? 0)
                   then _thumb_get_imgid e (tb_offset t1) else newid in
      (* is the current offset imgid in the changed list *)
      let in_list := existsb (Z.eqb (tb_offset_imgid t1)) imgs in
      let newid :=
        if in_list && (next >? 0)
           && negb (_thumb_get_rowid e (tb_offset_imgid t1) =? tb_offset t1)
        then next else newid in
      (* get the new rowid of the new offset image *)
      let nrow := _thumb_get_rowid e newid in
      let '(nrow, newid) :=
        if nrow <=? 0 then next_valid_thumb e (tb_list t1) false nrow newid
        else (nrow, newid) in
      (* last chance if still not valid, we search the first previous valid image *)
      let '(nrow, newid) :=
        if nrow <=? 0 then next_valid_thumb e (rev (tb_list t1)) false nrow newid
        else (nrow, newid) in
      let t2 := if nrow >=? 1 then set_tb_offset_imgid newid t1
                else set_tb_offset_imgid (_thumb_get_imgid e 1) t1 in
      let t3 := set_tb_offset (MAX 1 nrow) t2 in
      t4 <- dt_thumbtable_full_redraw fuel e t3 true ;;
      (* if needed, we restore back the position of the filmstrip *)
      if (old_offset >? 0) && negb (old_offset =? tb_offset t4)
      then
        let _tmpoff := _thumb_get_rowid e old_offset in
        if _tmpoff >? 0
        then dt_thumbtable_full_redraw fuel e
               (set_tb_offset_imgid old_offset (set_tb_offset _tmpoff t4)) true
        else Done t4
      else Done t4
  | DT_COLLECTION_CHANGE_OTHER =>
      (* otherwise we reset the offset to the beginning *)
      let t1 := set_tb_offset 1 t in
      let t2 := set_tb_offset_imgid (_thumb_get_imgid e (tb_offset t1)) t1 in
      dt_thumbtable_full_redraw fuel e t2 true
  end.

(** ** Hover and group borders *)

(* first crawl over all images: hover flag of the thumb, borders cleared *)
Definition mouse_over_thumb (imgid : Z) (th : dt_thumbnail_t) : dt_thumbnail_t :=
  let th1 := if negb (Bool.eqb (th_mouse_over th) (th_imgid th =? imgid))
             then dt_thumbnail_set_mouseover th (th_imgid th =? imgid) else th in
  if negb (th_group_borders th1 =? 0)
  then dt_thumbnail_set_group_border th1 DT_THUMBNAIL_BORDER_NONE (* no borders remaining *)
  else th1.

(* the group of the hovered image, -1 if none *)
Definition mouse_over_group (imgid : Z) (l : list dt_thumbnail_t) : Z :=
  fold_left (fun groupid th =>
               if (th_imgid th =? imgid) && th_is_grouped th then th_groupid th else groupid)
            l (-1).

(* is the neighbour at position [n] outside the group?  A NULL neighbour is
   dereferenced by the C code. *)
Definition neighbour_not_in_group (l : list dt_thumbnail_t) (n groupid : Z) : outcome bool :=
  th1 <- deref (g_list_nth_data l n) ;;
  Done (negb (th_groupid th1 =? groupid)).

(* the body of the second crawl for the thumbnail [th] at position [pos].
   The neighbours are read in the list under update, of which the crawl only
   writes [group_borders].  The C test (th->x + th->width * 1.5) <
   thumbs_area.width is on doubles; it is stated on integers, doubled. *)
Definition group_borders_thumb (t : dt_thumbtable_t) (l : list dt_thumbnail_t)
           (groupid pos : Z) (th : dt_thumbnail_t) : outcome dt_thumbnail_t :=
  if th_groupid th =? groupid
  then
    th1 <-
      (if negb (is_filmstrip t)
       then
         (* left border *)
         b <- (if negb (pos =? 0) && negb (th_x th =? r_x (tb_thumbs_area t))
               then neighbour_not_in_group l (pos - 1) groupid else Done true) ;;
         let th' := if b then dt_thumbnail_set_group_border th DT_THUMBNAIL_BORDER_LEFT
                    else th in
         (* right border *)
         b <- (if negb (is_filmstrip t) && (pos <? g_list_length l - 1)
                  && (2 * th_x th' + 3 * th_width th' <? 2 * r_width (tb_thumbs_area t))
               then neighbour_not_in_group l (pos + 1) groupid else Done true) ;;
         Done (if b then dt_thumbnail_set_group_border th' DT_THUMBNAIL_BORDER_RIGHT
               else th')
       else
         (* in filmstrip, top and left borders are always here (no images above or below) *)
         Done (dt_thumbnail_set_group_border
                 (dt_thumbnail_set_group_border th DT_THUMBNAIL_BORDER_TOP)
                 DT_THUMBNAIL_BORDER_BOTTOM)) ;;
    (* top border *)
    b <- (if pos - tb_thumbs_per_row t >=? 0
          then neighbour_not_in_group l (pos - tb_thumbs_per_row t) groupid
          else Done true) ;;
    let th2 :=
      if b
      then if is_filmstrip t
           then dt_thumbnail_set_group_border th1 DT_THUMBNAIL_BORDER_LEFT
           else dt_thumbnail_set_group_border th1 DT_THUMBNAIL_BORDER_TOP
      else th1 in
    (* bottom border *)
    b <- (if (0 <=? pos + tb_thumbs_per_row t)
             && (pos + tb_thumbs_per_row t <? g_list_length l)
          then neighbour_not_in_group l (pos + tb_thumbs_per_row t) groupid
          else Done true) ;;
    Done (if b
          then if is_filmstrip t
               then dt_thumbnail_set_group_border th2 DT_THUMBNAIL_BORDER_RIGHT
               else dt_thumbnail_set_group_border th2 DT_THUMBNAIL_BORDER_BOTTOM
          else th2)
  else Done th.

(* the second crawl, from position [pos] on *)
Fixpoint group_borders_from (t : dt_thumbtable_t) (l : list dt_thumbnail_t)
         (groupid pos : Z) (rest : list dt_thumbnail_t) : outcome (list dt_thumbnail_t) :=
  match rest with
  | [] => Done []
  | th :: rest' =>
      th' <- group_borders_thumb t l groupid pos th ;;
      r <- group_borders_from t l groupid (pos + 1) rest' ;;
      Done (th' :: r)
  end.

(* this is called each time mouse_over id change *)
Definition _dt_mouse_over_image_callback (e : collaborators) (t : dt_thumbtable_t)
  : outcome dt_thumbtable_t :=
  let imgid := mouse_over_id e in
  let groupid := mouse_over_group imgid (tb_list t) in
  let l := map (mouse_over_thumb imgid) (tb_list t) in
  if groupid >? 0
  then
    l' <- group_borders_from t l groupid 0 l ;;
    Done (set_tb_list l' t)
  else Done (set_tb_list l t).

(** ** Lookups in the window *)

(* get the thumb at specific position *)
Definition _thumb_get_at_pos (t : dt_thumbtable_t) (x y : Z) : option dt_thumbnail_t :=
  find (fun th => (th_x th <=? x) && (th_x th + th_width th >? x)
                  && (th_y th <=? y) && (th_y th + th_height th >? y))
       (tb_list t).

Definition _thumbtable_get_thumb (t : dt_thumbtable_t) (imgid : Z) : option dt_thumbnail_t :=
  if imgid <=? 0 then None
  else find (fun th => th_imgid th =? imgid) (tb_list t).

Definition dt_thumbtable_get_offset (t : dt_thumbtable_t) : Z := tb_offset t.

(* set offset at specific imgid and redraw if needed *)
Definition dt_thumbtable_set_offset_image (fuel : nat) (e : collaborators)
           (t : dt_thumbtable_t) (imgid : Z) (redraw : bool)
  : outcome (dt_thumbtable_t * bool) :=
  let t1 := set_tb_offset_imgid imgid t in
  dt_thumbtable_set_offset fuel e t1 (_thumb_get_rowid e imgid) redraw.

Definition _filemanager_check_rowid_visibility (t : dt_thumbtable_t) (rowid : Z)
  : outcome bool :=
  if rowid <? 1 then Done false
  else
    match tb_list t with
    | [] => Done false
    | first :: _ =>
        (* get first and last fully visible thumbnails *)
        let pos := MIN_guint_int (g_list_length (tb_list t) - 1)
                                 (tb_thumbs_per_row t * (tb_rows t - 1) - 1) in
        last <- deref (g_list_nth_data (tb_list t) pos) ;;
        Done ((th_rowid first <=? rowid) && (th_rowid last >=? rowid))
    end.

Definition dt_thumbtable_check_imgid_visibility (e : collaborators) (t : dt_thumbtable_t)
           (imgid : Z) : outcome bool :=
  if imgid <? 1 then Done false
  else if is_filemanager t
  then _filemanager_check_rowid_visibility t (_thumb_get_rowid e imgid)
  else Done false.

(** ** Keyboard moves *)

(** Modelled from the spec: the keyboard moves LEFT, RIGHT, UP, DOWN,
    PAGE_UP, PAGE_DOWN, HOME and END; the declaration of
    [dt_thumbtable_move_t] (thumbtable.h) is missing.  Any other value of the
    enum takes the [default] case of the switch. *)
Inductive dt_thumbtable_move_t : Type :=
| DT_THUMBTABLE_MOVE_LEFT
| DT_THUMBTABLE_MOVE_RIGHT
| DT_THUMBTABLE_MOVE_UP
| DT_THUMBTABLE_MOVE_DOWN
| DT_THUMBTABLE_MOVE_PAGEUP
| DT_THUMBTABLE_MOVE_PAGEDOWN
| DT_THUMBTABLE_MOVE_START
| DT_THUMBTABLE_MOVE_END
| DT_THUMBTABLE_MOVE_OTHER.

(* SELECT MAX(rowid) FROM memory.collected_images; the NULL of an empty
   collection is read as 0 by sqlite3_column_int *)
Definition select_max_rowid (e : collaborators) : Z :=
  fold_left (fun m r => Z.max m (fst r)) (collected_rows e) 0.

(* while(newrowid < 1) newrowid += table->thumbs_per_row; *)
Fixpoint pageup_loop (fuel : nat) (newrowid thumbs_per_row : Z) : outcome Z :=
  if newrowid <? 1
  then match fuel with
       | O => OutOfFuel
       | S fuel' => pageup_loop fuel' (newrowid + thumbs_per_row) thumbs_per_row
       end
  else Done newrowid.

(* while(newrowid > maxrowid) newrowid -= table->thumbs_per_row; *)
Fixpoint pagedown_loop (fuel : nat) (newrowid maxrowid thumbs_per_row : Z) : outcome Z :=
  if newrowid >? maxrowid
  then match fuel with
       | O => OutOfFuel
       | S fuel' => pagedown_loop fuel' (newrowid - thumbs_per_row) maxrowid thumbs_per_row
       end
  else Done newrowid.

(* the first part of _filemanager_key_move: the row that the hover moves to,
   -1 if there is none.  (The calls that select the base image and the range
   do not take part in it.) *)
Definition key_move_newrowid (fuel : nat) (e : collaborators) (t : dt_thumbtable_t)
           (move : dt_thumbtable_move_t) : outcome Z :=
  (* base point *)
  let baseid := mouse_over_id e in
  let first_move := baseid <=? 0 in
  (* only initialize starting position but do not move yet, if moving for first time... *)
  let newrowid := if first_move then tb_offset t else -1 in
  let baseid := if first_move then tb_offset_imgid t else baseid in
  (* ... except for PAGEUP/PAGEDOWN or skipping to the start/end of collection *)
  if negb first_move
     || match move with
        | DT_THUMBTABLE_MOVE_PAGEUP | DT_THUMBTABLE_MOVE_PAGEDOWN
        | DT_THUMBTABLE_MOVE_START | DT_THUMBTABLE_MOVE_END => true
        | _ => false
        end
  then
    let baserowid := _thumb_get_rowid e baseid in
    (* last rowid of the current collection *)
    let maxrowid := select_max_rowid e in
    match move with
    (* classic keys *)
    | DT_THUMBTABLE_MOVE_LEFT => Done (MAX (baserowid - 1) 1)
    | DT_THUMBTABLE_MOVE_RIGHT => Done (MIN (baserowid + 1) maxrowid)
    | DT_THUMBTABLE_MOVE_UP => Done (MAX (baserowid - tb_thumbs_per_row t) 1)
    | DT_THUMBTABLE_MOVE_DOWN => Done (MIN (baserowid + tb_thumbs_per_row t) maxrowid)
    (* page keys *)
    | DT_THUMBTABLE_MOVE_PAGEUP =>
        n <- pageup_loop fuel (baserowid - tb_thumbs_per_row t * (tb_rows t - 1))
                         (tb_thumbs_per_row t) ;;
        Done (if n =? baserowid then 1 else n)
    | DT_THUMBTABLE_MOVE_PAGEDOWN =>
        n <- pagedown_loop fuel (baserowid + tb_thumbs_per_row t * (tb_rows t - 1))
                           maxrowid (tb_thumbs_per_row t) ;;
        Done (if n =? baserowid then maxrowid else n)
    (* direct start/end *)
    | DT_THUMBTABLE_MOVE_START => Done 1
    | DT_THUMBTABLE_MOVE_END => Done maxrowid
    | DT_THUMBTABLE_MOVE_OTHER => Done baserowid
    end
  else Done newrowid.

(** ** Zoom and first offset *)

(* the fields of the table and of the UI that locate the pointer:
   table->mouse_inside, table->last_x and table->last_y (root coordinates),
   the origin of the window of the widget (gdk_window_get_origin) and
   darktable.gui->anchor_imgid *)
Record pointer_t : Type := mk_pointer {
  tb_mouse_inside : bool;
  tb_last_x : Z;
  tb_last_y : Z;
  origin_x : Z;
  origin_y : Z;
  anchor_imgid : Z
}.

(* dt_view_lighttable_set_zoom *)
Definition dt_view_lighttable_set_zoom (zoom : Z) (e : collaborators) : collaborators :=
  mk_collab (allocation_width e) (allocation_height e) zoom (collected_images e)
            (selection e) (mouse_over_id e) (image_is_grouped e) (image_group_id e).

(* get the thumb which is currently under mouse cursor *)
Definition _thumb_get_under_mouse (p : pointer_t) (t : dt_thumbtable_t)
  : option dt_thumbnail_t :=
  if negb (tb_mouse_inside p) then None
  else _thumb_get_at_pos t (tb_last_x p - origin_x p) (tb_last_y p - origin_y p).

(* the image to zoom around and the point of it that is kept in place *)
Definition zoom_anchor (e : collaborators) (p : pointer_t) (t : dt_thumbtable_t)
           (first : dt_thumbnail_t) : dt_thumbnail_t * Z * Z :=
  let x := if tb_mouse_inside p then tb_last_x p - origin_x p else 0 in
  let y := if tb_mouse_inside p then tb_last_y p - origin_y p else 0 in
  match (if tb_mouse_inside p then _thumb_get_at_pos t x y else None) with
  | Some thumb => (thumb, x, y)
  | None =>
      (* otherwise we use the classic retrieving method *)
      let id := if negb (anchor_imgid p =? 0) then anchor_imgid p else mouse_over_id e in
      match _thumbtable_get_thumb t id with
      | Some thumb =>
          (* and we take the center of the thumb *)
          (thumb, th_x thumb + Z.quot (th_width thumb) 2,
           th_y thumb + Z.quot (th_height thumb) 2)
      | None =>
          (* still no thumb, try to use the one at screen center *)
          let x := Z.quot (tb_view_width t) 2 in
          let y := Z.quot (tb_view_height t) 2 in
          match _thumb_get_at_pos t x y with
          | Some thumb => (thumb, x, y)
          | None =>
              (* and lastly, take the first at screen *)
              (first, th_x first + Z.quot (th_width first) 2,
               th_y first + Z.quot (th_height first) 2)
          end
      end
  end.

(* change zoom value for the classic thumbtable *)
Definition _filemanager_zoom (fuel : nat) (e : collaborators) (p : pointer_t)
           (t : dt_thumbtable_t) (oldzoom newzoom : Z)
  : outcome (collaborators * dt_thumbtable_t) :=
  match tb_list t with
  | [] => Done (e, t) (* nothing to do if thumbtable is empty *)
  | first :: _ =>
      let '(thumb, x, y) := zoom_anchor e p t first in
      (* how many images will be displayed before the current position ? *)
      new_size <- c_div (tb_view_width t) newzoom ;;
      qy <- c_div y new_size ;;
      qx <- c_div x new_size ;;
      let new_pos := qy * newzoom + qx in
      '(t1, _) <- dt_thumbtable_set_offset fuel e t (th_rowid thumb - new_pos) false ;;
      Done (dt_view_lighttable_set_zoom newzoom e, t1)
  end.

Definition dt_thumbtable_zoom_changed (fuel : nat) (e : collaborators) (p : pointer_t)
           (t : dt_thumbtable_t) (oldzoom newzoom : Z)
  : outcome (collaborators * dt_thumbtable_t) :=
  if oldzoom =? newzoom then Done (e, t)
  else
    match tb_list t with
    | [] => Done (e, t)
    | _ :: _ =>
        if is_filemanager t then _filemanager_zoom fuel e p t oldzoom newzoom
        else Done (e, t)
    end.

Definition dt_thumbtable_reset_first_offset (fuel : nat) (e : collaborators)
           (t : dt_thumbtable_t) : outcome (dt_thumbtable_t * bool) :=
  if negb (is_filemanager t) then Done (t, false)
  else
    first <- deref (hd_error (tb_list t)) ;;
    r <- c_mod (th_rowid first - 1) (tb_thumbs_per_row t) ;;
    let offset := tb_thumbs_per_row t - r in
    if offset =? 0 then Done (t, false)
    else
      (* we scroll up the list by the number offset *)
      '(t1, _) <- dt_thumbtable_set_offset fuel e t (tb_offset t + offset) true ;;
      Done (t1, true).
End Thumbtable.

Module ActOn.

(** ** Data (act_on.h, and the globals act_on.c reads) *)

Record dt_act_on_cache_t : Type := mk_cache {
  ok : bool;
  ordered : bool;
  images : list Z;
  images_nb : Z;
  image_over : Z;
  active_imgs : list Z;
  inside_table : bool
}.

(* darktable.gui: the grouping preference, the group expanded in the UI and
   the mouse_inside flag of the thumbtable of the UI *)
Record dt_gui_gtk_t : Type := mk_gui {
  grouping : bool;
  expanded_group_id : Z;
  mouse_inside : bool
}.

(** Modelled from the spec: the collaborators of act_on.c.  The selection
    store answers [Selection.listIds(onlyVisible, ordered)]; the image
    storage (main.images) is a list of (id, group_id) rows; the collection of
    the selection, when there is one, filters image ids ("the current
    collection filter", taken without grouping). *)
Record darktable_t : Type := mk_darktable {
  gui : option dt_gui_gtk_t;                    (* darktable.gui, NULL without a UI *)
  mouse_over_id : Z;                            (* dt_control_get_mouse_over_id *)
  active_images : list Z;                       (* darktable.view_manager->active_images *)
  act_on_cache_visible : dt_act_on_cache_t;
  act_on_cache_all : dt_act_on_cache_t;
  selection_list : bool -> bool -> list Z;      (* dt_selection_get_list *)
  selection_collection : option (Z -> bool);    (* dt_selection_get_collection and its query *)
  main_images : list (Z * Z)
}.

Definition set_act_on_cache (only_visible : bool) (c : dt_act_on_cache_t) (d : darktable_t)
  : darktable_t :=
  if only_visible
  then mk_darktable (gui d) (mouse_over_id d) (active_images d) c (act_on_cache_all d)
                    (selection_list d) (selection_collection d) (main_images d)
  else mk_darktable (gui d) (mouse_over_id d) (active_images d) (act_on_cache_visible d) c
                    (selection_list d) (selection_collection d) (main_images d).

Definition get_act_on_cache (only_visible : bool) (d : darktable_t) : dt_act_on_cache_t :=
  if only_visible then act_on_cache_visible d else act_on_cache_all d.

(* dt_image_cache_get(...)->group_id, None when the image is not found *)
Definition dt_image_cache_get (d : darktable_t) (imgid : Z) : option Z :=
  match find (fun r => fst r =? imgid) (main_images d) with
  | Some r => Some (snd r)
  | None => None
  end.

(* SELECT id FROM main.images WHERE group_id = %d AND id IN (%s) *)
Definition select_group_in_collection (d : darktable_t) (in_collection : Z -> bool)
           (group_id : Z) : list Z :=
  map fst (filter (fun r => (snd r =? group_id) && in_collection (fst r)) (main_images d)).

(** ** The list of images to act on *)

Definition _find_custom (a b : Z) : Z := b2z (negb (a =? b)).

(* if(!g_list_find_custom( *list, imgid, _find_custom)) *list = g_list_append( *list, imgid) *)
Definition append_if_absent (l : list Z) (imgid : Z) : list Z :=
  if existsb (fun a => _find_custom a imgid =? 0) l then l else l ++ [imgid].

Definition _insert_in_list (d : darktable_t) (l : list Z) (imgid : Z) (only_visible : bool)
  : list Z :=
  if only_visible then append_if_absent l imgid
  else
    match dt_image_cache_get d imgid with
    | Some img_group_id =>
        match gui d, selection_collection d with
        | Some g, Some in_collection =>
            if negb (grouping g) || (expanded_group_id g =? img_group_id)
            then append_if_absent l imgid
            else fold_left append_if_absent
                           (select_group_in_collection d in_collection img_group_id) l
        | _, _ => append_if_absent l imgid
        end
    | None => l
    end.

(* the while loop of _test_cache over the two lists of active images *)
Fixpoint active_imgs_agree (l1 l2 : list Z) : bool :=
  match l1, l2 with
  | a :: l1', b :: l2' => if negb (a =? b) then false else active_imgs_agree l1' l2'
  | _, _ => true
  end.

(* test if the cache is still valid *)
Definition _test_cache (d : darktable_t) (cache : dt_act_on_cache_t) : outcome bool :=
  let mouseover := mouse_over_id d in
  if ok cache && (image_over cache =? mouseover)
  then
    g <- deref (gui d) ;;
    if Bool.eqb (inside_table cache) (mouse_inside g)
       && (Nat.eqb (length (active_imgs cache)) (length (active_images d)))
    then
      (* we test active images if mouse outside table *)
      Done (if negb (mouse_inside g) && negb (Nat.eqb (length (active_imgs cache)) 0)
            then active_imgs_agree (active_imgs cache) (active_images d)
            else true)
    else Done false
  else Done false.

(* selection, then the active images as a higher level of selection *)
Definition images_to_act_on (d : darktable_t) (only_visible ordered : bool) : list Z :=
  fold_left
    (fun l id =>
       let l1 := _insert_in_list d l id only_visible in
       (* be absolutely sure we have the id in the list *)
       if negb only_visible then _insert_in_list d l1 id true else l1)
    (active_images d)
    (selection_list d only_visible ordered).

(* cache the list of images to act on during global changes (libs, accels)
   return TRUE if the cache is updated, FALSE if it's still up to date *)
Definition _cache_update (d : darktable_t) (only_visible force ordered_ : bool)
  : outcome (darktable_t * bool) :=
  let cache := get_act_on_cache only_visible d in
  (* Return the cached list if we don't force-refresh *)
  hit <- (if negb force && Bool.eqb (ordered cache) ordered_
          then _test_cache d cache else Done false) ;;
  if hit then Done (d, false)
  else
    let l := images_to_act_on d only_visible ordered_ in
    (* let's register the new list as cached *)
    g <- deref (gui d) ;;
    Done (set_act_on_cache only_visible
            (mk_cache true ordered_ l (Z.of_nat (length l)) (mouse_over_id d)
                      (active_images d) (mouse_inside g))
            d,
          true).

(* get the list of images to act on during global changes (libs, accels) *)
Definition dt_act_on_get_images (d : darktable_t) (only_visible force ordered_ : bool)
  : outcome (list Z * darktable_t) :=
  (* we first update the cache if needed *)
  '(d1, _) <- _cache_update d only_visible force ordered_ ;;
  (* and we return a copy of the cached list *)
  Done (if only_visible && ok (act_on_cache_visible d1)
        then images (act_on_cache_visible d1)
        else if negb only_visible && ok (act_on_cache_all d1)
             then images (act_on_cache_all d1)
             else [],
        d1).

(* reset the cache *)
Definition dt_act_on_reset_cache (d : darktable_t) (only_visible : bool) : darktable_t :=
  let c := get_act_on_cache only_visible d in
  set_act_on_cache only_visible
    (mk_cache false (ordered c) (images c) (images_nb c) (image_over c) (active_imgs c)
              (inside_table c))
    d.

(** ** The main image and the number of images *)

(** Modelled from the spec: the two tables the query of
    [dt_act_on_get_main_image] joins, [main.selected_images] (the ids of the
    selected images) and [memory.collected_images] (the ids of the collection
    in rowid order).  The query returns the first image of the collection
    that is selected. *)
Definition select_first_selected (selected_images collected_images : list Z) : option Z :=
  find (fun c => existsb (Z.eqb c) selected_images) collected_images.

(* get the main image to act on during global changes (libs, accels) *)
Definition dt_act_on_get_main_image (d : darktable_t)
           (selected_images collected_images : list Z) : Z :=
  let mouseover := mouse_over_id d in
  if mouseover >? 0 then mouseover
  else
    match active_images d with
    | a :: _ => a
    | [] =>
        match select_first_selected selected_images collected_images with
        | Some id => id
        | None => -1
        end
    end.

(* get only the number of images to act on *)
Definition dt_act_on_get_images_nb (d : darktable_t) (only_visible force : bool)
  : outcome (Z * darktable_t) :=
  (* if the cache is valid (whatever the ordering) we return its value *)
  let cache := get_act_on_cache only_visible d in
  hit <- (if negb force then _test_cache d cache else Done false) ;;
  if hit then Done (images_nb cache, d)
  else
    (* otherwise we update the cache *)
    '(d1, _) <- _cache_update d only_visible force false ;;
    (* and we return the number of images in cache *)
    Done (if only_visible && ok (act_on_cache_visible d1)
          then images_nb (act_on_cache_visible d1)
          else if negb only_visible && ok (act_on_cache_all d1)
               then images_nb (act_on_cache_all d1)
               else 0,
          d1).

End ActOn.

(** * Outcomes *)

Lemma bind_done {A B : Type} (m : outcome A) (k : A -> outcome B) (b : B) :
  bind m k = Done b -> exists a, m = Done a /\ k a = Done b.
Proof. destruct m; simpl; intros H; try discriminate. exists a. split; [reflexivity | exact H]. Qed.

(** * Properties of the thumbnail table *)

Module ThumbtableFacts.
Import Thumbtable.

Lemma MAX_is_max (a b : Z) : MAX a b = Z.max a b.
Proof. unfold MAX. destruct (Z.gtb_spec a b); lia. Qed.

Lemma MIN_is_min (a b : Z) : MIN a b = Z.min a b.
Proof. unfold MIN. destruct (Z.ltb_spec a b); lia. Qed.


Lemma c_div_done (a b : Z) : b <> 0 -> c_div a b = Done (Z.quot a b).
Proof. intros H. unfold c_div. destruct (Z.eqb_spec b 0); [contradiction | reflexivity]. Qed.

Lemma c_div_inv (a b q : Z) : c_div a b = Done q -> b <> 0 /\ q = Z.quot a b.
Proof.
  unfold c_div. destruct (Z.eqb_spec b 0); intros H; [discriminate | ].
  inversion H. split; [assumption | reflexivity].
Qed.

(** ** Sizes *)

(* the size test of _compute_sizes for a viewport that is not degenerate *)
Definition sizes_stale (e : collaborators) (t : dt_thumbtable_t) (force : bool) : Prop :=
  force = true
  \/ allocation_width e <> tb_view_width t
  \/ allocation_height e <> tb_view_height t.

Lemma sizes_stale_test (e : collaborators) (t : dt_thumbtable_t) (force : bool) :
  sizes_stale e t force ->
  force || negb (allocation_width e =? tb_view_width t)
        || negb (allocation_height e =? tb_view_height t) = true.
Proof.
  intros [H | [H | H]].
  - subst. reflexivity.
  - apply Z.eqb_neq in H. rewrite H. destruct force; reflexivity.
  - apply Z.eqb_neq in H. rewrite H. rewrite orb_true_r. reflexivity.
Qed.

Lemma degenerate_test (e : collaborators) :
  allocation_width e <= 20 \/ allocation_height e <= 20 ->
  (allocation_width e <=? 20) || (allocation_height e <=? 20) = true.
Proof.
  intros [H | H]; apply Z.leb_le in H; rewrite H; [reflexivity | apply orb_true_r].
Qed.

Lemma regular_test (e : collaborators) :
  20 < allocation_width e -> 20 < allocation_height e ->
  (allocation_width e <=? 20) || (allocation_height e <=? 20) = false.
Proof.
  intros Hw Hh. apply orb_false_iff. split; apply Z.leb_gt; assumption.
Qed.

Lemma rem2_even (r : Z) : 0 <= r -> (Z.rem r 2 =? 0) = Z.even r.
Proof.
  intros Hr. rewrite Z.rem_mod_nonneg by lia.
  rewrite Zeven_mod. reflexivity.
Qed.

(* the filmstrip of a viewport of 100 x 50 pixels *)
Definition strip_100_50 : collaborators :=
  mk_collab 100 50 1 [7] [] (-1) (fun _ => false) (fun _ => -1).

Definition strip_table_empty : dt_thumbtable_t :=
  set_tb_mode DT_THUMBTABLE_MODE_FILMSTRIP (dt_thumbtable_new 1).

(** C8, counterexample: in a filmstrip of 100 x 50 pixels the thumbnails are
    50 pixels wide, two of them fill the width exactly, and _compute_sizes
    sets rows to 3: the count is odd, not even, and it is not the rounded-up
    quotient, which is 2. *)
Lemma C8_counterexample :
  exists t', _compute_sizes strip_100_50 strip_table_empty true = Done (t', true)
             /\ tb_thumb_size t' = 50
             /\ tb_rows t' = 3
             /\ Z.even (tb_rows t') = false
             /\ 2 * tb_thumb_size t' = allocation_width strip_100_50.
Proof. eexists. repeat split. Qed.

(** C8, amended: in filmstrip mode, for a viewport larger than 20 pixels in
    both directions, _compute_sizes, when it recomputes (forced, or the
    stored viewport differs from the allocation), sets thumb_size to the
    viewport height and rows to the quotient viewport_width / thumb_size
    (rounded down) plus 1 if that quotient is even, plus 2 if it is odd: the
    count is always odd, with a center position, and the row is strictly
    wider than the viewport. *)
Theorem C8_strip_geometry (e : collaborators) (t : dt_thumbtable_t) (force : bool) :
  tb_mode t = DT_THUMBTABLE_MODE_FILMSTRIP ->
  20 < allocation_width e -> 20 < allocation_height e ->
  sizes_stale e t force ->
  exists t',
    _compute_sizes e t force = Done (t', true)
    /\ tb_thumb_size t' = allocation_height e
    /\ (let q := Z.quot (allocation_width e) (allocation_height e) in
        tb_rows t' = if Z.even q then q + 1 else q + 2)
    /\ Z.odd (tb_rows t') = true
    /\ allocation_width e < tb_rows t' * tb_thumb_size t'.
Proof.
  intros Hmode Hw Hh Hstale.
  unfold _compute_sizes.
  rewrite (regular_test e Hw Hh), Hmode, (sizes_stale_test e t force Hstale).
  rewrite c_div_done by lia. cbn [bind].
  set (q := Z.quot (allocation_width e) (allocation_height e)).
  assert (Hq : 0 <= q) by (apply Z.quot_pos; lia).
  assert (Hlt : allocation_width e < (q + 1) * allocation_height e).
  { pose proof (Z.quot_rem' (allocation_width e) (allocation_height e)) as Hqr.
    pose proof (Z.rem_bound_pos (allocation_width e) (allocation_height e)) as Hb.
    fold q in Hqr. nia. }
  eexists. split; [reflexivity | ]. cbn.
  rewrite (rem2_even q Hq).
  split; [reflexivity | ].
  destruct (Z.even q) eqn:Heven; cbn.
  - split; [reflexivity | ]. split.
    + rewrite Z.odd_add. rewrite <- Z.negb_even, Heven. reflexivity.
    + exact Hlt.
  - split; [reflexivity | ]. split.
    + rewrite Z.odd_add. rewrite <- Z.negb_even, Heven. reflexivity.
    + nia.
Qed.

(** C8, witness: the filmstrip of 100 x 50 pixels. *)
Lemma C8_strip_geometry_witness :
  exists t',
    _compute_sizes strip_100_50 strip_table_empty true = Done (t', true)
    /\ tb_thumb_size t' = allocation_height strip_100_50
    /\ (let q := Z.quot (allocation_width strip_100_50) (allocation_height strip_100_50) in
        tb_rows t' = if Z.even q then q + 1 else q + 2)
    /\ Z.odd (tb_rows t') = true
    /\ allocation_width strip_100_50 < tb_rows t' * tb_thumb_size t'.
Proof.
  apply (C8_strip_geometry strip_100_50 strip_table_empty true).
  - reflexivity.
  - reflexivity.
  - reflexivity.
  - left. reflexivity.
Defined.

(** ** Degenerate viewport *)

(* a grid of 100 x 100 pixels shrunk to 10 x 10 *)
Definition grid_shrunk : collaborators :=
  mk_collab 10 10 2 [101; 102; 103] [] (-1) (fun _ => false) (fun _ => -1).

Definition grid_table_100 : dt_thumbtable_t :=
  mk_table DT_THUMBTABLE_MODE_FILEMANAGER [] 1 101 2 3 50 100 100 0 (mk_rect 0 0 0 0) 0
           false true 0.

(** C9, counterexample: a table laid out for a viewport of 100 x 100 pixels
    is redrawn while the allocation is 10 x 10.  The call returns, the window
    and the offset are kept, but the stored viewport size is overwritten with
    the degenerate one: the layout state is not left unchanged. *)
Lemma C9_counterexample :
  exists t',
    dt_thumbtable_full_redraw 1 grid_shrunk grid_table_100 false = Done t'
    /\ tb_view_width grid_table_100 = 100 /\ tb_view_width t' = 10
    /\ tb_view_height grid_table_100 = 100 /\ tb_view_height t' = 10
    /\ t' <> grid_table_100.
Proof.
  eexists. repeat split. intros H. discriminate H.
Qed.

(** C9, amended: whenever the viewport width or height is at or below 20
    pixels, fullRedraw performs no reconciliation and does not fail: the
    window (membership and entries), the offset and every other field of the
    table are left unchanged, except the stored viewport width and height,
    which are set to the degenerate allocation. *)
Theorem C9_degenerate_freeze (fuel : nat) (e : collaborators) (t : dt_thumbtable_t)
        (force : bool) :
  allocation_width e <= 20 \/ allocation_height e <= 20 ->
  exists t',
    dt_thumbtable_full_redraw (S fuel) e t force = Done t'
    /\ t' = set_tb_view (allocation_width e) (allocation_height e) t
    /\ tb_list t' = tb_list t
    /\ tb_offset t' = tb_offset t /\ tb_offset_imgid t' = tb_offset_imgid t
    /\ tb_mode t' = tb_mode t
    /\ tb_thumbs_per_row t' = tb_thumbs_per_row t /\ tb_rows t' = tb_rows t
    /\ tb_thumb_size t' = tb_thumb_size t /\ tb_center_offset t' = tb_center_offset t
    /\ tb_thumbs_area t' = tb_thumbs_area t
    /\ tb_realign_top_try t' = tb_realign_top_try t
    /\ tb_dragging t' = tb_dragging t /\ tb_scrollbars t' = tb_scrollbars t
    /\ tb_next_obj t' = tb_next_obj t
    /\ tb_view_width t' = allocation_width e /\ tb_view_height t' = allocation_height e.
Proof.
  intros Hdeg. eexists. split.
  - cbn [dt_thumbtable_full_redraw]. unfold _compute_sizes.
    rewrite (degenerate_test e Hdeg). cbn [bind]. reflexivity.
  - repeat split.
Qed.

(** C9, witness: the grid shrunk to 10 x 10 pixels. *)
Lemma C9_degenerate_freeze_witness :
  exists t',
    dt_thumbtable_full_redraw 1 grid_shrunk grid_table_100 true = Done t'
    /\ t' = set_tb_view 10 10 grid_table_100.
Proof.
  destruct (C9_degenerate_freeze 0 grid_shrunk grid_table_100 true) as [t' [H1 [H2 _]]].
  - left. cbn. lia.
  - exists t'. split; [exact H1 | exact H2].
Defined.
(** ** The reconciliation loop *)

(* the reload without the list of the destroyed thumbnails *)
Lemma redraw_reload_body (e : collaborators) (t : dt_thumbtable_t) :
  redraw_reload e t
  = ('(t1, offset, empty_start, posx, posy) <- redraw_start t ;;
     let q := select_rows_ge e offset (tb_rows t1 * tb_thumbs_per_row t1 - empty_start) in
     let '(t2, _, _, newlist) := fold_left (redraw_row e) q (t1, posx, posy, []) in
     Done (_pos_compute_area (set_tb_list (rev newlist) t2))).
Proof.
  unfold redraw_reload, redraw_reload_destroy.
  destruct (redraw_start t) as [[[[[t1 offset] empty_start] posx] posy] | | ];
    [ | reflexivity | reflexivity].
  cbn [bind].
  destruct (fold_left (redraw_row e)
              (select_rows_ge e offset (tb_rows t1 * tb_thumbs_per_row t1 - empty_start))
              (t1, posx, posy, [])) as [[[t2 px] py] newlist].
  reflexivity.
Qed.


(* the table without its window, its anchor image, its thumbs area and its
   allocator: what is left is never written by the reload *)
Definition layout_of (t : dt_thumbtable_t) : dt_thumbtable_t :=
  set_tb_thumbs_area (mk_rect 0 0 0 0)
    (set_tb_next_obj 0%nat (set_tb_offset_imgid 0 (set_tb_list [] t))).

Lemma layout_of_fields (t t' : dt_thumbtable_t) :
  layout_of t' = layout_of t ->
  tb_mode t' = tb_mode t /\ tb_offset t' = tb_offset t
  /\ tb_thumbs_per_row t' = tb_thumbs_per_row t /\ tb_rows t' = tb_rows t
  /\ tb_thumb_size t' = tb_thumb_size t
  /\ tb_view_width t' = tb_view_width t /\ tb_view_height t' = tb_view_height t
  /\ tb_center_offset t' = tb_center_offset t.
Proof.
  intros H. unfold layout_of, set_tb_next_obj, set_tb_offset_imgid, set_tb_list in H.
  cbn in H. inversion H. repeat split; assumption.
Qed.

Lemma layout_of_flags (t t' : dt_thumbtable_t) :
  layout_of t' = layout_of t ->
  tb_realign_top_try t' = tb_realign_top_try t
  /\ tb_dragging t' = tb_dragging t /\ tb_scrollbars t' = tb_scrollbars t.
Proof.
  intros H. unfold layout_of, set_tb_next_obj, set_tb_offset_imgid, set_tb_list in H.
  cbn in H. inversion H. repeat split; assumption.
Qed.

Lemma pos_get_next_layout (t t' : dt_thumbtable_t) (x y : Z) :
  layout_of t' = layout_of t -> _pos_get_next t' x y = _pos_get_next t x y.
Proof.
  intros H. destruct (layout_of_fields t t' H) as (Hm & _ & _ & _ & Hs & Hw & _ & Hc).
  unfold _pos_get_next. rewrite Hm, Hs, Hw, Hc. reflexivity.
Qed.

(* the positions of [n] consecutive thumbnails, from (x, y) on *)
Fixpoint slots (t : dt_thumbtable_t) (x y : Z) (n : nat) : list (Z * Z) :=
  match n with
  | O => []
  | S n' => (x, y) :: slots t (fst (_pos_get_next t x y)) (snd (_pos_get_next t x y)) n'
  end.

(* the thumbnail [th] shows the row [row] of the collection at [pos] *)
Definition placed (t : dt_thumbtable_t) (th : dt_thumbnail_t) (slot : (Z * Z) * (Z * Z))
  : Prop :=
  th_rowid th = fst (fst slot) /\ th_imgid th = snd (fst slot)
  /\ th_x th = fst (snd slot) /\ th_y th = snd (snd slot)
  /\ th_width th = tb_thumb_size t /\ th_height th = tb_thumb_size t.

Lemma find_by_imgid_some (l : list dt_thumbnail_t) (nid : Z) (th : dt_thumbnail_t) :
  g_list_find_by_imgid l nid = Some th -> In th l /\ th_imgid th = nid /\ 0 <= nid.
Proof.
  unfold g_list_find_by_imgid. intros H. apply find_some in H. destruct H as [Hin Hc].
  split; [exact Hin | ]. unfold _list_compare_by_imgid in Hc.
  destruct (Z.ltb_spec (th_imgid th) 0); cbn in Hc; [discriminate | ].
  destruct (Z.ltb_spec nid 0); cbn in Hc; [discriminate | ].
  destruct (Z.eqb_spec (th_imgid th) nid); cbn in Hc; [ | discriminate].
  split; assumption.
Qed.

(* one turn of the loop: what it keeps, and the thumbnail it adds *)
Lemma redraw_row_step (e : collaborators) (t : dt_thumbtable_t) (posx posy : Z)
      (newlist : list dt_thumbnail_t) (row : Z * Z) :
  exists t' th,
    redraw_row e (t, posx, posy, newlist) row
    = (t', fst (_pos_get_next t posx posy), snd (_pos_get_next t posx posy), th :: newlist)
    /\ layout_of t' = layout_of t
    /\ placed t th (row, (posx, posy))
    /\ tb_offset_imgid t'
       = (if fst row =? tb_offset t then snd row else tb_offset_imgid t)
    /\ ((exists thumb,
            g_list_find_by_imgid (tb_list t) (snd row) = Some thumb
            /\ th_obj th = th_obj thumb
            /\ tb_list t' = g_list_remove (tb_list t) (th_obj thumb)
            /\ tb_next_obj t' = tb_next_obj t)
        \/ (g_list_find_by_imgid (tb_list t) (snd row) = None
            /\ th_obj th = tb_next_obj t
            /\ tb_list t' = tb_list t
            /\ tb_next_obj t' = S (tb_next_obj t))).
Proof.
  destruct row as [nrow nid]. unfold redraw_row. cbn [snd].
  destruct (g_list_find_by_imgid (tb_list t) nid) as [thumb | ] eqn:Hfind.
  - pose proof Hfind as Hfound.
    apply find_by_imgid_some in Hfind. destruct Hfind as (_ & Hid & _).
    set (t1 := set_tb_list (g_list_remove (tb_list t) (th_obj thumb)) t).
    assert (Hl : layout_of t1 = layout_of t) by reflexivity.
    rewrite (pos_get_next_layout t t1 posx posy Hl).
    destruct (_pos_get_next t posx posy) as [px py].
    eexists. eexists. split; [reflexivity | ]. split; [ | split; [ | split]].
    + destruct (nrow =? tb_offset t1); reflexivity.
    + unfold placed. cbn.
      destruct (negb (th_x thumb =? posx) || negb (th_y thumb =? posy)) eqn:Hmv; cbn.
      * repeat split; assumption.
      * apply orb_false_iff in Hmv. destruct Hmv as [Hx Hy].
        apply negb_false_iff in Hx. apply negb_false_iff in Hy.
        apply Z.eqb_eq in Hx. apply Z.eqb_eq in Hy. repeat split; assumption.
    + cbn. destruct (nrow =? tb_offset t); reflexivity.
    + left. exists thumb. split; [reflexivity | ]. split; [ | split].
      * cbn. destruct (negb (th_x thumb =? posx) || negb (th_y thumb =? posy)); reflexivity.
      * unfold t1. destruct (nrow =? tb_offset (set_tb_list _ t)); reflexivity.
      * unfold t1. destruct (nrow =? tb_offset (set_tb_list _ t)); reflexivity.
  - set (t1 := set_tb_next_obj (S (tb_next_obj t)) t).
    assert (Hl : layout_of t1 = layout_of t) by reflexivity.
    rewrite (pos_get_next_layout t t1 posx posy Hl).
    destruct (_pos_get_next t posx posy) as [px py].
    eexists. eexists. split; [reflexivity | ]. split; [ | split; [ | split]].
    + destruct (nrow =? tb_offset t1); reflexivity.
    + unfold placed. cbn. repeat split.
    + cbn. destruct (nrow =? tb_offset t); reflexivity.
    + right. split; [reflexivity | ]. split; [reflexivity | ]. split.
      * unfold t1. destruct (nrow =? tb_offset (set_tb_next_obj _ t)); reflexivity.
      * unfold t1. destruct (nrow =? tb_offset (set_tb_next_obj _ t)); reflexivity.
Qed.

(* the loop, row after row: the new list gains one placed thumbnail per row
   of the query, in the order of the query *)
Lemma redraw_rows_placed (e : collaborators) (q : list (Z * Z)) :
  forall (t : dt_thumbtable_t) (posx posy : Z) (newlist : list dt_thumbnail_t),
  exists t' px py added,
    fold_left (redraw_row e) q (t, posx, posy, newlist) = (t', px, py, rev added ++ newlist)
    /\ layout_of t' = layout_of t
    /\ Forall2 (placed t) added (combine q (slots t posx posy (length q))).
Proof.
  induction q as [ | row q IH]; intros t posx posy newlist.
  - exists t, posx, posy, []. cbn. repeat split. constructor.
  - destruct (redraw_row_step e t posx posy newlist row) as (t1 & th & Hstep & Hl1 & Hpl & _ & _).
    cbn [fold_left]. rewrite Hstep.
    destruct (IH t1 (fst (_pos_get_next t posx posy)) (snd (_pos_get_next t posx posy))
                 (th :: newlist)) as (t' & px & py & added & Hfold & Hl & Hall).
    exists t', px, py, (th :: added). split; [ | split].
    + rewrite Hfold. cbn [rev]. rewrite <- app_assoc. reflexivity.
    + rewrite Hl. exact Hl1.
    + cbn [length slots combine]. constructor; [exact Hpl | ].
      assert (Hslots : forall x y n, slots t1 x y n = slots t x y n).
      { intros x y n. revert x y. induction n as [ | n IHn]; intros x y; cbn [slots].
        - reflexivity.
        - rewrite (pos_get_next_layout t t1 x y Hl1). rewrite IHn. reflexivity. }
      rewrite Hslots in Hall.
      destruct (layout_of_fields t t1 Hl1) as (_ & _ & _ & _ & Hs & _).
      eapply Forall2_impl; [ | exact Hall].
      intros a b Hab. unfold placed in *. rewrite <- Hs. exact Hab.
Qed.

(* the window after the reload: one placed thumbnail per row of the query *)
Lemma redraw_reload_placed (e : collaborators) (t t1 t2 : dt_thumbtable_t)
      (offset empty_start posx posy : Z) :
  redraw_start t = Done (t1, offset, empty_start, posx, posy) ->
  redraw_reload e t = Done t2 ->
  let q := select_rows_ge e offset (tb_rows t1 * tb_thumbs_per_row t1 - empty_start) in
  Forall2 (placed t1) (tb_list t2) (combine q (slots t1 posx posy (length q)))
  /\ tb_offset t2 = tb_offset t1 /\ tb_mode t2 = tb_mode t1
  /\ tb_thumbs_per_row t2 = tb_thumbs_per_row t1 /\ tb_thumb_size t2 = tb_thumb_size t1.
Proof.
  intros Hstart Hreload q. rewrite redraw_reload_body in Hreload. rewrite Hstart in Hreload.
  cbn [bind] in Hreload. fold q in Hreload.
  destruct (redraw_rows_placed e q t1 posx posy []) as (t' & px & py & added & Hfold & Hl & Hall).
  rewrite Hfold in Hreload. rewrite app_nil_r, rev_involutive in Hreload.
  inversion Hreload. subst t2. clear Hreload.
  destruct (layout_of_fields t1 t' Hl) as (Hm & Ho & Hp & _ & Hs & _).
  cbn. repeat split; assumption.
Qed.
(** ** The rows of the collection *)

Lemma rows_from_all_ge (s : Z) (ids : list Z) :
  forall b, s <= b ->
  filter (fun r : Z * Z => s <=? fst r) (rows_from b ids) = rows_from b ids.
Proof.
  induction ids as [ | id ids IH]; intros b Hb; cbn [rows_from filter fst].
  - reflexivity.
  - destruct (Z.leb_spec s b) as [_ | Hlt]; [ | lia].
    rewrite IH by lia. reflexivity.
Qed.

Lemma rows_from_ge (s : Z) (ids : list Z) :
  forall b, b <= s ->
  filter (fun r : Z * Z => s <=? fst r) (rows_from b ids)
  = rows_from s (skipn (Z.to_nat (s - b)) ids).
Proof.
  induction ids as [ | id ids IH]; intros b Hb.
  - cbn. rewrite skipn_nil. reflexivity.
  - destruct (Z.eq_dec b s) as [Heq | Hne].
    + subst b. rewrite rows_from_all_ge by lia. rewrite Z.sub_diag. reflexivity.
    + cbn [rows_from filter fst]. destruct (Z.leb_spec s b) as [Hle | Hlt]; [lia | ].
      rewrite (IH (b + 1)) by lia.
      replace (Z.to_nat (s - b)) with (S (Z.to_nat (s - (b + 1)))) by lia.
      reflexivity.
Qed.

Lemma rows_from_fst (ids : list Z) :
  forall b r l, rows_from b ids = r :: l -> fst r = b.
Proof.
  destruct ids as [ | id ids]; intros b r l H; cbn in H; [discriminate | ].
  inversion H. reflexivity.
Qed.

(* the first row of the desired range is the requested one *)
Lemma select_rows_ge_first (e : collaborators) (s limit : Z) (r : Z * Z) (l : list (Z * Z)) :
  1 <= s -> select_rows_ge e s limit = r :: l -> fst r = s.
Proof.
  intros Hs H. unfold select_rows_ge, collected_rows in H.
  rewrite (rows_from_ge s (collected_images e) 1 Hs) in H.
  unfold sql_limit in H.
  destruct (limit <? 0).
  - exact (rows_from_fst _ _ _ _ H).
  - destruct (Z.to_nat limit) as [ | n]; cbn in H; [discriminate | ].
    destruct (rows_from s (skipn (Z.to_nat (s - 1)) (collected_images e))) as [ | r' l'] eqn:Hr;
      [discriminate | ].
    inversion H. subst r'. exact (rows_from_fst _ _ _ _ Hr).
Qed.

Lemma placed_rowids (t : dt_thumbtable_t) (q : list (Z * Z)) :
  forall (l : list dt_thumbnail_t) (x y : Z),
  Forall2 (placed t) l (combine q (slots t x y (length q))) ->
  map th_rowid l = map fst q.
Proof.
  induction q as [ | r q IH]; intros l x y Hall; cbn in Hall; inversion Hall; subst.
  - reflexivity.
  - cbn. f_equal.
    + match goal with H : placed _ _ _ |- _ => destruct H as (Hr & _) end. exact Hr.
    + eapply IH. eassumption.
Qed.

(** ** Offset alignment in filemanager *)

Lemma align_row (o n : Z) :
  1 <= o -> 1 <= n ->
  let k := Z.quot (o - 1) n in
  0 <= k /\ k * n + 1 <= o < (k + 1) * n + 1.
Proof.
  intros Ho Hn k. subst k.
  pose proof (Z.quot_rem' (o - 1) n) as Hqr.
  pose proof (Z.rem_bound_pos (o - 1) n) as Hb.
  assert (0 <= Z.quot (o - 1) n) by (apply Z.quot_pos; lia).
  split; [assumption | ]. nia.
Qed.

Lemma compute_sizes_filemanager (e : collaborators) (t t1 : dt_thumbtable_t) (force : bool) :
  tb_mode t = DT_THUMBTABLE_MODE_FILEMANAGER ->
  _compute_sizes e t force = Done (t1, true) ->
  lighttable_zoom e <> 0
  /\ tb_thumbs_per_row t1 = lighttable_zoom e
  /\ tb_mode t1 = tb_mode t /\ tb_offset t1 = tb_offset t /\ tb_list t1 = tb_list t
  /\ tb_view_width t1 = allocation_width e /\ tb_view_height t1 = allocation_height e.
Proof.
  intros Hmode H. unfold _compute_sizes in H. rewrite Hmode in H.
  destruct ((allocation_width e <=? 20) || (allocation_height e <=? 20)); [discriminate | ].
  destruct (force || negb (allocation_width e =? tb_view_width t)
            || negb (allocation_height e =? tb_view_height t)
            || negb (lighttable_zoom e =? tb_thumbs_per_row t)); [ | discriminate].
  apply bind_done in H. destruct H as (q & Hq & H).
  apply c_div_inv in Hq. destruct Hq as [Hz _].
  apply bind_done in H. destruct H as (r & _ & H).
  inversion H. subst t1. cbn. rewrite Hmode. repeat split. exact Hz.
Qed.

(* a grid of 100 x 100 pixels, two thumbnails of 50 pixels per row, on a
   collection of twelve images *)
Definition grid_100 (sel : list Z) : collaborators :=
  mk_collab 100 100 2 [101; 102; 103; 104; 105; 106; 107; 108; 109; 110; 111; 112]
            sel (-1) (fun _ => false) (fun _ => -1).

Definition grid_table_empty : dt_thumbtable_t :=
  set_tb_mode DT_THUMBTABLE_MODE_FILEMANAGER (dt_thumbtable_new 1).

(** C3, counterexample: after a first redraw of the grid, the offset is set
    to row 4 without a redraw (as the zoom handler does) and fullRedraw is
    called, not forced, with the same viewport and zoom.  The size test finds
    nothing changed: the call returns the table as it is, and the stored
    offset stays on row 4, which is not the first of a row of two. *)
Lemma C3_counterexample :
  exists ta tb,
    dt_thumbtable_full_redraw 2 (grid_100 []) grid_table_empty true = Done ta
    /\ dt_thumbtable_set_offset 2 (grid_100 []) ta 4 false = Done (tb, true)
    /\ tb_mode tb = DT_THUMBTABLE_MODE_FILEMANAGER
    /\ tb_thumbs_per_row tb = 2
    /\ dt_thumbtable_full_redraw 2 (grid_100 []) tb false = Done tb
    /\ tb_offset tb = 4
    /\ (forall k, 4 <> k * 2 + 1).
Proof.
  eexists. eexists. split; [vm_compute; reflexivity | ].
  split; [vm_compute; reflexivity | ].
  repeat split. intros k. lia.
Qed.

(** C3, amended: every fullRedraw in filemanager mode that passes the size
    test (_compute_sizes returns TRUE: forced, or the viewport or zoom
    changed, viewport not degenerate) first replaces the stored offset
    (at least 1, as the offset invariant ensures) with the largest
    row-aligned row number k * columns + 1 not greater than it; the window it
    reloads shows the rows of the collection from that row on, the first
    entry at the start of the first grid row; the rest of the redraw goes on
    from that table. *)
Theorem C3_grid_offset_alignment (fuel : nat) (e : collaborators)
        (t t1 : dt_thumbtable_t) (force : bool) :
  tb_mode t = DT_THUMBTABLE_MODE_FILEMANAGER ->
  1 <= tb_offset t -> 1 <= lighttable_zoom e ->
  _compute_sizes e t force = Done (t1, true) ->
  exists k t2,
    0 <= k
    /\ k * lighttable_zoom e + 1 <= tb_offset t < (k + 1) * lighttable_zoom e + 1
    /\ redraw_reload e (set_tb_dragging false t1) = Done t2
    /\ tb_offset t2 = k * lighttable_zoom e + 1
    /\ map th_rowid (tb_list t2)
       = map fst (select_rows_ge e (tb_offset t2) (tb_rows t1 * lighttable_zoom e))
    /\ (forall th l, tb_list t2 = th :: l ->
          th_rowid th = tb_offset t2 /\ th_x th = tb_center_offset t1 /\ th_y th = 0)
    /\ dt_thumbtable_full_redraw (S fuel) e t force
       = redraw_finish (dt_thumbtable_full_redraw fuel e) fuel e force t2.
Proof.
  intros Hmode Ho Hz Hcs.
  destruct (compute_sizes_filemanager e t t1 force Hmode Hcs)
    as (Hz0 & Hpr & Hm1 & Ho1 & _).
  set (n := lighttable_zoom e) in *.
  set (k := Z.quot (tb_offset t - 1) n).
  destruct (align_row (tb_offset t) n Ho Hz) as [Hk Hrange]. fold k in Hk, Hrange.
  set (t1' := set_tb_dragging false t1).
  assert (Hstart : redraw_start t1'
                   = Done (set_tb_offset (k * n + 1) t1', k * n + 1, 0, tb_center_offset t1, 0)).
  { unfold redraw_start. cbn. rewrite Hm1, Hmode, Hpr, Ho1.
    rewrite c_div_done by exact Hz0. reflexivity. }
  assert (Hreload : exists t2, redraw_reload e t1' = Done t2).
  { rewrite redraw_reload_body. rewrite Hstart. cbn [bind].
    destruct (fold_left (redraw_row e) _ _) as [[[t' px] py] nl]. eexists. reflexivity. }
  destruct Hreload as [t2 Hreload].
  destruct (redraw_reload_placed e t1' _ t2 _ _ _ _ Hstart Hreload)
    as (Hall & Hoff & _).
  cbn in Hoff.
  change (tb_rows (set_tb_offset (k * n + 1) t1')) with (tb_rows t1) in Hall.
  change (tb_thumbs_per_row (set_tb_offset (k * n + 1) t1'))
    with (tb_thumbs_per_row t1) in Hall.
  rewrite Hpr in Hall. rewrite Z.sub_0_r in Hall.
  exists k, t2. split; [exact Hk | ]. split; [exact Hrange | ].
  split; [exact Hreload | ]. split; [exact Hoff | ].
  rewrite Hoff. split; [ | split].
  - exact (placed_rowids _ _ _ _ _ Hall).
  - intros th l Hl. rewrite Hl in Hall.
    destruct (select_rows_ge e (k * n + 1) (tb_rows t1 * n)) as [ | r q] eqn:Hq;
      cbn in Hall; inversion Hall; subst.
    match goal with H : placed _ _ _ |- _ => destruct H as (Hr & _ & Hx & Hy & _) end.
    cbn in Hr, Hx, Hy. rewrite Hr.
    split; [ | split; assumption].
    apply (select_rows_ge_first e (k * n + 1) (tb_rows t1 * n) r q); [lia | exact Hq].
  - cbn [dt_thumbtable_full_redraw]. rewrite Hcs. cbn [bind].
    assert (Hsb : _thumbtable_update_scrollbars t1 = Done tt).
    { unfold _thumbtable_update_scrollbars. rewrite Hm1, Hmode. cbn.
      destruct (tb_scrollbars t1); cbn; [ | reflexivity].
      rewrite Hpr. rewrite c_div_done by exact Hz0. reflexivity. }
    rewrite Hsb. cbn [bind]. fold t1'. rewrite Hreload. reflexivity.
Qed.

(** C3, witness: the first redraw of the grid, from offset 1. *)
Lemma C3_grid_offset_alignment_witness :
  exists k t2,
    0 <= k
    /\ redraw_reload (grid_100 []) (set_tb_dragging false
         (set_tb_sizes 2 3 50 100 100 0 (set_tb_offset 4 grid_table_empty))) = Done t2
    /\ tb_offset t2 = k * 2 + 1.
Proof.
  destruct (C3_grid_offset_alignment 1 (grid_100 []) (set_tb_offset 4 grid_table_empty)
              (set_tb_sizes 2 3 50 100 100 0 (set_tb_offset 4 grid_table_empty)) true)
    as (k & t2 & Hk & _ & Hr & Ho & _).
  - reflexivity.
  - cbn. lia.
  - cbn. lia.
  - reflexivity.
  - exists k, t2. split; [exact Hk | ]. split; [exact Hr | exact Ho].
Defined.
(** ** Rejected moves *)

(* the filmstrip of 100 x 50 pixels, once its panel is shrunk to 40 x 20 *)
Definition strip_40_20 : collaborators :=
  mk_collab 40 20 1 [7] [] (-1) (fun _ => false) (fun _ => -1).

(** C7, counterexample: a filmstrip (one thumbnail per row) on a collection
    of one image.  The first redraw, in a viewport of 100 x 50 pixels, puts
    the only entry at x = 25; the panel is then shrunk to 40 x 20 pixels, a
    degenerate viewport whose size the next redraw stores without moving the
    entry.  The window holds exactly one entry, the last image of the
    collection, and a clamped move of -10 pixels is accepted: it returns TRUE
    and shifts the entry to x = 15, because the filmstrip test is
    last->x < view_width / 2, here 25 < 20.  A clamped move of -100 pixels is
    accepted as well and pushes the entry out of the viewport: it is removed
    and the window is left empty. *)
Lemma C7_counterexample :
  exists ta tb tc td th,
    dt_thumbtable_full_redraw 1 strip_100_50 strip_table_empty true = Done ta
    /\ dt_thumbtable_full_redraw 1 strip_40_20 ta false = Done tb
    /\ tb_mode tb = DT_THUMBTABLE_MODE_FILMSTRIP
    /\ tb_thumbs_per_row tb = 1
    /\ tb_list tb = [th]
    /\ th_rowid th = select_count strip_40_20
    /\ th_x th = 25
    /\ dt_thumbtable_move 1 strip_40_20 tb (-10) 0 true = Done (tc, true)
    /\ map th_x (tb_list tc) = [15]
    /\ tc <> tb
    /\ dt_thumbtable_move 1 strip_40_20 tb (-100) 0 true = Done (td, true)
    /\ tb_list td = [].
Proof.
  eexists. eexists. eexists. eexists. eexists.
  split; [vm_compute; reflexivity | ].
  split; [vm_compute; reflexivity | ].
  split; [reflexivity | ]. split; [reflexivity | ]. split; [reflexivity | ].
  split; [reflexivity | ]. split; [reflexivity | ].
  split; [vm_compute; reflexivity | ].
  split; [reflexivity | ].
  split; [intros H; discriminate H | ].
  split; [vm_compute; reflexivity | ].
  reflexivity.
Qed.

(** C7, amended: the single-entry rejection belongs to the filemanager: in
    filemanager mode with one thumbnail per row (zoom 1) and a window of
    exactly one entry that is the last image of the collection, a clamped
    move with a negative vertical delta returns FALSE; the window, the offset
    and the layout are unchanged (only the realign counter is reset to 0).
    In filmstrip mode a clamped move with a negative horizontal delta returns
    FALSE and changes nothing when the last entry starts left of the middle
    of the viewport, whatever the number of entries. *)
Theorem C7_forward_move_rejected
        (redraw : dt_thumbtable_t -> bool -> outcome dt_thumbtable_t)
        (e : collaborators) (t : dt_thumbtable_t) (x y : Z) :
  (forall th,
      tb_mode t = DT_THUMBTABLE_MODE_FILEMANAGER ->
      tb_thumbs_per_row t = 1 -> tb_list t = [th] ->
      y < 0 -> select_count e <= th_rowid th ->
      _move redraw e t x y true = Done (set_tb_realign_top_try 0 t, false))
  /\ (forall last,
         tb_mode t = DT_THUMBTABLE_MODE_FILMSTRIP ->
         g_list_last (tb_list t) = Some last ->
         th_x last < Z.quot (tb_view_width t) 2 -> x < 0 ->
         _move redraw e t x y true = Done (t, false)).
Proof.
  split.
  - intros th Hmode Hpr Hlist Hy Hlast.
    unfold _move. rewrite Hlist. unfold move_clamp. rewrite Hmode.
    destruct (Z.eqb_spec y 0) as [Hy0 | _]; [lia | ].
    destruct (Z.gtb_spec y 0) as [Hpos | _]; [lia | ].
    rewrite andb_false_r. cbn [andb].
    cbn [tb_list set_tb_realign_top_try tb_thumbs_per_row]. rewrite Hlist, Hpr.
    cbn [g_list_last last deref bind g_list_length length].
    destruct (Z.ltb_spec y 0) as [_ | Hge]; [ | lia].
    cbn [Z.eqb Z.of_nat Pos.of_succ_nat Pos.eqb andb].
    destruct (Z.leb_spec (select_count e) (th_rowid th)) as [_ | Hgt]; [ | lia].
    reflexivity.
  - intros last Hmode Hlast Hx Hneg.
    unfold _move. destruct (tb_list t) as [ | first l] eqn:Hlist; [discriminate | ].
    unfold move_clamp. rewrite Hmode.
    destruct (Z.eqb_spec x 0) as [Hx0 | _]; [lia | ].
    destruct (Z.gtb_spec x 0) as [Hpos | _]; [lia | ].
    rewrite andb_false_r. cbn [andb].
    rewrite Hlist, Hlast. cbn [deref bind].
    destruct (Z.ltb_spec (th_x last) (Z.quot (tb_view_width t) 2)) as [_ | Hge]; [ | lia].
    destruct (Z.ltb_spec x 0) as [_ | Hge]; [ | lia].
    reflexivity.
Qed.

(* a filemanager at zoom 1 that shows the last of three images *)
Definition grid_zoom1 : collaborators :=
  mk_collab 100 100 1 [101; 102; 103] [] (-1) (fun _ => false) (fun _ => -1).

Definition grid_zoom1_last : dt_thumbtable_t :=
  mk_table DT_THUMBTABLE_MODE_FILEMANAGER
           [mk_thumb 0 103 3 100 100 0 0 false false false (-1) 0]
           3 103 1 2 100 100 100 0 (mk_rect 0 0 100 100) 1 false true 1.

(* the filmstrip of 100 x 50 pixels after its first redraw *)
Definition strip_table_one : dt_thumbtable_t :=
  mk_table DT_THUMBTABLE_MODE_FILMSTRIP
           [mk_thumb 0 7 1 50 50 25 0 false false false (-1) 0]
           1 7 1 3 50 100 50 0 (mk_rect 25 0 50 50) 0 false false 1.

(** C7, witness: the filemanager at zoom 1 on its last image, and the
    filmstrip of 100 x 50 pixels on its only image. *)
Lemma C7_forward_move_rejected_witness :
  _move (dt_thumbtable_full_redraw 1 grid_zoom1) grid_zoom1 grid_zoom1_last 0 (-100) true
  = Done (set_tb_realign_top_try 0 grid_zoom1_last, false)
  /\ _move (dt_thumbtable_full_redraw 1 strip_100_50) strip_100_50 strip_table_one (-50) 0 true
     = Done (strip_table_one, false).
Proof.
  split.
  - apply (proj1 (C7_forward_move_rejected (dt_thumbtable_full_redraw 1 grid_zoom1)
                    grid_zoom1 grid_zoom1_last 0 (-100))
                 (mk_thumb 0 103 3 100 100 0 0 false false false (-1) 0)).
    + reflexivity.
    + reflexivity.
    + reflexivity.
    + lia.
    + cbn. lia.
  - apply (proj2 (C7_forward_move_rejected (dt_thumbtable_full_redraw 1 strip_100_50)
                    strip_100_50 strip_table_one (-50) 0)
                 (mk_thumb 0 7 1 50 50 25 0 false false false (-1) 0)).
    + reflexivity.
    + reflexivity.
    + cbn. lia.
    + lia.
Defined.
(** ** Group borders in the filmstrip *)

Definition has_border (th : dt_thumbnail_t) (border : Z) : bool :=
  negb (Z.land (th_group_borders th) border =? 0).

(* the entry at position [n] of the window exists and is in the group *)
Definition in_group_at (l : list dt_thumbnail_t) (n : nat) (groupid : Z) : bool :=
  match nth_error l n with
  | Some th => th_groupid th =? groupid
  | None => false
  end.

(* the same, for the entry that precedes position [n] *)
Definition previous_in_group (l : list dt_thumbnail_t) (n : nat) (groupid : Z) : bool :=
  match n with
  | O => false
  | S n' => in_group_at l n' groupid
  end.

Lemma mouse_over_thumb_fields (imgid : Z) (th : dt_thumbnail_t) :
  th_groupid (mouse_over_thumb imgid th) = th_groupid th
  /\ th_group_borders (mouse_over_thumb imgid th) = 0.
Proof.
  unfold mouse_over_thumb.
  destruct (negb (Bool.eqb (th_mouse_over th) (th_imgid th =? imgid))); cbn.
  - destruct (Z.eqb_spec (th_group_borders th) 0) as [H0 | Hn]; cbn.
    + split; [reflexivity | exact H0].
    + split; reflexivity.
  - destruct (Z.eqb_spec (th_group_borders th) 0) as [H0 | Hn]; cbn.
    + split; [reflexivity | exact H0].
    + split; reflexivity.
Qed.

Lemma nth_data_of_nat (l : list dt_thumbnail_t) (n : nat) :
  g_list_nth_data l (Z.of_nat n) = nth_error l n.
Proof.
  unfold g_list_nth_data. destruct (Z.ltb_spec (Z.of_nat n) 0) as [H | _]; [lia | ].
  rewrite Nat2Z.id. reflexivity.
Qed.

(* the second crawl on one entry of the filmstrip *)
Lemma strip_thumb_borders (t : dt_thumbtable_t) (l : list dt_thumbnail_t) (groupid : Z)
      (i : nat) (th : dt_thumbnail_t) :
  tb_mode t = DT_THUMBTABLE_MODE_FILMSTRIP -> tb_thumbs_per_row t = 1 ->
  nth_error l i = Some th -> th_group_borders th = 0 -> th_groupid th = groupid ->
  exists th',
    group_borders_thumb t l groupid (Z.of_nat i) th = Done th'
    /\ has_border th' DT_THUMBNAIL_BORDER_TOP = true
    /\ has_border th' DT_THUMBNAIL_BORDER_BOTTOM = true
    /\ has_border th' DT_THUMBNAIL_BORDER_LEFT = negb (previous_in_group l i groupid)
    /\ has_border th' DT_THUMBNAIL_BORDER_RIGHT = negb (in_group_at l (S i) groupid).
Proof.
  intros Hmode Hpr Hnth Hb Hg.
  assert (Hi : (i < length l)%nat) by (apply nth_error_Some; congruence).
  unfold group_borders_thumb, is_filmstrip. rewrite Hmode, Hpr, Hg, Z.eqb_refl.
  cbn [mode_eqb negb bind].
  (* the entry before *)
  assert (Hleft : (if Z.of_nat i - 1 >=? 0
                   then neighbour_not_in_group l (Z.of_nat i - 1) groupid
                   else Done true)
                  = Done (negb (previous_in_group l i groupid))).
  { destruct i as [ | j].
    - reflexivity.
    - replace (Z.of_nat (S j) - 1) with (Z.of_nat j) by lia.
      destruct (Z.geb_spec (Z.of_nat j) 0) as [_ | H]; [ | lia].
      unfold neighbour_not_in_group. rewrite nth_data_of_nat.
      cbn [previous_in_group]. unfold in_group_at.
      destruct (nth_error l j) as [p | ] eqn:Hp.
      + reflexivity.
      + apply nth_error_None in Hp. lia. }
  (* the entry after *)
  assert (Hright : (if (0 <=? Z.of_nat i + 1) && (Z.of_nat i + 1 <? g_list_length l)
                    then neighbour_not_in_group l (Z.of_nat i + 1) groupid
                    else Done true)
                   = Done (negb (in_group_at l (S i) groupid))).
  { destruct (Z.leb_spec 0 (Z.of_nat i + 1)) as [_ | H]; [ | lia].
    unfold g_list_length, in_group_at. cbn [andb].
    replace (Z.of_nat i + 1) with (Z.of_nat (S i)) by lia.
    destruct (Z.ltb_spec (Z.of_nat (S i)) (Z.of_nat (length l))) as [Hlt | Hge].
    - unfold neighbour_not_in_group. rewrite nth_data_of_nat.
      destruct (nth_error l (S i)) as [p | ] eqn:Hp.
      + reflexivity.
      + apply nth_error_None in Hp. lia.
    - assert (Hnone : nth_error l (S i) = None) by (apply nth_error_None; lia).
      rewrite Hnone. reflexivity. }
  rewrite Hleft. cbn [bind]. rewrite Hright. cbn [bind].
  eexists. split; [reflexivity | ].
  unfold has_border, dt_thumbnail_set_group_border. cbn. rewrite Hb.
  destruct (previous_in_group l i groupid), (in_group_at l (S i) groupid);
    cbn; repeat split.
Qed.

Lemma other_thumb_borders (t : dt_thumbtable_t) (l : list dt_thumbnail_t) (groupid pos : Z)
      (th : dt_thumbnail_t) :
  th_groupid th <> groupid -> group_borders_thumb t l groupid pos th = Done th.
Proof.
  intros H. unfold group_borders_thumb.
  destruct (Z.eqb_spec (th_groupid th) groupid); [contradiction | reflexivity].
Qed.

(* the second crawl of the filmstrip never fails and treats each entry by
   [group_borders_thumb] at its own position *)
Lemma strip_borders_from (t : dt_thumbtable_t) (l : list dt_thumbnail_t) (groupid : Z) :
  tb_mode t = DT_THUMBTABLE_MODE_FILMSTRIP -> tb_thumbs_per_row t = 1 ->
  Forall (fun th => th_group_borders th = 0) l ->
  forall (rest : list dt_thumbnail_t) (n : nat),
    (forall j th, nth_error rest j = Some th -> nth_error l (n + j) = Some th) ->
    exists r,
      group_borders_from t l groupid (Z.of_nat n) rest = Done r
      /\ length r = length rest
      /\ forall j th, nth_error rest j = Some th ->
           exists th', nth_error r j = Some th'
                       /\ group_borders_thumb t l groupid (Z.of_nat (n + j)) th = Done th'.
Proof.
  intros Hmode Hpr Hzero. induction rest as [ | th rest IH]; intros n Hsub.
  - exists []. split; [reflexivity | ]. split; [reflexivity | ].
    intros j th H. destruct j; discriminate H.
  - assert (Hth : nth_error l n = Some th).
    { rewrite <- (Nat.add_0_r n). apply Hsub. reflexivity. }
    assert (Hdone : exists th', group_borders_thumb t l groupid (Z.of_nat n) th = Done th').
    { destruct (Z.eq_dec (th_groupid th) groupid) as [Heq | Hne].
      - destruct (strip_thumb_borders t l groupid n th Hmode Hpr Hth) as (th' & H & _).
        + rewrite Forall_forall in Hzero. apply Hzero. eapply nth_error_In. exact Hth.
        + exact Heq.
        + exists th'. exact H.
      - exists th. apply other_thumb_borders. exact Hne. }
    destruct Hdone as [th' Hth'].
    destruct (IH (S n)) as (r & Hr & Hlen & Hall).
    { intros j th0 H. replace (S n + j)%nat with (n + S j)%nat by lia. apply Hsub. exact H. }
    exists (th' :: r). cbn [group_borders_from]. rewrite Hth'. cbn [bind].
    replace (Z.of_nat n + 1) with (Z.of_nat (S n)) by lia. rewrite Hr. cbn [bind].
    split; [reflexivity | ]. split; [cbn; rewrite Hlen; reflexivity | ].
    intros j th0 H. destruct j as [ | j].
    + cbn in H. inversion H. subst th0. exists th'. rewrite Nat.add_0_r.
      split; [reflexivity | exact Hth'].
    + cbn in H. destruct (Hall j th0 H) as (th0' & H1 & H2).
      exists th0'. split; [exact H1 | ].
      replace (n + S j)%nat with (S n + j)%nat by lia. exact H2.
Qed.
Lemma in_group_at_mouse_over (imgid : Z) (l : list dt_thumbnail_t) (n : nat) (groupid : Z) :
  in_group_at (map (mouse_over_thumb imgid) l) n groupid = in_group_at l n groupid.
Proof.
  unfold in_group_at. rewrite nth_error_map.
  destruct (nth_error l n) as [th | ]; cbn; [ | reflexivity].
  destruct (mouse_over_thumb_fields imgid th) as [Hg _]. rewrite Hg. reflexivity.
Qed.

(* a filmstrip whose two entries are in group 9; the first one is hovered *)
Definition strip_hover_1 : collaborators :=
  mk_collab 100 50 1 [1; 2] [] 1 (fun _ => true) (fun _ => 9).

Definition strip_table_group : dt_thumbtable_t :=
  mk_table DT_THUMBTABLE_MODE_FILMSTRIP
           [mk_thumb 0 1 1 50 50 0 0 false false true 9 0;
            mk_thumb 1 2 2 50 50 50 0 false false true 9 0]
           1 1 1 3 50 100 50 0 (mk_rect 0 0 100 50) 0 false false 2.

(** C4, counterexample: a filmstrip shows two images of group 9 side by side
    and the first one is hovered.  The annotator gives the first entry the
    borders top, bottom and left (1 + 2 + 8 = 11) and the second one top,
    bottom and right (2 + 4 + 8 = 14): the first has no right border and the
    second no left border, which the spec sets unconditionally, and
    the second has a top border although its preceding neighbour is in the
    group. *)
Lemma C4_counterexample :
  exists a b,
    _dt_mouse_over_image_callback strip_hover_1 strip_table_group
    = Done (set_tb_list [a; b] strip_table_group)
    /\ th_group_borders a = 11 /\ th_group_borders b = 14
    /\ has_border a DT_THUMBNAIL_BORDER_RIGHT = false
    /\ has_border b DT_THUMBNAIL_BORDER_LEFT = false
    /\ has_border b DT_THUMBNAIL_BORDER_TOP = true
    /\ previous_in_group (tb_list strip_table_group) 1 9 = true.
Proof.
  eexists. eexists. split; [vm_compute; reflexivity | ]. repeat split.
Qed.

(** C4, amended: in filmstrip mode (one entry per row), on a hover change
    whose hovered entry belongs to a group, for every window entry of that
    group the annotator sets the top and bottom borders unconditionally, and
    sets the left border (resp. right border) exactly when the preceding
    (resp. following) window-order neighbour is missing or is not in the
    group. *)
Theorem C4_strip_group_borders (e : collaborators) (t : dt_thumbtable_t) :
  tb_mode t = DT_THUMBTABLE_MODE_FILMSTRIP -> tb_thumbs_per_row t = 1 ->
  let groupid := mouse_over_group (mouse_over_id e) (tb_list t) in
  0 < groupid ->
  exists t',
    _dt_mouse_over_image_callback e t = Done t'
    /\ length (tb_list t') = length (tb_list t)
    /\ forall i th,
         nth_error (tb_list t) i = Some th -> th_groupid th = groupid ->
         exists th',
           nth_error (tb_list t') i = Some th'
           /\ th_obj th' = th_obj th
           /\ has_border th' DT_THUMBNAIL_BORDER_TOP = true
           /\ has_border th' DT_THUMBNAIL_BORDER_BOTTOM = true
           /\ has_border th' DT_THUMBNAIL_BORDER_LEFT
              = negb (previous_in_group (tb_list t) i groupid)
           /\ has_border th' DT_THUMBNAIL_BORDER_RIGHT
              = negb (in_group_at (tb_list t) (S i) groupid).
Proof.
  intros Hmode Hpr groupid Hgroup.
  set (imgid := mouse_over_id e).
  set (l := map (mouse_over_thumb imgid) (tb_list t)).
  assert (Hzero : Forall (fun th => th_group_borders th = 0) l).
  { apply Forall_forall. intros th Hin. unfold l in Hin. apply in_map_iff in Hin.
    destruct Hin as (th0 & Heq & _). subst th.
    apply (proj2 (mouse_over_thumb_fields imgid th0)). }
  destruct (strip_borders_from t l groupid Hmode Hpr Hzero l 0) as (r & Hr & Hlen & Hall).
  { intros j th H. exact H. }
  exists (set_tb_list r t). split; [ | split].
  - change (_dt_mouse_over_image_callback e t)
      with (if groupid >? 0
            then l' <- group_borders_from t l groupid 0 l ;; Done (set_tb_list l' t)
            else Done (set_tb_list l t)).
    destruct (Z.gtb_spec groupid 0) as [_ | Hle]; [ | lia].
    change (Z.of_nat 0) with 0 in Hr. rewrite Hr. reflexivity.
  - cbn. rewrite Hlen. unfold l. apply length_map.
  - intros i th Hnth Hg. cbn [tb_list set_tb_list].
    assert (Hl : nth_error l i = Some (mouse_over_thumb imgid th)).
    { unfold l. rewrite nth_error_map, Hnth. reflexivity. }
    destruct (Hall i _ Hl) as (th' & Hth' & Hstep). cbn [Nat.add] in Hstep.
    destruct (mouse_over_thumb_fields imgid th) as [Hg1 Hb1].
    destruct (strip_thumb_borders t l groupid i (mouse_over_thumb imgid th) Hmode Hpr Hl Hb1)
      as (th'' & Hstep' & Htop & Hbottom & Hleft & Hright).
    { rewrite Hg1. exact Hg. }
    rewrite Hstep in Hstep'. inversion Hstep'. subst th''.
    exists th'. split; [exact Hth' | ]. split; [ | split; [exact Htop | split; [exact Hbottom | ]]].
    + clear - Hstep Hmode.
      assert (Hobj : forall th0 b, th_obj (dt_thumbnail_set_group_border th0 b) = th_obj th0).
      { intros th0 b. unfold dt_thumbnail_set_group_border.
        destruct (b =? DT_THUMBNAIL_BORDER_NONE); reflexivity. }
      assert (Hobj1 : th_obj (mouse_over_thumb imgid th) = th_obj th).
      { unfold mouse_over_thumb.
        destruct (negb (Bool.eqb (th_mouse_over th) (th_imgid th =? imgid))); cbn;
          destruct (th_group_borders th =? 0); reflexivity. }
      unfold group_borders_thumb, is_filmstrip in Hstep.
      rewrite Hmode in Hstep. cbn [mode_eqb negb] in Hstep.
      destruct (th_groupid (mouse_over_thumb imgid th) =? groupid).
      * cbn [bind] in Hstep.
        apply bind_done in Hstep. destruct Hstep as (b1 & _ & Hstep).
        apply bind_done in Hstep. destruct Hstep as (b2 & _ & Hstep).
        inversion Hstep. destruct b1, b2; repeat rewrite Hobj; exact Hobj1.
      * inversion Hstep. subst th'. exact Hobj1.
    + split.
      * rewrite Hleft. f_equal. destruct i as [ | j]; [reflexivity | ].
        cbn [previous_in_group]. apply in_group_at_mouse_over.
      * rewrite Hright. f_equal. apply in_group_at_mouse_over.
Qed.

(** C4, witness: the two entries of group 9 in the filmstrip. *)
Lemma C4_strip_group_borders_witness :
  exists t',
    _dt_mouse_over_image_callback strip_hover_1 strip_table_group = Done t'
    /\ length (tb_list t') = length (tb_list strip_table_group).
Proof.
  destruct (C4_strip_group_borders strip_hover_1 strip_table_group) as (t' & H1 & H2 & _).
  - reflexivity.
  - reflexivity.
  - cbn. lia.
  - exists t'. split; [exact H1 | exact H2].
Defined.
(** ** The offset never goes below 1 *)

















(* the table of the grid of 100 x 100 pixels after its first redraw, when
   the selection starts on the fifth image *)
Definition grid_table_sel5 : dt_thumbtable_t :=
  Eval vm_compute in
    match dt_thumbtable_full_redraw 3 (grid_100 [105]) grid_table_empty true with
    | Done t => t
    | _ => grid_table_empty
    end.


(** ** A second redraw finds the window settled *)

Lemma table_eta (t : dt_thumbtable_t) :
  mk_table (tb_mode t) (tb_list t) (tb_offset t) (tb_offset_imgid t) (tb_thumbs_per_row t)
           (tb_rows t) (tb_thumb_size t) (tb_view_width t) (tb_view_height t)
           (tb_center_offset t) (tb_thumbs_area t) (tb_realign_top_try t)
           (tb_dragging t) (tb_scrollbars t) (tb_next_obj t) = t.
Proof. destruct t. reflexivity. Qed.

Lemma thumb_eta (th : dt_thumbnail_t) :
  mk_thumb (th_obj th) (th_imgid th) (th_rowid th) (th_width th) (th_height th) (th_x th)
           (th_y th) (th_mouse_over th) (th_selected th) (th_is_grouped th) (th_groupid th)
           (th_group_borders th) = th.
Proof. destruct th. reflexivity. Qed.

(* the image recorded for the offset row by the loop of the redraw *)
Definition anchor_of (q : list (Z * Z)) (offset init : Z) : Z :=
  fold_left (fun a r => if fst r =? offset then snd r else a) q init.



(* the loop records the anchor and never lowers the allocator *)
Lemma redraw_rows_anchor (e : collaborators) (q : list (Z * Z)) :
  forall (t : dt_thumbtable_t) (posx posy : Z) (newlist : list dt_thumbnail_t),
    tb_offset_imgid (fst (fst (fst (fold_left (redraw_row e) q (t, posx, posy, newlist)))))
    = anchor_of q (tb_offset t) (tb_offset_imgid t).
Proof.
  unfold anchor_of.
  induction q as [ | [nrow nid] q IH]; intros t posx posy newlist; cbn [fold_left].
  - reflexivity.
  - destruct (redraw_row_step e t posx posy newlist (nrow, nid))
      as (t1 & th & Hstep & Hl & _ & Ha & _).
    rewrite Hstep. rewrite IH.
    destruct (layout_of_fields t t1 Hl) as (_ & Ho & _). rewrite Ho, Ha. reflexivity.
Qed.

Lemma find_by_imgid_head (th : dt_thumbnail_t) (l : list dt_thumbnail_t) (nid : Z) :
  th_imgid th = nid -> 0 <= nid -> g_list_find_by_imgid (th :: l) nid = Some th.
Proof.
  intros Hid Hpos. unfold g_list_find_by_imgid, _list_compare_by_imgid. cbn [find].
  rewrite Hid. destruct (Z.ltb_spec nid 0) as [H | _]; [lia | ].
  cbn [orb]. rewrite Z.eqb_refl. reflexivity.
Qed.

Lemma slots_layout (t t' : dt_thumbtable_t) :
  layout_of t' = layout_of t -> forall x y n, slots t' x y n = slots t x y n.
Proof.
  intros Hl x y n. revert x y. induction n as [ | n IHn]; intros x y; cbn [slots].
  - reflexivity.
  - rewrite (pos_get_next_layout t t' x y Hl). rewrite IHn. reflexivity.
Qed.

Lemma placed_layout (t t' : dt_thumbtable_t) (l : list dt_thumbnail_t)
      (sl : list ((Z * Z) * (Z * Z))) :
  layout_of t' = layout_of t -> Forall2 (placed t) l sl -> Forall2 (placed t') l sl.
Proof.
  intros Hl H. destruct (layout_of_fields t t' Hl) as (_ & _ & _ & _ & Hs & _).
  eapply Forall2_impl; [ | exact H]. intros a b Hab. unfold placed in *. rewrite Hs. exact Hab.
Qed.



Definition area_of (l : list dt_thumbnail_t) (thumb_size : Z) : GdkRectangle :=
  let x1 := fold_left (fun a th => MIN a (th_x th)) l INT_MAX in
  let y1 := fold_left (fun a th => MIN a (th_y th)) l INT_MAX in
  let x2 := fold_left (fun a th => MAX a (th_x th)) l INT_MIN in
  let y2 := fold_left (fun a th => MAX a (th_y th)) l INT_MIN in
  mk_rect x1 y1 (area_extent l x1 x2 thumb_size) (area_extent l y1 y2 thumb_size).


(* the rows that the reload asks the collection for *)
Definition desired_rows (e : collaborators) (t : dt_thumbtable_t) (offset empty_start : Z)
  : list (Z * Z) :=
  select_rows_ge e offset (tb_rows t * tb_thumbs_per_row t - empty_start).

(* the table is as a reload leaves it: its offset is aligned, its window
   shows the desired rows at their positions, its anchor image and its thumbs
   area are those of that window *)
Definition settled (e : collaborators) (t : dt_thumbtable_t) : Prop :=
  exists offset empty_start posx posy,
    redraw_start t = Done (t, offset, empty_start, posx, posy)
    /\ Forall2 (placed t) (tb_list t)
               (combine (desired_rows e t offset empty_start)
                        (slots t posx posy (length (desired_rows e t offset empty_start))))
    /\ (exists a0, tb_offset_imgid t
                   = anchor_of (desired_rows e t offset empty_start) (tb_offset t) a0)
    /\ tb_thumbs_area t = area_of (tb_list t) (tb_thumb_size t).

Lemma set_tb_offset_eta (t : dt_thumbtable_t) (o : Z) :
  tb_offset t = o -> set_tb_offset o t = t.
Proof. intros H. subst o. unfold set_tb_offset. apply table_eta. Qed.



Lemma desired_rows_layout (e : collaborators) (t t' : dt_thumbtable_t) (offset empty_start : Z) :
  layout_of t' = layout_of t ->
  desired_rows e t' offset empty_start = desired_rows e t offset empty_start.
Proof.
  intros Hl. destruct (layout_of_fields t t' Hl) as (_ & _ & Hp & Hr & _).
  unfold desired_rows. rewrite Hp, Hr. reflexivity.
Qed.

(* the start of the range only depends on the layout, and is stable *)
Lemma redraw_start_layout (t t1 t2 : dt_thumbtable_t) (offset empty_start posx posy : Z) :
  redraw_start t = Done (t1, offset, empty_start, posx, posy) ->
  layout_of t2 = layout_of t1 ->
  redraw_start t2 = Done (t2, offset, empty_start, posx, posy).
Proof.
  intros Hstart Hl.
  destruct (layout_of_fields t1 t2 Hl) as (Hm & Ho & Hp & Hr & Hs & Hw & Hh & Hc).
  unfold redraw_start in *. destruct (tb_mode t) eqn:Hmode.
  - inversion Hstart. subst. rewrite Hm, Hmode. rewrite Ho. reflexivity.
  - apply bind_done in Hstart. destruct Hstart as (q & Hq & Hstart).
    apply c_div_inv in Hq. destruct Hq as [Hn Hq].
    inversion Hstart. subst t1 offset empty_start posx posy. cbn in Hm, Ho, Hp, Hc.
    rewrite Hm, Hmode, Ho, Hp, Hc.
    replace (q * tb_thumbs_per_row t + 1 - 1) with (q * tb_thumbs_per_row t) by lia.
    rewrite c_div_done by exact Hn. rewrite Z.quot_mul by exact Hn. cbn [bind].
    rewrite (set_tb_offset_eta t2 _ Ho). reflexivity.
  - inversion Hstart. subst. rewrite Hm, Hmode, Ho, Hr, Hw, Hs. reflexivity.
Qed.

Lemma rev_app_nil {A : Type} (l : list A) : rev (rev l ++ []) = l.
Proof. rewrite app_nil_r. apply rev_involutive. Qed.

(* a reload leaves the table settled *)
Lemma redraw_reload_settles (e : collaborators) (t t2 : dt_thumbtable_t) :
  redraw_reload e t = Done t2 ->
  settled e t2
  /\ exists t1 offset empty_start posx posy,
       redraw_start t = Done (t1, offset, empty_start, posx, posy)
       /\ layout_of t2 = layout_of t1.
Proof.
  intros Hreload. rewrite redraw_reload_body in Hreload.
  destruct (redraw_start t) as [[[[[t1 offset] empty_start] posx] posy] | | ] eqn:Hstart;
    try discriminate Hreload.
  cbn [bind] in Hreload.
  fold (desired_rows e t1 offset empty_start) in Hreload.
  set (q := desired_rows e t1 offset empty_start) in *.
  pose proof (redraw_rows_anchor e q t1 posx posy []) as Hanchor.
  destruct (redraw_rows_placed e q t1 posx posy []) as (t' & px & py & added & Hfold & Hl & Hall).
  rewrite Hfold in Hreload, Hanchor. cbn [fst] in Hanchor.
  rewrite rev_app_nil in Hreload. inversion Hreload as [Ht2]. clear Hreload.
  assert (Hl2 : layout_of (_pos_compute_area (set_tb_list added t')) = layout_of t1).
  { rewrite <- Hl. reflexivity. }
  split.
  - exists offset, empty_start, posx, posy.
    rewrite (desired_rows_layout e t1 _ offset empty_start Hl2). fold q.
    split; [exact (redraw_start_layout t t1 _ _ _ _ _ Hstart Hl2) | ].
    split; [ | split].
    + rewrite (slots_layout t1 _ Hl2). apply (placed_layout t1 _ _ _ Hl2). exact Hall.
    + exists (tb_offset_imgid t1). destruct (layout_of_fields t1 _ Hl2) as (_ & Ho & _).
      rewrite Ho. cbn. exact Hanchor.
    + reflexivity.
  - exists t1, offset, empty_start, posx, posy. split; [reflexivity | exact Hl2].
Qed.

Lemma select_rows_ge_ids (P : Z -> Prop) (e : collaborators) (rowid limit : Z) :
  Forall P (collected_images e) ->
  Forall (fun r => P (snd r)) (select_rows_ge e rowid limit).
Proof.
  intros Hall. unfold select_rows_ge, collected_rows.
  assert (Hrows : forall ids b, Forall P ids -> Forall (fun r => P (snd r)) (rows_from b ids)).
  { induction ids as [ | id ids IH]; intros b H; cbn.
    - constructor.
    - inversion H. constructor; [assumption | apply IH; assumption]. }
  assert (Hfilter : Forall (fun r => P (snd r))
                      (filter (fun r : Z * Z => rowid <=? fst r)
                              (rows_from 1 (collected_images e)))).
  { apply Forall_forall. intros r Hin. apply filter_In in Hin. destruct Hin as [Hin _].
    pose proof (Hrows (collected_images e) 1 Hall) as H. rewrite Forall_forall in H.
    apply H. exact Hin. }
  unfold sql_limit. destruct (limit <? 0); [exact Hfilter | ].
  apply Forall_forall. intros r Hin. rewrite Forall_forall in Hfilter. apply Hfilter.
  rewrite <- (firstn_skipn (Z.to_nat limit)). apply in_or_app. left. exact Hin.
Qed.




(* without a selected image, or out of the filemanager, the end of the redraw
   does not scroll *)
Definition no_selection_scroll (e : collaborators) (t : dt_thumbtable_t) : Prop :=
  tb_mode t <> DT_THUMBTABLE_MODE_FILEMANAGER \/ dt_selection_get_first_id e < 1.

Lemma redraw_finish_no_scroll (redraw : dt_thumbtable_t -> bool -> outcome dt_thumbtable_t)
      (fuel : nat) (e : collaborators) (force : bool) (t : dt_thumbtable_t) :
  no_selection_scroll e t ->
  redraw_finish redraw fuel e force t
  = Done (if force
          then set_tb_list (map (dt_thumbnail_update_selection e) (tb_list t)) t
          else t).
Proof.
  intros Hno. unfold redraw_finish, dt_thumbtable_ensure_imgid_visibility, is_filemanager.
  destruct Hno as [Hmode | Hsel].
  - destruct (tb_mode t); try contradiction; cbn [mode_eqb]; rewrite andb_false_r;
      reflexivity.
  - destruct (Z.ltb_spec (dt_selection_get_first_id e) 1) as [_ | Hge]; [ | lia].
    destruct ((dt_selection_get_first_id e >? -1)
              && mode_eqb (tb_mode t) DT_THUMBTABLE_MODE_FILEMANAGER); reflexivity.
Qed.

(** ** The end of the redraw *)

(* the table with the selection flags of its window refreshed, as a forced
   redraw leaves it *)
Definition selection_updated (e : collaborators) (t : dt_thumbtable_t) : dt_thumbtable_t :=
  set_tb_list (map (dt_thumbnail_update_selection e) (tb_list t)) t.

(* the end of the redraw has nothing to scroll and writes nothing:
   dt_thumbtable_ensure_imgid_visibility returns the table as it is from its
   first step (after an accepted move it takes a second step), whatever the
   callback [redraw] of a realigning move *)
Definition redraw_end_stays (e : collaborators) (t : dt_thumbtable_t) : Prop :=
  exists b, forall redraw,
    dt_thumbtable_ensure_imgid_visibility redraw 1 e t (dt_selection_get_first_id e)
    = Done (t, b).

Lemma no_selection_scroll_stays (e : collaborators) (t : dt_thumbtable_t) :
  no_selection_scroll e t -> redraw_end_stays e t.
Proof.
  intros Hno. exists false. intros redraw.
  unfold dt_thumbtable_ensure_imgid_visibility, is_filemanager.
  destruct Hno as [Hmode | Hsel].
  - destruct (dt_selection_get_first_id e <? 1); [reflexivity | ].
    destruct (tb_mode t); try contradiction; reflexivity.
  - destruct (Z.ltb_spec (dt_selection_get_first_id e) 1) as [_ | Hge]; [reflexivity | lia].
Qed.


Lemma ensure_rowid_step (redraw : dt_thumbtable_t -> bool -> outcome dt_thumbtable_t)
      (fuel : nat) (e : collaborators) (t : dt_thumbtable_t) (rowid : Z) :
  _filemanager_ensure_rowid_visibility redraw (S fuel) e t rowid
  = (let rowid := if rowid <? 1 then 1 else rowid in
     match tb_list t with
     | [] => Done (t, false)
     | first :: _ =>
         let pos := MIN_guint_int (g_list_length (tb_list t) - 1)
                                  (tb_thumbs_per_row t * (tb_rows t - 1) - 1) in
         last <- deref (g_list_nth_data (tb_list t) pos) ;;
         if th_rowid first >? rowid
         then
           q <- c_div (th_rowid first - rowid) (tb_thumbs_per_row t) ;;
           '(t1, moved) <- _move redraw e t 0 (MAX 1 q * tb_thumb_size t) true ;;
           if moved
           then _filemanager_ensure_rowid_visibility redraw fuel e t1 rowid
           else Done (t1, false)
         else if th_rowid last <? rowid
         then
           q <- c_div (rowid - th_rowid last) (tb_thumbs_per_row t) ;;
           '(t1, moved) <- _move redraw e t 0 (- MAX 1 q * tb_thumb_size t) true ;;
           if moved
           then _filemanager_ensure_rowid_visibility redraw fuel e t1 rowid
           else Done (t1, false)
         else Done (t, true)
     end).
Proof. reflexivity. Qed.

(* what the first step returns, every larger budget returns *)
Lemma ensure_rowid_first_step (redraw : dt_thumbtable_t -> bool -> outcome dt_thumbtable_t)
      (fuel : nat) (e : collaborators) (t : dt_thumbtable_t) (rowid : Z)
      (r : dt_thumbtable_t * bool) :
  _filemanager_ensure_rowid_visibility redraw 1 e t rowid = Done r ->
  _filemanager_ensure_rowid_visibility redraw (S fuel) e t rowid = Done r.
Proof.
  rewrite !ensure_rowid_step. cbv zeta.
  destruct (tb_list t) as [ | first l]; [trivial | ].
  destruct (deref (g_list_nth_data (first :: l)
                     (MIN_guint_int (g_list_length (first :: l) - 1)
                                    (tb_thumbs_per_row t * (tb_rows t - 1) - 1))))
    as [last | | ]; cbn [bind]; [ | trivial | trivial].
  destruct (th_rowid first >? (if rowid <? 1 then 1 else rowid)).
  - destruct (c_div (th_rowid first - (if rowid <? 1 then 1 else rowid))
                    (tb_thumbs_per_row t)) as [q | | ]; cbn [bind]; [ | trivial | trivial].
    destruct (_move redraw e t 0 (MAX 1 q * tb_thumb_size t) true)
      as [[t1 moved] | | ]; cbn [bind]; [ | trivial | trivial].
    destruct moved; [intros H; discriminate H | trivial].
  - destruct (th_rowid last <? (if rowid <? 1 then 1 else rowid)); [ | trivial].
    destruct (c_div ((if rowid <? 1 then 1 else rowid) - th_rowid last)
                    (tb_thumbs_per_row t)) as [q | | ]; cbn [bind]; [ | trivial | trivial].
    destruct (_move redraw e t 0 (- MAX 1 q * tb_thumb_size t) true)
      as [[t1 moved] | | ]; cbn [bind]; [ | trivial | trivial].
    destruct moved; [intros H; discriminate H | trivial].
Qed.






(* the end of a redraw that stays: the table as it is, with its selection
   flags refreshed if the redraw is forced *)
Lemma redraw_finish_stays (redraw : dt_thumbtable_t -> bool -> outcome dt_thumbtable_t)
      (fuel : nat) (e : collaborators) (force : bool) (t : dt_thumbtable_t) :
  redraw_end_stays e t ->
  redraw_finish redraw (S fuel) e force t
  = Done (if force then selection_updated e t else t).
Proof.
  intros [b H]. specialize (H redraw). unfold redraw_finish.
  assert (Hens : dt_thumbtable_ensure_imgid_visibility redraw (S fuel) e t
                   (dt_selection_get_first_id e) = Done (t, b)).
  { unfold dt_thumbtable_ensure_imgid_visibility in *.
    destruct (dt_selection_get_first_id e <? 1); [exact H | ].
    destruct (is_filemanager t); [ | exact H].
    exact (ensure_rowid_first_step redraw fuel e t _ _ H). }
  destruct ((dt_selection_get_first_id e >? -1) && is_filemanager t).
  - rewrite Hens. reflexivity.
  - reflexivity.
Qed.


(* a selected image that dt_thumbtable_check_imgid_visibility finds in the
   rows fully shown leaves the end of the redraw nothing to scroll *)
Lemma visible_selection_stays (e : collaborators) (t : dt_thumbtable_t) :
  dt_thumbtable_check_imgid_visibility e t (dt_selection_get_first_id e) = Done true ->
  redraw_end_stays e t.
Proof.
  intros H. exists true. intros redraw.
  unfold dt_thumbtable_check_imgid_visibility, dt_thumbtable_ensure_imgid_visibility in *.
  destruct (dt_selection_get_first_id e <? 1); [discriminate H | ].
  destruct (is_filemanager t); [ | discriminate H].
  rewrite ensure_rowid_step. cbv zeta.
  unfold _filemanager_check_rowid_visibility in H.
  destruct (_thumb_get_rowid e (dt_selection_get_first_id e) <? 1); [discriminate H | ].
  destruct (tb_list t) as [ | first l]; [discriminate H | ].
  apply bind_done in H. destruct H as (last & Hlast & H). rewrite Hlast. cbn [bind].
  inversion H as [Hboth]. apply andb_prop in Hboth.
  destruct Hboth as [Hfirst Hlast_row].
  apply Z.leb_le in Hfirst. rewrite Z.geb_leb in Hlast_row. apply Z.leb_le in Hlast_row.
  destruct (Z.gtb_spec (th_rowid first) (_thumb_get_rowid e (dt_selection_get_first_id e)));
    [lia | ].
  destruct (Z.ltb_spec (th_rowid last) (_thumb_get_rowid e (dt_selection_get_first_id e)));
    [lia | reflexivity].
Qed.



Lemma compute_sizes_mode (e : collaborators) (t t' : dt_thumbtable_t) (force b : bool) :
  _compute_sizes e t force = Done (t', b) -> tb_mode t' = tb_mode t.
Proof.
  unfold _compute_sizes. intros H.
  destruct ((allocation_width e <=? 20) || (allocation_height e <=? 20)).
  - inversion H. reflexivity.
  - destruct (tb_mode t) eqn:Hmode.
    + inversion H. subst. exact Hmode.
    + match type of H with (if ?c then _ else _) = _ => destruct c end.
      * apply bind_done in H. destruct H as (q & _ & H).
        apply bind_done in H. destruct H as (r & _ & H). inversion H. exact Hmode.
      * inversion H. subst. exact Hmode.
    + match type of H with (if ?c then _ else _) = _ => destruct c end.
      * apply bind_done in H. destruct H as (r & _ & H). inversion H. exact Hmode.
      * inversion H. subst. exact Hmode.
Qed.

(* the start of the range writes the offset only *)
Lemma redraw_start_frame (t t1 : dt_thumbtable_t) (offset empty_start posx posy : Z) :
  redraw_start t = Done (t1, offset, empty_start, posx, posy) ->
  layout_of (set_tb_offset 0 t1) = layout_of (set_tb_offset 0 t).
Proof.
  unfold redraw_start. intros H. destruct (tb_mode t).
  - inversion H. reflexivity.
  - apply bind_done in H. destruct H as (q & _ & H). inversion H. reflexivity.
  - inversion H. reflexivity.
Qed.

Lemma layout_of_offset0 (t t' : dt_thumbtable_t) :
  layout_of t' = layout_of t ->
  layout_of (set_tb_offset 0 t') = layout_of (set_tb_offset 0 t).
Proof.
  intros H. change (set_tb_offset 0 (layout_of t') = set_tb_offset 0 (layout_of t)).
  rewrite H. reflexivity.
Qed.

(* the grid of 100 x 100 pixels after a first redraw with the fifth image
   selected: the redraw has scrolled by one row and shows rows 3 to 6 *)
Lemma grid_table_sel5_window :
  map th_rowid (tb_list grid_table_sel5) = [3; 4; 5; 6]
  /\ map th_y (tb_list grid_table_sel5) = [0; 0; 50; 50]
  /\ tb_offset grid_table_sel5 = 3.
Proof. repeat split. Qed.


(* the redraw of [t] ends without a scroll: the window that it reloads, when
   the size test lets it reload, is left as it is by the visibility step *)
Definition redraw_stays (e : collaborators) (t : dt_thumbtable_t) (force : bool) : Prop :=
  forall ta tr,
    _compute_sizes e t force = Done (ta, true) ->
    redraw_reload e (set_tb_dragging false ta) = Done tr ->
    redraw_end_stays e tr.

Lemma no_selection_redraw_stays (e : collaborators) (t : dt_thumbtable_t) (force : bool) :
  no_selection_scroll e t -> redraw_stays e t force.
Proof.
  intros Hno ta tr Hcs Hreload. apply no_selection_scroll_stays.
  destruct (redraw_reload_settles e _ tr Hreload)
    as (_ & ts & offset & empty_start & posx & posy & Hstart & Hl).
  pose proof (f_equal tb_mode (layout_of_offset0 ts tr Hl)) as H1.
  pose proof (f_equal tb_mode (redraw_start_frame _ _ _ _ _ _ Hstart)) as H2.
  cbn in H1, H2. unfold no_selection_scroll in *.
  rewrite H1, H2, (compute_sizes_mode e t ta force true Hcs). exact Hno.
Qed.

(* the grid of 100 x 100 pixels after its first redraw, when the selection
   starts on the third image: rows 1 to 6, the selected image in the second
   of the two rows that are fully shown *)
Definition grid_table_sel3 : dt_thumbtable_t :=
  Eval vm_compute in
    match dt_thumbtable_full_redraw 2 (grid_100 [103]) grid_table_empty true with
    | Done t => t
    | _ => grid_table_empty
    end.


(** ** Reuse of the entries *)

(* the entry [th'] of the new window is the object that the old window [old]
   had for its image, or an object allocated at or after [n0] if it had none *)
Definition reused_or_fresh (old : list dt_thumbnail_t) (n0 : nat) (th' : dt_thumbnail_t)
  : Prop :=
  match g_list_find_by_imgid old (th_imgid th') with
  | Some th => th_obj th' = th_obj th
  | None => (n0 <= th_obj th')%nat
  end.

Lemma g_list_remove_incl (l : list dt_thumbnail_t) (o : nat) (th : dt_thumbnail_t) :
  In th (g_list_remove l o) -> In th l.
Proof.
  induction l as [ | h l IH]; cbn [g_list_remove]; intros H.
  - exact H.
  - destruct (Nat.eqb (th_obj h) o).
    + right. exact H.
    + destruct H as [H | H]; [left; exact H | right; exact (IH H)].
Qed.

Lemma g_list_remove_NoDup (l : list dt_thumbnail_t) (o : nat) :
  NoDup (map th_obj l) -> NoDup (map th_obj (g_list_remove l o)).
Proof.
  induction l as [ | h l IH]; cbn [g_list_remove map]; intros H.
  - exact H.
  - inversion H as [ | x xs Hnotin Hnodup]. subst.
    destruct (Nat.eqb (th_obj h) o); [exact Hnodup | ].
    cbn [map]. constructor; [ | exact (IH Hnodup)].
    intros Hin. apply Hnotin. apply in_map_iff in Hin. destruct Hin as (th & Heq & Hin).
    apply in_map_iff. exists th. split; [exact Heq | exact (g_list_remove_incl l o th Hin)].
Qed.

Lemma find_by_imgid_skip (h : dt_thumbnail_t) (l : list dt_thumbnail_t) (nid : Z) :
  th_imgid h <> nid -> g_list_find_by_imgid (h :: l) nid = g_list_find_by_imgid l nid.
Proof.
  intros Hne. unfold g_list_find_by_imgid, _list_compare_by_imgid. cbn [find].
  destruct ((th_imgid h <? 0) || (nid <? 0)); [reflexivity | ].
  destruct (Z.eqb_spec (th_imgid h) nid); [contradiction | reflexivity].
Qed.

Lemma find_by_imgid_remove_other (l : list dt_thumbnail_t) (th : dt_thumbnail_t) (nid : Z) :
  NoDup (map th_obj l) -> In th l -> th_imgid th <> nid ->
  g_list_find_by_imgid (g_list_remove l (th_obj th)) nid = g_list_find_by_imgid l nid.
Proof.
  induction l as [ | h l IH]; intros Hnodup Hin Hne.
  - reflexivity.
  - cbn [map] in Hnodup. inversion Hnodup as [ | x xs Hnotin Hnodup']. subst.
    cbn [g_list_remove]. destruct (Nat.eqb_spec (th_obj h) (th_obj th)) as [Heq | Hneq].
    + assert (Hth : th = h).
      { destruct Hin as [Hin | Hin]; [symmetry; exact Hin | ].
        exfalso. apply Hnotin. rewrite Heq. apply in_map. exact Hin. }
      subst th. symmetry. apply find_by_imgid_skip. exact Hne.
    + assert (Hin' : In th l).
      { destruct Hin as [Hin | Hin]; [subst h; contradiction | exact Hin]. }
      unfold g_list_find_by_imgid in *. cbn [find].
      destruct (_list_compare_by_imgid h nid =? 0); [reflexivity | ].
      exact (IH Hnodup' Hin' Hne).
Qed.

(* the loop reuses the object of every image that the old window has, and
   allocates a new object for the others *)
Lemma redraw_rows_reuse (e : collaborators) (old : list dt_thumbnail_t) (n0 : nat)
      (q : list (Z * Z)) :
  NoDup (map snd q) ->
  forall (t : dt_thumbtable_t) (posx posy : Z) (newlist : list dt_thumbnail_t),
    NoDup (map th_obj (tb_list t)) -> (n0 <= tb_next_obj t)%nat ->
    (forall nid, In nid (map snd q) ->
                 g_list_find_by_imgid (tb_list t) nid = g_list_find_by_imgid old nid) ->
    Forall (reused_or_fresh old n0) newlist ->
    Forall (reused_or_fresh old n0) (snd (fold_left (redraw_row e) q (t, posx, posy, newlist))).
Proof.
  induction q as [ | [nrow nid] q IH]; intros Hq t posx posy newlist Hobjs Hn0 Hfind Hnew.
  - exact Hnew.
  - cbn [map snd] in Hq. inversion Hq as [ | x xs Hnotin Hq']. subst.
    destruct (redraw_row_step e t posx posy newlist (nrow, nid))
      as (t1 & th & Hstep & _ & Hpl & _ & Hcase).
    cbn [fold_left]. rewrite Hstep. cbn [snd] in Hcase.
    destruct Hpl as (_ & Hid & _). cbn [fst snd] in Hid.
    assert (Hhere : g_list_find_by_imgid (tb_list t) nid = g_list_find_by_imgid old nid).
    { apply Hfind. left. reflexivity. }
    apply IH.
    + exact Hq'.
    + destruct Hcase as [(thumb & _ & _ & Hlist & _) | (_ & _ & Hlist & _)]; rewrite Hlist.
      * apply g_list_remove_NoDup. exact Hobjs.
      * exact Hobjs.
    + destruct Hcase as [(thumb & _ & _ & _ & Hnext) | (_ & _ & _ & Hnext)]; rewrite Hnext; lia.
    + intros nid' Hin'. rewrite <- (Hfind nid') by (right; exact Hin').
      destruct Hcase as [(thumb & Hfound & _ & Hlist & _) | (_ & _ & Hlist & _)]; rewrite Hlist.
      * apply find_by_imgid_some in Hfound. destruct Hfound as (Hin & Hthumb & _).
        apply find_by_imgid_remove_other; [exact Hobjs | exact Hin | ].
        rewrite Hthumb. intros Heq. apply Hnotin. rewrite Heq. exact Hin'.
      * reflexivity.
    + constructor; [ | exact Hnew]. unfold reused_or_fresh. rewrite Hid, <- Hhere.
      destruct Hcase as [(thumb & Hfound & Hobj & _) | (Hnone & Hobj & _)].
      * rewrite Hfound. exact Hobj.
      * rewrite Hnone. rewrite Hobj. exact Hn0.
Qed.

Lemma rows_from_snd (ids : list Z) : forall b, map snd (rows_from b ids) = ids.
Proof.
  induction ids as [ | id ids IH]; intros b; cbn; [reflexivity | ].
  rewrite IH. reflexivity.
Qed.

(* a WHERE clause and a LIMIT keep the image ids of the rows distinct *)
Lemma kept_rows_NoDup (keep : Z * Z -> bool) (q : list (Z * Z)) :
  NoDup (map snd q) -> NoDup (map snd (filter keep q)).
Proof.
  induction q as [ | r q IH]; cbn [map filter]; intros H.
  - exact H.
  - apply NoDup_cons_iff in H. destruct H as [Hnotin Hnodup].
    destruct (keep r); [ | exact (IH Hnodup)].
    cbn [map]. apply NoDup_cons; [ | exact (IH Hnodup)].
    intros Hin. apply Hnotin. apply in_map_iff in Hin. destruct Hin as (r' & Heq & Hin).
    apply filter_In in Hin. apply in_map_iff. exists r'. split; [exact Heq | apply Hin].
Qed.

Lemma limited_rows_NoDup (n : nat) (q : list (Z * Z)) :
  NoDup (map snd q) -> NoDup (map snd (firstn n q)).
Proof.
  intros H. rewrite <- (firstn_skipn n q) in H. rewrite map_app in H.
  exact (NoDup_app_remove_r _ _ H).
Qed.

Lemma select_rows_ge_NoDup (e : collaborators) (rowid limit : Z) :
  NoDup (collected_images e) -> NoDup (map snd (select_rows_ge e rowid limit)).
Proof.
  intros H. unfold select_rows_ge, collected_rows, sql_limit.
  assert (Hf : NoDup (map snd (filter (fun r : Z * Z => rowid <=? fst r)
                                      (rows_from 1 (collected_images e))))).
  { apply kept_rows_NoDup. rewrite rows_from_snd. exact H. }
  destruct (limit <? 0); [exact Hf | ]. apply limited_rows_NoDup. exact Hf.
Qed.

Lemma compute_sizes_frame (e : collaborators) (t t' : dt_thumbtable_t) (force b : bool) :
  _compute_sizes e t force = Done (t', b) ->
  tb_list t' = tb_list t /\ tb_next_obj t' = tb_next_obj t.
Proof.
  unfold _compute_sizes. intros H.
  destruct ((allocation_width e <=? 20) || (allocation_height e <=? 20)).
  - inversion H. split; reflexivity.
  - destruct (tb_mode t).
    + inversion H. split; reflexivity.
    + match type of H with (if ?c then _ else _) = _ => destruct c end.
      * apply bind_done in H. destruct H as (q & _ & H).
        apply bind_done in H. destruct H as (r & _ & H). inversion H. split; reflexivity.
      * inversion H. split; reflexivity.
    + match type of H with (if ?c then _ else _) = _ => destruct c end.
      * apply bind_done in H. destruct H as (r & _ & H). inversion H. split; reflexivity.
      * inversion H. split; reflexivity.
Qed.

Lemma redraw_start_frame_list (t t1 : dt_thumbtable_t) (offset empty_start posx posy : Z) :
  redraw_start t = Done (t1, offset, empty_start, posx, posy) ->
  tb_list t1 = tb_list t /\ tb_next_obj t1 = tb_next_obj t.
Proof.
  unfold redraw_start. intros H. destruct (tb_mode t).
  - inversion H. split; reflexivity.
  - apply bind_done in H. destruct H as (q & _ & H). inversion H. split; reflexivity.
  - inversion H. split; reflexivity.
Qed.

(* once the size test is passed, the scrollbars and the start of the range
   cannot fail *)
Lemma redraw_open_done (e : collaborators) (t ta : dt_thumbtable_t) (force : bool) :
  _compute_sizes e t force = Done (ta, true) ->
  _thumbtable_update_scrollbars ta = Done tt
  /\ exists ts offset empty_start posx posy,
       redraw_start (set_tb_dragging false ta) = Done (ts, offset, empty_start, posx, posy).
Proof.
  intros H. pose proof (compute_sizes_mode e t ta force true H) as Hm.
  unfold _thumbtable_update_scrollbars, redraw_start.
  cbn [tb_mode set_tb_dragging]. rewrite Hm.
  destruct (tb_mode t) eqn:Hmode.
  - split; [reflexivity | ]. eexists. eexists. eexists. eexists. eexists. reflexivity.
  - destruct (compute_sizes_filemanager e t ta force Hmode H) as (Hz & Hp & _).
    cbn [mode_eqb negb]. cbn [tb_offset tb_thumbs_per_row set_tb_dragging]. rewrite Hp.
    rewrite !c_div_done by exact Hz. cbn [bind]. split.
    + destruct (negb (tb_scrollbars ta)); reflexivity.
    + eexists. eexists. eexists. eexists. eexists. reflexivity.
  - split; [reflexivity | ]. eexists. eexists. eexists. eexists. eexists. reflexivity.
Qed.

Lemma find_by_imgid_unique (l : list dt_thumbnail_t) (th : dt_thumbnail_t) :
  NoDup (map th_imgid l) -> In th l -> 0 <= th_imgid th ->
  g_list_find_by_imgid l (th_imgid th) = Some th.
Proof.
  induction l as [ | h l IH]; intros Hnodup Hin Hpos.
  - destruct Hin.
  - cbn [map] in Hnodup. inversion Hnodup as [ | x xs Hnotin Hnodup']. subst.
    destruct Hin as [Heq | Hin].
    + subst h. apply find_by_imgid_head; [reflexivity | exact Hpos].
    + rewrite find_by_imgid_skip.
      * exact (IH Hnodup' Hin Hpos).
      * intros Heq. apply Hnotin. rewrite Heq. apply in_map. exact Hin.
Qed.

Lemma find_by_imgid_none (l : list dt_thumbnail_t) (nid : Z) :
  (forall th, In th l -> th_imgid th <> nid) -> g_list_find_by_imgid l nid = None.
Proof.
  intros H. destruct (g_list_find_by_imgid l nid) as [th | ] eqn:Hfind; [ | reflexivity].
  apply find_by_imgid_some in Hfind. destruct Hfind as (Hin & Hid & _).
  exfalso. exact (H th Hin Hid).
Qed.
Lemma placed_update_selection (e : collaborators) (t : dt_thumbtable_t)
      (l : list dt_thumbnail_t) :
  forall sl, Forall2 (placed t) l sl ->
             Forall2 (placed t) (map (dt_thumbnail_update_selection e) l) sl.
Proof.
  induction l as [ | th l IH]; intros sl Hall; inversion Hall; subst; cbn [map].
  - constructor.
  - constructor; [ | apply IH; assumption].
    match goal with H : placed _ _ _ |- _ => exact H end.
Qed.

Lemma placed_imgid_in (t : dt_thumbtable_t) (q : list (Z * Z)) :
  forall (l : list dt_thumbnail_t) (sl : list (Z * Z)),
    Forall2 (placed t) l (combine q sl) ->
    forall th, In th l -> In (th_imgid th) (map snd q).
Proof.
  induction q as [ | r q IH]; intros l sl Hall th Hin.
  - cbn in Hall. inversion Hall. subst. destruct Hin.
  - destruct sl as [ | p sl]; cbn [combine] in Hall.
    + inversion Hall. subst. destruct Hin.
    + inversion Hall as [ | th0 slot l0 rest Hth Hrest]. subst.
      destruct Hin as [Heq | Hin].
      * subst th0. left. destruct Hth as (_ & Hid & _). cbn in Hid. symmetry. exact Hid.
      * right. exact (IH l0 sl Hrest th Hin).
Qed.

Lemma NoDup_map_eq {A B : Type} (f : A -> B) (l : list A) (a b : A) :
  NoDup (map f l) -> In a l -> In b l -> f a = f b -> a = b.
Proof.
  induction l as [ | h l IH]; intros Hnodup Ha Hb Heq.
  - destruct Ha.
  - cbn [map] in Hnodup. inversion Hnodup as [ | x xs Hnotin Hnodup']. subst.
    destruct Ha as [Ha | Ha], Hb as [Hb | Hb].
    + congruence.
    + subst h. exfalso. apply Hnotin. rewrite Heq. apply in_map. exact Hb.
    + subst h. exfalso. apply Hnotin. rewrite <- Heq. apply in_map. exact Ha.
    + exact (IH Hnodup' Ha Hb Heq).
Qed.

(* the window of the grid of 100 x 100 pixels after a first redraw without
   selection: rows 1 to 6, objects 0 to 5 *)
Definition grid_table_rows_1_6 : dt_thumbtable_t :=
  Eval vm_compute in
    match dt_thumbtable_full_redraw 3 (grid_100 []) grid_table_empty true with
    | Done t => t
    | _ => grid_table_empty
    end.

(* the same grid after a first redraw from offset 7: rows 7 to 12 *)
Definition grid_table_rows_7_12 : dt_thumbtable_t :=
  Eval vm_compute in
    match dt_thumbtable_full_redraw 3 (grid_100 []) (set_tb_offset 7 grid_table_empty) true with
    | Done t => t
    | _ => grid_table_empty
    end.

(** C1, counterexample: the grid of 100 x 100 pixels, two thumbnails per row,
    on twelve images.  (a) The window holds rows 1 to 6 and the fifth image
    gets selected; a forced redraw asks for the range of rows 1 to 6 again,
    reuses the six entries, then scrolls by one row to show the selected
    image: the entries of images 101 and 102, which were in the window and in
    the desired range, are gone.  (b) The window holds rows 7 to 12, the ninth
    image is selected and the offset is set to 1 with a redraw: the redraw
    destroys the six entries, loads rows 1 to 6 and scrolls back to rows 7 to
    10; images 107 to 110 were in the window before and are shown after, at
    offset 7, but by new objects (12 to 15 instead of 0 to 3). *)
Lemma C1_counterexample :
  (exists t',
      dt_thumbtable_full_redraw 3 (grid_100 []) grid_table_empty true
      = Done grid_table_rows_1_6
      /\ map th_imgid (tb_list grid_table_rows_1_6) = [101; 102; 103; 104; 105; 106]
      /\ map snd (select_rows_ge (grid_100 [105]) 1 (3 * 2))
         = [101; 102; 103; 104; 105; 106]
      /\ dt_thumbtable_full_redraw 3 (grid_100 [105]) grid_table_rows_1_6 true = Done t'
      /\ map th_imgid (tb_list t') = [103; 104; 105; 106])
  /\ (exists t',
         map (fun th => (th_imgid th, th_obj th)) (tb_list grid_table_rows_7_12)
         = [(107, 0%nat); (108, 1%nat); (109, 2%nat); (110, 3%nat); (111, 4%nat);
            (112, 5%nat)]
         /\ dt_thumbtable_set_offset 5 (grid_100 [109]) grid_table_rows_7_12 1 true
            = Done (t', true)
         /\ tb_offset t' = 7
         /\ map (fun th => (th_imgid th, th_obj th)) (tb_list t')
            = [(107, 12%nat); (108, 13%nat); (109, 14%nat); (110, 15%nat)]).
Proof.
  split.
  - eexists. split; [vm_compute; reflexivity | ].
    split; [reflexivity | ]. split; [reflexivity | ].
    split; [vm_compute; reflexivity | ]. reflexivity.
  - eexists. split; [reflexivity | ].
    split; [vm_compute; reflexivity | ]. split; reflexivity.
Qed.

(* what g_list_remove leaves of a list of distinct objects *)
Lemma g_list_remove_others (l : list dt_thumbnail_t) (o : nat) (th : dt_thumbnail_t) :
  NoDup (map th_obj l) ->
  (In th (g_list_remove l o) <-> In th l /\ th_obj th <> o).
Proof.
  induction l as [ | h l IH]; intros Hobjs; cbn [g_list_remove].
  - split; [intros [] | intros [[] _]].
  - cbn [map] in Hobjs. inversion Hobjs as [ | x xs Hnotin Hobjs']. subst.
    destruct (Nat.eqb_spec (th_obj h) o) as [Heq | Hne].
    + split.
      * intros Hin. split; [right; exact Hin | ].
        intros Hth. apply Hnotin. rewrite Heq, <- Hth. apply in_map. exact Hin.
      * intros [[Hh | Hin] Hth]; [subst h; contradiction | exact Hin].
    + cbn [In]. rewrite (IH Hobjs'). split.
      * intros [Hh | [Hin Hth]]; [subst h; split; [left; reflexivity | exact Hne] | ].
        split; [right; exact Hin | exact Hth].
      * intros [[Hh | Hin] Hth]; [left; exact Hh | right; split; assumption].
Qed.

Lemma g_list_remove_images (l : list dt_thumbnail_t) (o : nat) :
  NoDup (map th_imgid l) -> NoDup (map th_imgid (g_list_remove l o)).
Proof.
  induction l as [ | h l IH]; cbn [g_list_remove map]; intros H.
  - exact H.
  - inversion H as [ | x xs Hnotin Hnodup]. subst.
    destruct (Nat.eqb (th_obj h) o); [exact Hnodup | ].
    cbn [map]. constructor; [ | exact (IH Hnodup)].
    intros Hin. apply Hnotin. apply in_map_iff in Hin. destruct Hin as (th & Heq & Hin).
    apply in_map_iff. exists th. split; [exact Heq | exact (g_list_remove_incl l o th Hin)].
Qed.

(* what the loop of the reload leaves in the old list, for g_list_free_full
   to destroy: the thumbnails of the images that no row has asked for *)
Lemma redraw_rows_unclaimed (e : collaborators) (q : list (Z * Z)) :
  Forall (fun r => 0 <= snd r) q ->
  forall (t : dt_thumbtable_t) (posx posy : Z) (newlist : list dt_thumbnail_t),
    NoDup (map th_obj (tb_list t)) -> NoDup (map th_imgid (tb_list t)) ->
    forall th,
      In th (tb_list (fst (fst (fst (fold_left (redraw_row e) q (t, posx, posy, newlist))))))
      <-> In th (tb_list t) /\ ~ In (th_imgid th) (map snd q).
Proof.
  induction q as [ | [nrow nid] q IH]; intros Hpos t posx posy newlist Hobjs Himgs th.
  - cbn. split; [intros H; split; [exact H | intros []] | intros [H _]; exact H].
  - inversion Hpos as [ | r q' Hnid Hpos']. subst r q'. cbn [snd] in Hnid.
    destruct (redraw_row_step e t posx posy newlist (nrow, nid))
      as (t1 & th1 & Hstep & _ & _ & _ & Hcase).
    cbn [fold_left]. rewrite Hstep. cbn [snd] in Hcase. cbn [map snd In].
    destruct Hcase as [(thumb & Hfound & _ & Hlist & _) | (Hnone & _ & Hlist & _)].
    + apply find_by_imgid_some in Hfound. destruct Hfound as (Hthumb & Hid & _).
      rewrite IH; [ | exact Hpos' | rewrite Hlist; apply g_list_remove_NoDup; exact Hobjs
                    | rewrite Hlist; apply g_list_remove_images; exact Himgs].
      rewrite Hlist, (g_list_remove_others _ _ _ Hobjs). split.
      * intros [[Hin Hother] Hq]. split; [exact Hin | ].
        intros [Heq | Hin']; [ | exact (Hq Hin')].
        apply Hother. f_equal.
        apply (NoDup_map_eq th_imgid (tb_list t)); [exact Himgs | exact Hin | exact Hthumb | ].
        rewrite Hid. symmetry. exact Heq.
      * intros [Hin Hq]. split; [split; [exact Hin | ] | ].
        -- intros Hobj. apply Hq. left. rewrite <- Hid.
           f_equal. symmetry.
           apply (NoDup_map_eq th_obj (tb_list t)); [exact Hobjs | exact Hin | exact Hthumb | ].
           exact Hobj.
        -- intros Hin'. apply Hq. right. exact Hin'.
    + rewrite IH; [ | exact Hpos' | rewrite Hlist; exact Hobjs | rewrite Hlist; exact Himgs].
      rewrite Hlist. split.
      * intros [Hin Hq]. split; [exact Hin | ].
        intros [Heq | Hin']; [ | exact (Hq Hin')].
        assert (Hth : 0 <= th_imgid th) by (rewrite <- Heq; exact Hnid).
        rewrite Heq, (find_by_imgid_unique (tb_list t) th Himgs Hin Hth) in Hnone.
        discriminate Hnone.
      * intros [Hin Hq]. split; [exact Hin | ]. intros Hin'. apply Hq. right. exact Hin'.
Qed.

(** C1, amended: when fullRedraw passes its size test (_compute_sizes returns
    TRUE) and ends without a scroll (the visibility step at its end returns
    from its first step and leaves the reloaded table as it is: the table is
    not in filemanager mode, or no image is selected, or the window is
    empty, or the selected image is in the rows that are fully shown, or the
    move towards it is refused and writes nothing), on a collection of
    distinct, non-negative image ids and a window with at most one entry per
    image: the new window has one entry per row of the desired range, in
    order, with that row number, its position and the thumbnail size; an
    entry whose image was in the window before is the very same object; an
    entry whose image was not is a newly allocated object; and the
    thumbnails handed to g_list_free_full for destruction are exactly the
    entries of the old window whose image the range does not claim, none of
    which is an object of the new window. *)
Theorem C1_reuse_on_reconciliation (fuel : nat) (e : collaborators)
        (t ta : dt_thumbtable_t) (force : bool) :
  redraw_stays e t force ->
  _compute_sizes e t force = Done (ta, true) ->
  NoDup (collected_images e) -> Forall (fun id => 0 <= id) (collected_images e) ->
  NoDup (map th_imgid (tb_list t)) -> NoDup (map th_obj (tb_list t)) ->
  Forall (fun th => (th_obj th < tb_next_obj t)%nat) (tb_list t) ->
  exists t' ts offset empty_start posx posy destroyed,
    dt_thumbtable_full_redraw (S (S fuel)) e t force = Done t'
    /\ redraw_start (set_tb_dragging false ta) = Done (ts, offset, empty_start, posx, posy)
    /\ (exists tr, redraw_reload_destroy e (set_tb_dragging false ta) = Done (tr, destroyed))
    /\ Forall2 (placed ts) (tb_list t')
               (combine (desired_rows e ts offset empty_start)
                        (slots ts posx posy (length (desired_rows e ts offset empty_start))))
    /\ (forall th th', In th (tb_list t) -> In th' (tb_list t') ->
                       th_imgid th' = th_imgid th -> th_obj th' = th_obj th)
    /\ (forall th', In th' (tb_list t') ->
                    (forall th, In th (tb_list t) -> th_imgid th <> th_imgid th') ->
                    (tb_next_obj t <= th_obj th')%nat)
    /\ (forall th, In th destroyed
                   <-> In th (tb_list t)
                       /\ ~ In (th_imgid th) (map snd (desired_rows e ts offset empty_start)))
    /\ (forall th, In th destroyed -> ~ In (th_obj th) (map th_obj (tb_list t'))).
Proof.
  intros Hstays Hcs Hdistinct Hids Himgs Hobjs Hbound.
  destruct (redraw_open_done e t ta force Hcs)
    as (Hsb & ts & offset & empty_start & posx & posy & Hstart).
  destruct (redraw_start_frame_list _ _ _ _ _ _ Hstart) as (Hlist_s & Hnext_s).
  destruct (compute_sizes_frame e t ta force true Hcs) as (Hlist_a & Hnext_a).
  cbn [tb_list tb_next_obj set_tb_dragging] in Hlist_s, Hnext_s.
  rewrite Hlist_a in Hlist_s. rewrite Hnext_a in Hnext_s.
  set (q := desired_rows e ts offset empty_start).
  assert (Hq : NoDup (map snd q)) by (apply select_rows_ge_NoDup; exact Hdistinct).
  assert (Hqpos : Forall (fun r => 0 <= snd r) q)
    by (apply (select_rows_ge_ids (fun id => 0 <= id)); exact Hids).
  destruct (redraw_rows_placed e q ts posx posy [])
    as (t1 & px & py & added & Hfold & Hl & Hall).
  assert (Hreuse : Forall (reused_or_fresh (tb_list t) (tb_next_obj t)) added).
  { pose proof (redraw_rows_reuse e (tb_list t) (tb_next_obj t) q Hq ts posx posy []) as H.
    rewrite Hfold in H. cbn [snd] in H. rewrite app_nil_r in H.
    rewrite <- (rev_involutive added). apply Forall_rev. apply H.
    - rewrite Hlist_s. exact Hobjs.
    - rewrite Hnext_s. lia.
    - intros nid _. rewrite Hlist_s. reflexivity.
    - constructor. }
  assert (Hunclaimed : forall th, In th (tb_list t1)
                                  <-> In th (tb_list t) /\ ~ In (th_imgid th) (map snd q)).
  { intros th.
    pose proof (redraw_rows_unclaimed e q Hqpos ts posx posy []) as H.
    rewrite Hfold, Hlist_s in H. cbn [fst] in H. exact (H Hobjs Himgs th). }
  set (tr := _pos_compute_area (set_tb_list added t1)).
  assert (Hdestroy : redraw_reload_destroy e (set_tb_dragging false ta)
                     = Done (tr, tb_list t1)).
  { unfold redraw_reload_destroy. rewrite Hstart. cbn [bind].
    fold (desired_rows e ts offset empty_start). fold q. rewrite Hfold.
    rewrite rev_app_nil. reflexivity. }
  assert (Hreload : redraw_reload e (set_tb_dragging false ta) = Done tr).
  { unfold redraw_reload. rewrite Hdestroy. reflexivity. }
  pose proof (Hstays ta tr Hcs Hreload) as Hend.
  set (final := if force then selection_updated e tr else tr).
  assert (Hfrom : forall th', In th' (tb_list final) ->
                    exists th'', In th'' added /\ th_obj th' = th_obj th''
                                 /\ th_imgid th' = th_imgid th'').
  { intros th' Hin. unfold final in Hin. destruct force.
    - cbn [tb_list set_tb_list selection_updated] in Hin. apply in_map_iff in Hin.
      destruct Hin as (th'' & Heq & Hin). exists th''. subst th'. repeat split. exact Hin.
    - exists th'. repeat split. exact Hin. }
  assert (Hplaced : Forall2 (placed ts) (tb_list final) (combine q (slots ts posx posy (length q)))).
  { unfold final. destruct force.
    - cbn [tb_list set_tb_list selection_updated]. apply placed_update_selection. exact Hall.
    - exact Hall. }
  assert (Hold : forall th th'', In th (tb_list t) -> In th'' added ->
                                 th_obj th = th_obj th'' ->
                                 In (th_imgid th) (map snd q)).
  { intros th th'' Hin Hadded Hobj.
    rewrite Forall_forall in Hreuse. pose proof (Hreuse th'' Hadded) as Hr.
    unfold reused_or_fresh in Hr.
    destruct (g_list_find_by_imgid (tb_list t) (th_imgid th'')) as [th0 | ] eqn:Hfind.
    - apply find_by_imgid_some in Hfind. destruct Hfind as (Hin0 & Hid0 & _).
      assert (Heq : th0 = th).
      { apply (NoDup_map_eq th_obj (tb_list t)); [exact Hobjs | exact Hin0 | exact Hin | ].
        congruence. }
      subst th0. rewrite Hid0.
      exact (placed_imgid_in ts q added _ Hall th'' Hadded).
    - rewrite Forall_forall in Hbound. pose proof (Hbound th Hin) as Hb. lia. }
  exists final, ts, offset, empty_start, posx, posy, (tb_list t1).
  split; [ | split; [exact Hstart | split; [exists tr; exact Hdestroy | ]]].
  - cbn [dt_thumbtable_full_redraw]. rewrite Hcs. cbn [bind]. rewrite Hsb. cbn [bind].
    rewrite Hreload. cbn [bind]. apply redraw_finish_stays. exact Hend.
  - split; [exact Hplaced | ]. split; [ | split; [ | split]].
    + intros th th' Hin Hin' Hid.
      destruct (Hfrom th' Hin') as (th'' & Hadded & Hobj & Himg).
      rewrite Forall_forall in Hreuse. pose proof (Hreuse th'' Hadded) as Hr.
      unfold reused_or_fresh in Hr. rewrite <- Himg, Hid in Hr.
      rewrite (find_by_imgid_unique (tb_list t) th Himgs Hin) in Hr.
      * rewrite Hobj. exact Hr.
      * rewrite <- Hid, Himg. rewrite Forall_forall in Hqpos.
        pose proof (placed_imgid_in ts q added _ Hall th'' Hadded) as Hinq.
        apply in_map_iff in Hinq. destruct Hinq as (r & Hr1 & Hr2). rewrite <- Hr1.
        exact (Hqpos r Hr2).
    + intros th' Hin' Habsent.
      destruct (Hfrom th' Hin') as (th'' & Hadded & Hobj & Himg).
      rewrite Forall_forall in Hreuse. pose proof (Hreuse th'' Hadded) as Hr.
      unfold reused_or_fresh in Hr. rewrite <- Himg in Hr.
      rewrite (find_by_imgid_none (tb_list t) (th_imgid th') Habsent) in Hr.
      rewrite Hobj. exact Hr.
    + exact Hunclaimed.
    + intros th Hdestroyed Hobj. apply Hunclaimed in Hdestroyed.
      destruct Hdestroyed as [Hin Hnot]. apply in_map_iff in Hobj.
      destruct Hobj as (th' & Hobj & Hin').
      destruct (Hfrom th' Hin') as (th'' & Hadded & Hobj' & _).
      apply Hnot. apply (Hold th th'' Hin Hadded). congruence.
Qed.

(** C1, witness: the grid of 100 x 100 pixels shows rows 1 to 6, the third
    image is selected and the offset is moved to row 3: the redraw shows rows
    3 to 8 with the selected image in its first row, does not scroll, keeps
    the objects of rows 3 to 6 and destroys those of rows 1 and 2. *)
Lemma C1_reuse_on_reconciliation_witness :
  exists t' destroyed,
    dt_thumbtable_full_redraw 2 (grid_100 [103]) (set_tb_offset 3 grid_table_sel3) true
    = Done t'
    /\ map th_imgid (tb_list grid_table_sel3) = [101; 102; 103; 104; 105; 106]
    /\ (forall th th', In th (tb_list grid_table_sel3) -> In th' (tb_list t') ->
                       th_imgid th' = th_imgid th -> th_obj th' = th_obj th)
    /\ (forall th, In th destroyed
                   <-> In th (tb_list grid_table_sel3)
                       /\ ~ In (th_imgid th) [103; 104; 105; 106; 107; 108]).
Proof.
  destruct (C1_reuse_on_reconciliation
              0 (grid_100 [103]) (set_tb_offset 3 grid_table_sel3)
              (set_tb_offset 3 grid_table_sel3) true)
    as (t' & ts & offset & empty_start & posx & posy & destroyed
        & H1 & Hstart & _ & _ & H2 & _ & H3 & _).
  - intros ta tr Hcs Hreload. vm_compute in Hcs. inversion Hcs. subst ta.
    vm_compute in Hreload. inversion Hreload. subst tr.
    exists true. intros redraw. vm_compute. reflexivity.
  - reflexivity.
  - cbn. repeat constructor; cbn; intuition lia.
  - cbn. repeat constructor; lia.
  - cbn. repeat constructor; cbn; intuition lia.
  - cbn. repeat constructor; cbn; intuition lia.
  - cbn. repeat constructor; lia.
  - vm_compute in Hstart. inversion Hstart. subst ts offset empty_start posx posy.
    exists t', destroyed. split; [exact H1 | ]. split; [reflexivity | ].
    split; [exact H2 | exact H3].
Defined.
End ThumbtableFacts.

(** * Properties of the act-on image set *)

Module ActOnFacts.
Import ActOn.

(** ** Lists without repetition *)

Lemma find_custom_in (l : list Z) (imgid : Z) :
  existsb (fun a => _find_custom a imgid =? 0) l = true <-> In imgid l.
Proof.
  rewrite existsb_exists. unfold _find_custom. split.
  - intros (a & Hin & Ha). destruct (Z.eqb_spec a imgid); [subst; exact Hin | discriminate Ha].
  - intros Hin. exists imgid. split; [exact Hin | ]. rewrite Z.eqb_refl. reflexivity.
Qed.

Lemma append_if_absent_incl (l : list Z) (imgid x : Z) :
  In x l -> In x (append_if_absent l imgid).
Proof.
  intros H. unfold append_if_absent. destruct (existsb _ l); [exact H | ].
  apply in_or_app. left. exact H.
Qed.

Lemma append_if_absent_in (l : list Z) (imgid : Z) : In imgid (append_if_absent l imgid).
Proof.
  unfold append_if_absent. destruct (existsb _ l) eqn:Hex.
  - apply find_custom_in. exact Hex.
  - apply in_or_app. right. left. reflexivity.
Qed.


Lemma fold_append_incl (ms : list Z) :
  forall l x, In x l -> In x (fold_left append_if_absent ms l).
Proof.
  induction ms as [ | m ms IH]; intros l x H; cbn [fold_left].
  - exact H.
  - apply IH. apply append_if_absent_incl. exact H.
Qed.


Lemma insert_in_list_incl (d : darktable_t) (l : list Z) (imgid : Z) (only_visible : bool)
      (x : Z) :
  In x l -> In x (_insert_in_list d l imgid only_visible).
Proof.
  intros H. unfold _insert_in_list. destruct only_visible.
  - apply append_if_absent_incl. exact H.
  - destruct (dt_image_cache_get d imgid) as [group | ]; [ | exact H].
    destruct (gui d) as [g | ]; [ | apply append_if_absent_incl; exact H].
    destruct (selection_collection d) as [in_collection | ];
      [ | apply append_if_absent_incl; exact H].
    destruct (negb (grouping g) || (expanded_group_id g =? group)).
    + apply append_if_absent_incl. exact H.
    + apply fold_append_incl. exact H.
Qed.

(* what _cache_update does for one active image *)
Definition insert_active (d : darktable_t) (only_visible : bool) (l : list Z) (id : Z)
  : list Z :=
  let l1 := _insert_in_list d l id only_visible in
  if negb only_visible then _insert_in_list d l1 id true else l1.

Lemma images_to_act_on_fold (d : darktable_t) (only_visible ordered_ : bool) :
  images_to_act_on d only_visible ordered_
  = fold_left (insert_active d only_visible) (active_images d)
              (selection_list d only_visible ordered_).
Proof. reflexivity. Qed.

Lemma insert_active_incl (d : darktable_t) (only_visible : bool) (l : list Z) (id x : Z) :
  In x l -> In x (insert_active d only_visible l id).
Proof.
  intros H. unfold insert_active. destruct only_visible; cbn [negb].
  - apply insert_in_list_incl. exact H.
  - apply insert_in_list_incl. apply insert_in_list_incl. exact H.
Qed.

Lemma fold_insert_active_incl (d : darktable_t) (only_visible : bool) (ids : list Z) :
  forall l x, In x l -> In x (fold_left (insert_active d only_visible) ids l).
Proof.
  induction ids as [ | id ids IH]; intros l x H; cbn [fold_left].
  - exact H.
  - apply IH. apply insert_active_incl. exact H.
Qed.

(* whatever one active image brings in is in the final list *)
Lemma fold_insert_active_in (d : darktable_t) (only_visible : bool) (ids : list Z) (a x : Z) :
  In a ids ->
  (forall l, In x (insert_active d only_visible l a)) ->
  forall l, In x (fold_left (insert_active d only_visible) ids l).
Proof.
  intros Hin Hstep. induction ids as [ | id ids IH]; intros l; cbn [fold_left].
  - destruct Hin.
  - destruct Hin as [Heq | Hin].
    + subst id. apply fold_insert_active_incl. apply Hstep.
    + apply IH. exact Hin.
Qed.

(** ** Group expansion *)







(** ** The cache of the list *)



(* what the list is computed from: selection, active images, grouping
   preference, expanded group, collection filter and image storage; the hover
   id and the mouse flag are not part of it *)
Definition same_inputs (d1 d2 : darktable_t) : Prop :=
  active_images d2 = active_images d1
  /\ selection_list d2 = selection_list d1
  /\ selection_collection d2 = selection_collection d1
  /\ main_images d2 = main_images d1
  /\ match gui d1, gui d2 with
     | Some g1, Some g2 =>
         grouping g2 = grouping g1 /\ expanded_group_id g2 = expanded_group_id g1
     | None, None => True
     | _, _ => False
     end.





Lemma fold_left_pointwise {A B : Type} (f g : A -> B -> A) (l : list B) :
  (forall a b, f a b = g a b) -> forall a, fold_left f l a = fold_left g l a.
Proof.
  intros H. induction l as [ | b l IH]; intros a; cbn [fold_left].
  - reflexivity.
  - rewrite H. apply IH.
Qed.

Lemma insert_in_list_inputs (d1 d2 : darktable_t) (l : list Z) (imgid : Z)
      (only_visible : bool) :
  same_inputs d1 d2 ->
  _insert_in_list d2 l imgid only_visible = _insert_in_list d1 l imgid only_visible.
Proof.
  intros (_ & _ & Hcoll & Hmain & Hgui).
  unfold _insert_in_list, dt_image_cache_get, select_group_in_collection.
  rewrite Hcoll, Hmain. destruct only_visible; [reflexivity | ].
  destruct (find (fun r : Z * Z => fst r =? imgid) (main_images d1)) as [r | ];
    [ | reflexivity].
  destruct (gui d1) as [g1 | ], (gui d2) as [g2 | ]; try contradiction; [ | reflexivity].
  destruct Hgui as [Hg He]. rewrite Hg, He. reflexivity.
Qed.

Lemma images_to_act_on_inputs (d1 d2 : darktable_t) (only_visible ordered_ : bool) :
  same_inputs d1 d2 ->
  images_to_act_on d2 only_visible ordered_ = images_to_act_on d1 only_visible ordered_.
Proof.
  intros Hs. pose proof Hs as (Hact & Hsel & _).
  unfold images_to_act_on. rewrite Hact, Hsel.
  apply fold_left_pointwise. intros l id.
  rewrite !(insert_in_list_inputs d1 d2 _ _ _ Hs). reflexivity.
Qed.


Lemma get_set_act_on_cache (d : darktable_t) (only_visible : bool) (c : dt_act_on_cache_t) :
  get_act_on_cache only_visible (set_act_on_cache only_visible c d) = c.
Proof. destruct only_visible; reflexivity. Qed.

Lemma gui_set_act_on_cache (d : darktable_t) (only_visible : bool) (c : dt_act_on_cache_t) :
  gui (set_act_on_cache only_visible c d) = gui d.
Proof. destruct only_visible; reflexivity. Qed.

(* a miss of the cache stores the recomputed list *)
Lemma cache_update_miss (d d1 : darktable_t) (only_visible force ordered_ : bool) :
  _cache_update d only_visible force ordered_ = Done (d1, true) ->
  exists g,
    gui d = Some g
    /\ d1 = set_act_on_cache only_visible
              (mk_cache true ordered_ (images_to_act_on d only_visible ordered_)
                        (Z.of_nat (length (images_to_act_on d only_visible ordered_)))
                        (mouse_over_id d) (active_images d) (mouse_inside g))
              d.
Proof.
  unfold _cache_update.
  destruct (if negb force && Bool.eqb (ordered (get_act_on_cache only_visible d)) ordered_
            then _test_cache d (get_act_on_cache only_visible d) else Done false)
    as [[ | ] | | ]; cbn; try discriminate.
  destruct (gui d) as [g | ]; cbn; [ | discriminate].
  intros H. exists g. split; [reflexivity | ]. now inversion H.
Qed.


Lemma get_images_of_update (d d1 : darktable_t) (only_visible force ordered_ b : bool) :
  _cache_update d only_visible force ordered_ = Done (d1, b) ->
  ok (get_act_on_cache only_visible d1) = true ->
  dt_act_on_get_images d only_visible force ordered_
  = Done (images (get_act_on_cache only_visible d1), d1).
Proof.
  intros H Hok. unfold dt_act_on_get_images. rewrite H. cbn.
  unfold get_act_on_cache in *. destruct only_visible; cbn; rewrite Hok; reflexivity.
Qed.





End ActOnFacts.


(** * The list of images to act on, the count and the main image *)

Module ActOnListFacts.
Import ActOn ActOnFacts.

(** ** Shape of the list *)

Lemma append_if_absent_cases (l : list Z) (imgid : Z) :
  (In imgid l /\ append_if_absent l imgid = l)
  \/ (~ In imgid l /\ append_if_absent l imgid = l ++ [imgid]).
Proof.
  unfold append_if_absent. destruct (existsb _ l) eqn:Hex.
  - left. split; [apply find_custom_in; exact Hex | reflexivity].
  - right. split; [ | reflexivity]. intros Hin. apply find_custom_in in Hin. congruence.
Qed.

(* [l'] is [l] followed by distinct elements that [l] does not have *)
Definition grows (l l' : list Z) : Prop :=
  exists r, l' = l ++ r /\ NoDup r /\ forall x, In x r -> ~ In x l.

Lemma grows_refl (l : list Z) : grows l l.
Proof.
  exists []. split; [symmetry; apply app_nil_r | ]. split; [constructor | ].
  intros x [].
Qed.

Lemma grows_trans (l1 l2 l3 : list Z) : grows l1 l2 -> grows l2 l3 -> grows l1 l3.
Proof.
  intros (r & H12 & Hr & Hnew) (r' & H23 & Hr' & Hnew'). subst l2 l3.
  exists (r ++ r'). split; [symmetry; apply app_assoc | ]. split.
  - induction r as [ | a r IH]; cbn [app]; [exact Hr' | ].
    apply NoDup_cons_iff in Hr. destruct Hr as [Ha Hr]. apply NoDup_cons.
    + intros Hin. apply in_app_or in Hin. destruct Hin as [Hin | Hin]; [exact (Ha Hin) | ].
      apply (Hnew' a Hin). apply in_or_app. right. left. reflexivity.
    + apply IH; [exact Hr | | ].
      * intros x Hx. apply Hnew. right. exact Hx.
      * intros x Hx Hin. apply (Hnew' x Hx). apply in_app_or in Hin.
        apply in_or_app. destruct Hin as [Hin | Hin]; [left; exact Hin | ].
        right. right. exact Hin.
  - intros x Hx Hin. apply in_app_or in Hx. destruct Hx as [Hx | Hx].
    + exact (Hnew x Hx Hin).
    + apply (Hnew' x Hx). apply in_or_app. left. exact Hin.
Qed.

Lemma grows_append_if_absent (l : list Z) (imgid : Z) : grows l (append_if_absent l imgid).
Proof.
  destruct (append_if_absent_cases l imgid) as [[_ H] | [Hnotin H]]; rewrite H.
  - apply grows_refl.
  - exists [imgid]. split; [reflexivity | ]. split.
    + apply NoDup_cons; [intros [] | constructor].
    + intros x [Hx | []]. subst x. exact Hnotin.
Qed.

Lemma grows_fold_append (ms : list Z) : forall l, grows l (fold_left append_if_absent ms l).
Proof.
  induction ms as [ | m ms IH]; intros l; cbn [fold_left].
  - apply grows_refl.
  - exact (grows_trans _ _ _ (grows_append_if_absent l m) (IH _)).
Qed.

Lemma grows_insert_in_list (d : darktable_t) (l : list Z) (imgid : Z) (only_visible : bool) :
  grows l (_insert_in_list d l imgid only_visible).
Proof.
  unfold _insert_in_list. destruct only_visible; [apply grows_append_if_absent | ].
  destruct (dt_image_cache_get d imgid) as [group | ]; [ | apply grows_refl].
  destruct (gui d) as [g | ]; [ | apply grows_append_if_absent].
  destruct (selection_collection d) as [in_collection | ]; [ | apply grows_append_if_absent].
  destruct (negb (grouping g) || (expanded_group_id g =? group)).
  - apply grows_append_if_absent.
  - apply grows_fold_append.
Qed.

Lemma grows_insert_active (d : darktable_t) (only_visible : bool) (l : list Z) (id : Z) :
  grows l (insert_active d only_visible l id).
Proof.
  unfold insert_active. destruct only_visible; cbn [negb].
  - apply grows_insert_in_list.
  - exact (grows_trans _ _ _ (grows_insert_in_list d l id false)
                       (grows_insert_in_list d _ id true)).
Qed.

Lemma grows_images_to_act_on (d : darktable_t) (only_visible ordered_ : bool) :
  grows (selection_list d only_visible ordered_) (images_to_act_on d only_visible ordered_).
Proof.
  rewrite images_to_act_on_fold.
  generalize (selection_list d only_visible ordered_) as l.
  induction (active_images d) as [ | a ids IH]; intros l; cbn [fold_left].
  - apply grows_refl.
  - exact (grows_trans _ _ _ (grows_insert_active d only_visible l a) (IH _)).
Qed.

Lemma grows_NoDup (l l' : list Z) : grows l l' -> NoDup l -> NoDup l'.
Proof.
  intros (r & Heq & Hr & Hnew) Hl. subst l'.
  induction l as [ | a l IH]; cbn [app]; [exact Hr | ].
  apply NoDup_cons_iff in Hl. destruct Hl as [Ha Hl]. apply NoDup_cons.
  - intros Hin. apply in_app_or in Hin. destruct Hin as [Hin | Hin]; [exact (Ha Hin) | ].
    apply (Hnew a Hin). left. reflexivity.
  - apply IH; [ | exact Hl]. intros x Hx Hin. apply (Hnew x Hx). right. exact Hin.
Qed.

(* a selection of two images, the second of which is also the active image *)
Definition culling_2 : darktable_t :=
  mk_darktable (Some (mk_gui false (-1) false)) (-1) [4; 9]
               (mk_cache false false [] 0 (-1) [] false)
               (mk_cache false false [] 0 (-1) [] false)
               (fun _ _ => [3; 4]) None [(3, 3); (4, 4); (9, 9)].

(** X1: the list that _cache_update computes is the list of the selection,
    in its order, followed by ids that the selection does not hold, each of
    them once: the active images and the members of their groups are only
    appended.  So a selection without repetition gives a list without
    repetition. *)
Theorem X1_selection_first_no_repetition (d : darktable_t) (only_visible ordered_ : bool) :
  (exists rest,
      images_to_act_on d only_visible ordered_
      = selection_list d only_visible ordered_ ++ rest
      /\ NoDup rest
      /\ forall x, In x rest -> ~ In x (selection_list d only_visible ordered_))
  /\ (NoDup (selection_list d only_visible ordered_) ->
      NoDup (images_to_act_on d only_visible ordered_)).
Proof.
  split.
  - exact (grows_images_to_act_on d only_visible ordered_).
  - exact (grows_NoDup _ _ (grows_images_to_act_on d only_visible ordered_)).
Qed.

(** X1, witness: images 3 and 4 are selected, images 4 and 9 are active. *)
Lemma X1_selection_first_no_repetition_witness :
  images_to_act_on culling_2 true false = [3; 4; 9]
  /\ NoDup (images_to_act_on culling_2 true false).
Proof.
  split; [reflexivity | ].
  apply (proj2 (X1_selection_first_no_repetition culling_2 true false)).
  cbn. apply NoDup_cons; [intros [H | []]; discriminate H | ].
  apply NoDup_cons; [intros [] | constructor].
Defined.

(** ** Members of the list *)

Lemma append_if_absent_In (l : list Z) (imgid x : Z) :
  In x (append_if_absent l imgid) <-> In x l \/ x = imgid.
Proof.
  destruct (append_if_absent_cases l imgid) as [[Hin H] | [_ H]]; rewrite H.
  - split; [intros Hx; left; exact Hx | ]. intros [Hx | Hx]; [exact Hx | subst x; exact Hin].
  - rewrite in_app_iff. cbn [In]. split.
    + intros [Hx | [Hx | []]]; [left; exact Hx | right; symmetry; exact Hx].
    + intros [Hx | Hx]; [left; exact Hx | right; left; symmetry; exact Hx].
Qed.

Lemma fold_append_In (ms : list Z) :
  forall l x, In x (fold_left append_if_absent ms l) <-> In x l \/ In x ms.
Proof.
  induction ms as [ | m ms IH]; intros l x; cbn [fold_left In].
  - split; [intros H; left; exact H | intros [H | []]; exact H].
  - rewrite IH, append_if_absent_In. split.
    + intros [[H | H] | H]; [left; exact H | right; left; symmetry; exact H | right; right; exact H].
    + intros [H | [H | H]]; [left; left; exact H | left; right; symmetry; exact H | right; exact H].
Qed.

Lemma select_group_In (d : darktable_t) (in_collection : Z -> bool) (group x : Z) :
  In x (select_group_in_collection d in_collection group)
  <-> In (x, group) (main_images d) /\ in_collection x = true.
Proof.
  unfold select_group_in_collection. rewrite in_map_iff. split.
  - intros ([id g] & Hfst & Hin). cbn [fst] in Hfst. subst id.
    apply filter_In in Hin. destruct Hin as [Hin Htest]. cbn [fst snd] in Htest.
    apply andb_true_iff in Htest. destruct Htest as [Hg Hc].
    apply Z.eqb_eq in Hg. subst g. split; [exact Hin | exact Hc].
  - intros [Hin Hc]. exists (x, group). split; [reflexivity | ].
    apply filter_In. split; [exact Hin | ]. cbn [fst snd]. rewrite Z.eqb_refl, Hc. reflexivity.
Qed.

(* [x] is an image that the active image [a] brings in with its group *)
Definition group_member_of (d : darktable_t) (a x : Z) : Prop :=
  exists g group in_collection,
    gui d = Some g /\ grouping g = true
    /\ dt_image_cache_get d a = Some group /\ expanded_group_id g <> group
    /\ selection_collection d = Some in_collection
    /\ In (x, group) (main_images d) /\ in_collection x = true.

Lemma insert_in_list_all_In (d : darktable_t) (l : list Z) (a x : Z) :
  In x (_insert_in_list d l a false) -> In x l \/ x = a \/ group_member_of d a x.
Proof.
  unfold _insert_in_list.
  destruct (dt_image_cache_get d a) as [group | ] eqn:Hget; [ | intros H; left; exact H].
  assert (Hself : In x (append_if_absent l a) -> In x l \/ x = a \/ group_member_of d a x).
  { intros H. apply append_if_absent_In in H. destruct H as [H | H];
      [left; exact H | right; left; exact H]. }
  destruct (gui d) as [g | ] eqn:Hgui; [ | exact Hself].
  destruct (selection_collection d) as [in_collection | ] eqn:Hcoll; [ | exact Hself].
  destruct (negb (grouping g) || (expanded_group_id g =? group)) eqn:Htest; [exact Hself | ].
  apply orb_false_iff in Htest. destruct Htest as [Hgrouping Hexp].
  apply negb_false_iff in Hgrouping. apply Z.eqb_neq in Hexp.
  intros H. apply fold_append_In in H. destruct H as [H | H]; [left; exact H | ].
  right. right. apply select_group_In in H. destruct H as [Hin Hc].
  exists g, group, in_collection. repeat split; assumption.
Qed.

(** X2: nothing else gets into the list.  With only_visible TRUE the list
    holds exactly the selected images and the active images.  With
    only_visible FALSE every element of the list is a selected image, an
    active image, or an image that is in the group of an active image and
    matches the collection filter, the grouping preference being on and that
    group not being the expanded one. *)
Theorem X2_members_of_the_list (d : darktable_t) (ordered_ : bool) (x : Z) :
  (In x (images_to_act_on d true ordered_)
   <-> In x (selection_list d true ordered_) \/ In x (active_images d))
  /\ (In x (images_to_act_on d false ordered_) ->
      In x (selection_list d false ordered_) \/ In x (active_images d)
      \/ exists a, In a (active_images d) /\ group_member_of d a x).
Proof.
  split.
  - rewrite images_to_act_on_fold.
    generalize (selection_list d true ordered_) as l.
    induction (active_images d) as [ | a ids IH]; intros l; cbn [fold_left In].
    + split; [intros H; left; exact H | intros [H | []]; exact H].
    + rewrite IH. unfold insert_active, _insert_in_list. cbn [negb].
      rewrite append_if_absent_In. split.
      * intros [[H | H] | H];
          [left; exact H | right; left; symmetry; exact H | right; right; exact H].
      * intros [H | [H | H]];
          [left; left; exact H | left; right; symmetry; exact H | right; exact H].
  - rewrite images_to_act_on_fold.
    generalize (selection_list d false ordered_) as l.
    induction (active_images d) as [ | a ids IH]; intros l; cbn [fold_left In].
    + intros H. left. exact H.
    + intros H. apply IH in H. destruct H as [H | [H | (a' & Ha' & H)]].
      * unfold insert_active in H. cbn [negb] in H.
        change (_insert_in_list d (_insert_in_list d l a false) a true)
          with (append_if_absent (_insert_in_list d l a false) a) in H.
        apply append_if_absent_In in H. destruct H as [H | H].
        -- apply insert_in_list_all_In in H. destruct H as [H | [H | H]].
           ++ left. exact H.
           ++ right. left. left. symmetry. exact H.
           ++ right. right. exists a. split; [left; reflexivity | exact H].
        -- right. left. left. symmetry. exact H.
      * right. left. right. exact H.
      * right. right. exists a'. split; [right; exact Ha' | exact H].
Qed.

(** X2, witness: image 9 is active and not selected; the list holds it. *)
Lemma X2_members_of_the_list_witness :
  In 9 (active_images culling_2) /\ In 9 (images_to_act_on culling_2 true false).
Proof.
  assert (H : In 9 (active_images culling_2)) by (cbn; right; left; reflexivity).
  split; [exact H | ].
  apply (proj1 (X2_members_of_the_list culling_2 false 9)). right. exact H.
Defined.

(** ** The validity test of the cache *)

Lemma active_imgs_agree_eq (l1 l2 : list Z) :
  length l1 = length l2 -> (active_imgs_agree l1 l2 = true <-> l1 = l2).
Proof.
  revert l2. induction l1 as [ | a l1 IH]; intros [ | b l2] Hlen; cbn [active_imgs_agree];
    try discriminate Hlen.
  - split; reflexivity.
  - cbn [length] in Hlen. injection Hlen as Hlen.
    destruct (Z.eqb_spec a b) as [Heq | Hneq]; cbn [negb].
    + subst b. rewrite (IH l2 Hlen). split; [intros H; subst; reflexivity | ].
      intros H. injection H as H. exact H.
    + split; [discriminate | ]. intros H. injection H as H _. contradiction.
Qed.

(** X3: what _test_cache accepts.  With a UI, the cache is found valid
    exactly when it is filled, its hover id and its mouse-inside flag are the
    current ones, it holds as many active images as there are now and, if the
    mouse is outside the table, the same active images in the same order. *)
Theorem X3_test_cache_accepts (d : darktable_t) (g : dt_gui_gtk_t)
        (cache : dt_act_on_cache_t) :
  gui d = Some g ->
  exists b,
    _test_cache d cache = Done b
    /\ (b = true <->
        ok cache = true
        /\ image_over cache = mouse_over_id d
        /\ inside_table cache = mouse_inside g
        /\ length (active_imgs cache) = length (active_images d)
        /\ (mouse_inside g = false -> active_imgs cache = active_images d)).
Proof.
  intros Hgui. unfold _test_cache. rewrite Hgui. cbn [deref bind].
  destruct (ok cache); cbn [andb].
  2:{ exists false. split; [reflexivity | ]. split; [discriminate | ].
      intros (H & _). discriminate H. }
  destruct (Z.eqb_spec (image_over cache) (mouse_over_id d)) as [Hover | Hover].
  2:{ exists false. split; [reflexivity | ]. split; [discriminate | ].
      intros (_ & H & _). contradiction. }
  destruct (Bool.eqb (inside_table cache) (mouse_inside g)) eqn:Hinside; cbn [andb].
  2:{ exists false. split; [reflexivity | ]. split; [discriminate | ].
      intros (_ & _ & H & _). rewrite H, Bool.eqb_reflx in Hinside. discriminate Hinside. }
  apply Bool.eqb_prop in Hinside.
  destruct (Nat.eqb_spec (length (active_imgs cache)) (length (active_images d)))
    as [Hlen | Hlen].
  2:{ exists false. split; [reflexivity | ]. split; [discriminate | ].
      intros (_ & _ & _ & H & _). contradiction. }
  eexists. split; [reflexivity | ].
  destruct (mouse_inside g); cbn [negb andb].
  - split; [ | reflexivity]. intros _. repeat split; try assumption. discriminate.
  - destruct (active_imgs cache) as [ | a l] eqn:Hcached.
    + cbn [length Nat.eqb negb]. split; [ | reflexivity]. intros _.
      repeat split; try assumption. intros _.
      destruct (active_images d); [reflexivity | discriminate Hlen].
    + cbn [length Nat.eqb negb]. rewrite (active_imgs_agree_eq _ _ Hlen). split.
      * intros H. repeat split; try assumption. intros _. exact H.
      * intros (_ & _ & _ & _ & H). apply H. reflexivity.
Qed.

(* the state after the list of the visible images was asked for *)
Definition culling_2_cached : darktable_t :=
  Eval vm_compute in
    match dt_act_on_get_images culling_2 true false false with
    | Done (_, d) => d
    | _ => culling_2
    end.

(** X3, witness: the cache filled for the selection of images 3 and 4 and the
    active images 4 and 9 is found valid in the state it was filled in. *)
Lemma X3_test_cache_accepts_witness :
  exists b,
    _test_cache culling_2_cached (act_on_cache_visible culling_2_cached) = Done b
    /\ b = true.
Proof.
  destruct (X3_test_cache_accepts culling_2_cached (mk_gui false (-1) false)
              (act_on_cache_visible culling_2_cached) eq_refl) as (b & Hb & Hiff).
  exists b. split; [exact Hb | ]. apply Hiff. repeat split.
Defined.

(** ** Asking again, and resetting *)

Lemma active_imgs_agree_refl (l : list Z) : active_imgs_agree l l = true.
Proof.
  induction l as [ | a l IH]; cbn [active_imgs_agree]; [reflexivity | ].
  rewrite Z.eqb_refl. exact IH.
Qed.

(* the cache that _cache_update stores *)
Definition fresh_cache (d : darktable_t) (g : dt_gui_gtk_t) (only_visible ordered_ : bool)
  : dt_act_on_cache_t :=
  mk_cache true ordered_ (images_to_act_on d only_visible ordered_)
           (Z.of_nat (length (images_to_act_on d only_visible ordered_)))
           (mouse_over_id d) (active_images d) (mouse_inside g).

(* right after it was stored, the cache is found valid *)
Lemma test_cache_fresh (d : darktable_t) (g : dt_gui_gtk_t) (only_visible ordered_ : bool)
      (c : dt_act_on_cache_t) :
  gui d = Some g -> c = fresh_cache d g only_visible ordered_ ->
  _test_cache (set_act_on_cache only_visible c d) c = Done true.
Proof.
  intros Hgui Hc. unfold _test_cache. rewrite gui_set_act_on_cache, Hgui.
  assert (Hover : mouse_over_id (set_act_on_cache only_visible c d) = mouse_over_id d)
    by (destruct only_visible; reflexivity).
  assert (Hact : active_images (set_act_on_cache only_visible c d) = active_images d)
    by (destruct only_visible; reflexivity).
  rewrite Hover, Hact. subst c. unfold fresh_cache.
  cbn [ok image_over inside_table active_imgs deref bind andb].
  rewrite Z.eqb_refl, Bool.eqb_reflx, Nat.eqb_refl. cbn [andb].
  rewrite active_imgs_agree_refl. destruct (_ && _); reflexivity.
Qed.

Lemma cache_update_hit (d d1 : darktable_t) (only_visible force ordered_ : bool) :
  _cache_update d only_visible force ordered_ = Done (d1, false) ->
  d1 = d /\ force = false.
Proof.
  unfold _cache_update. destruct force; cbn [negb andb bind].
  - destruct (gui d); cbn [deref bind]; discriminate.
  - destruct (if Bool.eqb (ordered (get_act_on_cache only_visible d)) ordered_
              then _test_cache d (get_act_on_cache only_visible d) else Done false)
      as [[ | ] | | ]; cbn [bind]; try discriminate.
    + intros H. inversion H. split; reflexivity.
    + destruct (gui d); cbn [deref bind]; discriminate.
Qed.

Lemma cache_update_served (d : darktable_t) (g : dt_gui_gtk_t) (only_visible ordered_ : bool)
      (c : dt_act_on_cache_t) :
  gui d = Some g -> c = fresh_cache d g only_visible ordered_ ->
  _cache_update (set_act_on_cache only_visible c d) only_visible false ordered_
  = Done (set_act_on_cache only_visible c d, false).
Proof.
  intros Hgui Hc. unfold _cache_update. rewrite get_set_act_on_cache.
  rewrite (test_cache_fresh d g only_visible ordered_ c Hgui Hc).
  subst c. cbn [fresh_cache ordered negb andb]. rewrite Bool.eqb_reflx. reflexivity.
Qed.

(** X4: asking again is served from the cache.  After a call of
    dt_act_on_get_images that returned, the same call, not forced, with the
    same ordering returns the same list, finds the cache up to date
    (_cache_update returns FALSE) and leaves the state as it is. *)
Theorem X4_asking_again_is_served (d d1 : darktable_t) (only_visible force ordered_ : bool)
        (l : list Z) :
  dt_act_on_get_images d only_visible force ordered_ = Done (l, d1) ->
  dt_act_on_get_images d1 only_visible false ordered_ = Done (l, d1)
  /\ _cache_update d1 only_visible false ordered_ = Done (d1, false).
Proof.
  intros H. pose proof H as H0. unfold dt_act_on_get_images in H.
  destruct (_cache_update d only_visible force ordered_) as [[d' b] | | ] eqn:Hupd;
    cbn [bind] in H; try discriminate H.
  assert (Hd' : d' = d1) by (inversion H; reflexivity). subst d'.
  destruct b.
  - destruct (cache_update_miss _ _ _ _ _ Hupd) as (g & Hgui & Hd1).
    pose proof (cache_update_served d g only_visible ordered_ _ Hgui eq_refl) as Hserved.
    unfold fresh_cache in Hserved. rewrite <- Hd1 in Hserved.
    split; [ | exact Hserved].
    assert (Hok : ok (get_act_on_cache only_visible d1) = true)
      by (rewrite Hd1, get_set_act_on_cache; reflexivity).
    rewrite (get_images_of_update _ _ _ _ _ _ Hserved Hok).
    rewrite (get_images_of_update _ _ _ _ _ _ Hupd Hok) in H0. exact H0.
  - destruct (cache_update_hit _ _ _ _ _ Hupd) as [Hd Hforce]. subst d1 force.
    split; [exact H0 | exact Hupd].
Qed.

(** X4, witness: the list of the visible images is asked for twice. *)
Lemma X4_asking_again_is_served_witness :
  dt_act_on_get_images culling_2 true false false = Done ([3; 4; 9], culling_2_cached)
  /\ dt_act_on_get_images culling_2_cached true false false
     = Done ([3; 4; 9], culling_2_cached).
Proof.
  assert (H : dt_act_on_get_images culling_2 true false false
              = Done ([3; 4; 9], culling_2_cached)) by (vm_compute; reflexivity).
  split; [exact H | ].
  exact (proj1 (X4_asking_again_is_served culling_2 culling_2_cached true false false
                                          [3; 4; 9] H)).
Defined.

Lemma same_inputs_reset (d : darktable_t) (only_visible : bool) :
  same_inputs d (dt_act_on_reset_cache d only_visible).
Proof.
  unfold dt_act_on_reset_cache, same_inputs. destruct only_visible; cbn.
  - repeat split. destruct (gui d); [split; reflexivity | exact I].
  - repeat split. destruct (gui d); [split; reflexivity | exact I].
Qed.

(** X5: a reset invalidates one cache only.  With a UI, after
    dt_act_on_reset_cache the next call of dt_act_on_get_images for the same
    visibility, even not forced, recomputes the list from the current
    selection and active images (_cache_update returns TRUE); the cache of
    the other visibility is left as it was, by the reset and by the call. *)
Theorem X5_reset_then_recomputed (d : darktable_t) (g : dt_gui_gtk_t)
        (only_visible ordered_ : bool) :
  gui d = Some g ->
  exists d',
    _cache_update (dt_act_on_reset_cache d only_visible) only_visible false ordered_
    = Done (d', true)
    /\ dt_act_on_get_images (dt_act_on_reset_cache d only_visible) only_visible false ordered_
       = Done (images_to_act_on d only_visible ordered_, d')
    /\ get_act_on_cache (negb only_visible) d' = get_act_on_cache (negb only_visible) d.
Proof.
  intros Hgui. set (dr := dt_act_on_reset_cache d only_visible).
  assert (Hguir : gui dr = Some g).
  { unfold dr, dt_act_on_reset_cache. rewrite gui_set_act_on_cache. exact Hgui. }
  assert (Hokr : ok (get_act_on_cache only_visible dr) = false).
  { unfold dr, dt_act_on_reset_cache. rewrite get_set_act_on_cache. reflexivity. }
  assert (Himgs : images_to_act_on dr only_visible ordered_
                  = images_to_act_on d only_visible ordered_).
  { apply images_to_act_on_inputs. apply same_inputs_reset. }
  assert (Hupd : _cache_update dr only_visible false ordered_
                 = Done (set_act_on_cache only_visible
                           (fresh_cache dr g only_visible ordered_) dr, true)).
  { unfold _cache_update, _test_cache. rewrite Hokr, Hguir. cbn [andb negb deref bind].
    destruct (Bool.eqb _ ordered_); reflexivity. }
  eexists. split; [exact Hupd | ]. split.
  - rewrite (get_images_of_update _ _ _ _ _ _ Hupd); rewrite get_set_act_on_cache;
      [ | reflexivity].
    cbn [fresh_cache images]. rewrite Himgs. reflexivity.
  - unfold dr, dt_act_on_reset_cache. destruct only_visible; reflexivity.
Qed.

(** X5, witness: the cache of the visible images is reset after it was
    filled. *)
Lemma X5_reset_then_recomputed_witness :
  exists d',
    _cache_update (dt_act_on_reset_cache culling_2_cached true) true false false
    = Done (d', true)
    /\ dt_act_on_get_images (dt_act_on_reset_cache culling_2_cached true) true false false
       = Done (images_to_act_on culling_2_cached true false, d')
    /\ get_act_on_cache (negb true) d' = get_act_on_cache (negb true) culling_2_cached.
Proof.
  exact (X5_reset_then_recomputed culling_2_cached (mk_gui false (-1) false) true false
                                  eq_refl).
Defined.

(** ** The number of images *)

(* the two caches hold the length of their list *)
Definition cache_counts (d : darktable_t) : Prop :=
  images_nb (act_on_cache_visible d) = Z.of_nat (length (images (act_on_cache_visible d)))
  /\ images_nb (act_on_cache_all d) = Z.of_nat (length (images (act_on_cache_all d))).

Lemma cache_counts_get (d : darktable_t) (only_visible : bool) :
  cache_counts d ->
  images_nb (get_act_on_cache only_visible d)
  = Z.of_nat (length (images (get_act_on_cache only_visible d))).
Proof. intros [Hv Ha]. destruct only_visible; assumption. Qed.

Lemma cache_counts_set (d : darktable_t) (only_visible : bool) (c : dt_act_on_cache_t) :
  cache_counts d -> images_nb c = Z.of_nat (length (images c)) ->
  cache_counts (set_act_on_cache only_visible c d).
Proof.
  intros [Hv Ha] Hc. unfold cache_counts. destruct only_visible; cbn; split; assumption.
Qed.

Lemma test_cache_true_ok (d : darktable_t) (cache : dt_act_on_cache_t) :
  _test_cache d cache = Done true -> ok cache = true.
Proof.
  unfold _test_cache. destruct (ok cache); [reflexivity | ]. cbn [andb]. discriminate.
Qed.

(** X6: the count is the length of the list.  When the two caches hold the
    length of their lists, dt_act_on_get_images_nb keeps it so and returns
    the number of elements of the list that dt_act_on_get_images then serves
    from the cache, for the same visibility and the ordering of the cache. *)
Theorem X6_count_is_length (d d1 : darktable_t) (only_visible force : bool) (n : Z) :
  cache_counts d ->
  dt_act_on_get_images_nb d only_visible force = Done (n, d1) ->
  cache_counts d1
  /\ dt_act_on_get_images d1 only_visible false (ordered (get_act_on_cache only_visible d1))
     = Done (images (get_act_on_cache only_visible d1), d1)
  /\ n = Z.of_nat (length (images (get_act_on_cache only_visible d1))).
Proof.
  intros Hcounts H. unfold dt_act_on_get_images_nb in H.
  destruct (if negb force
            then _test_cache d (get_act_on_cache only_visible d) else Done false)
    as [[ | ] | | ] eqn:Hhit; cbn [bind] in H; try discriminate H.
  - (* the cache is valid *)
    inversion H. subst d1. destruct force; [discriminate Hhit | ]. cbn [negb] in Hhit.
    pose proof (test_cache_true_ok _ _ Hhit) as Hok.
    split; [exact Hcounts | ]. split; [ | apply cache_counts_get; exact Hcounts].
    assert (Hupd : _cache_update d only_visible false
                     (ordered (get_act_on_cache only_visible d)) = Done (d, false)).
    { unfold _cache_update. rewrite Bool.eqb_reflx. cbn [negb andb]. rewrite Hhit.
      reflexivity. }
    exact (get_images_of_update _ _ _ _ _ _ Hupd Hok).
  - (* the cache is updated *)
    destruct (_cache_update d only_visible force false) as [[d' b] | | ] eqn:Hupd;
      cbn [bind] in H; try discriminate H.
    assert (Hb : b = true).
    { destruct b; [reflexivity | ]. exfalso.
      destruct (cache_update_hit _ _ _ _ _ Hupd) as [_ Hforce]. subst force.
      cbn [negb] in Hhit. unfold _cache_update in Hupd. cbn [negb andb] in Hupd.
      rewrite Hhit in Hupd.
      destruct (Bool.eqb _ false); cbn [bind] in Hupd;
        destruct (gui d); cbn [deref bind] in Hupd; discriminate Hupd. }
    subst b. destruct (cache_update_miss _ _ _ _ _ Hupd) as (g & Hgui & Hd').
    assert (Heq : d' = d1) by (inversion H; reflexivity).
    rewrite Heq in Hd', H, Hupd. clear Heq. rename Hd' into Hd1.
    assert (Hcache : get_act_on_cache only_visible d1 = fresh_cache d g only_visible false).
    { rewrite Hd1. apply get_set_act_on_cache. }
    split; [ | split].
    + rewrite Hd1. apply cache_counts_set; [exact Hcounts | reflexivity].
    + rewrite Hcache. cbn [fresh_cache ordered images].
      pose proof (cache_update_served d g only_visible false _ Hgui eq_refl) as Hserved.
      unfold fresh_cache in Hserved. rewrite <- Hd1 in Hserved.
      rewrite (get_images_of_update _ _ _ _ _ _ Hserved); rewrite Hcache; reflexivity.
    + assert (Hok : ok (get_act_on_cache only_visible d1) = true)
        by (rewrite Hcache; reflexivity).
      assert (Hn : n = images_nb (get_act_on_cache only_visible d1)).
      { injection H as Hn. rewrite <- Hn. unfold get_act_on_cache in *.
        destruct only_visible; cbn [andb negb]; rewrite Hok; reflexivity. }
      rewrite Hn, Hcache. reflexivity.
Qed.

(** X6, witness: the images to act on are counted before any list was asked
    for. *)
Lemma X6_count_is_length_witness :
  dt_act_on_get_images_nb culling_2 true false = Done (3, culling_2_cached)
  /\ cache_counts culling_2_cached
  /\ 3 = Z.of_nat (length (images (get_act_on_cache true culling_2_cached))).
Proof.
  assert (H : dt_act_on_get_images_nb culling_2 true false = Done (3, culling_2_cached))
    by (vm_compute; reflexivity).
  assert (H0 : cache_counts culling_2) by (split; reflexivity).
  split; [exact H | ].
  destruct (X6_count_is_length culling_2 culling_2_cached true false 3 H0 H)
    as (H1 & _ & H3).
  split; [exact H1 | exact H3].
Defined.

(** ** The main image *)

Lemma find_first (f : Z -> bool) (l : list Z) (x : Z) :
  find f l = Some x ->
  exists pre post, l = pre ++ x :: post /\ f x = true /\ forall p, In p pre -> f p = false.
Proof.
  induction l as [ | a l IH]; cbn [find]; [discriminate | ].
  destruct (f a) eqn:Hfa.
  - intros H. inversion H. subst a. exists [], l. split; [reflexivity | ].
    split; [exact Hfa | ]. intros p [].
  - intros H. destruct (IH H) as (pre & post & Hl & Hx & Hpre).
    exists (a :: pre), post. split; [rewrite Hl; reflexivity | ].
    split; [exact Hx | ]. intros p [Hp | Hp]; [subst p; exact Hfa | exact (Hpre p Hp)].
Qed.

Lemma selected_test (selected_images : list Z) (c : Z) :
  existsb (Z.eqb c) selected_images = true <-> In c selected_images.
Proof.
  rewrite existsb_exists. split.
  - intros (x & Hin & Heq). apply Z.eqb_eq in Heq. subst x. exact Hin.
  - intros Hin. exists c. split; [exact Hin | apply Z.eqb_refl].
Qed.

(** X7: the main image.  A hovered image (id above 0) is the main image.
    Without one, the first active image is, and it is an element of the list
    of images to act on, whatever the visibility and the ordering.  Without
    active image either, the main image is the first image of the collection
    that is selected, and -1 if no image of the collection is selected. *)
Theorem X7_main_image (d : darktable_t) (selected_images collected_images : list Z) :
  let main := dt_act_on_get_main_image d selected_images collected_images in
  (0 < mouse_over_id d -> main = mouse_over_id d)
  /\ (forall a rest,
         mouse_over_id d <= 0 -> active_images d = a :: rest ->
         main = a
         /\ forall only_visible ordered_, In a (images_to_act_on d only_visible ordered_))
  /\ (mouse_over_id d <= 0 -> active_images d = [] ->
      (main = -1 /\ forall c, In c collected_images -> ~ In c selected_images)
      \/ (exists pre post,
             collected_images = pre ++ main :: post
             /\ In main selected_images
             /\ forall p, In p pre -> ~ In p selected_images)).
Proof.
  cbv zeta. unfold dt_act_on_get_main_image. split; [ | split].
  - intros H. destruct (Z.gtb_spec (mouse_over_id d) 0); [reflexivity | lia].
  - intros a rest H Hact. destruct (Z.gtb_spec (mouse_over_id d) 0); [lia | ].
    rewrite Hact. split; [reflexivity | ]. intros only_visible ordered_.
    rewrite images_to_act_on_fold. apply (fold_insert_active_in d only_visible _ a a).
    + rewrite Hact. left. reflexivity.
    + intros l. unfold insert_active. destruct only_visible; cbn [negb].
      * apply append_if_absent_in.
      * change (_insert_in_list d (_insert_in_list d l a false) a true)
          with (append_if_absent (_insert_in_list d l a false) a).
        apply append_if_absent_in.
  - intros H Hact. destruct (Z.gtb_spec (mouse_over_id d) 0); [lia | ].
    rewrite Hact. unfold select_first_selected.
    destruct (find (fun c => existsb (Z.eqb c) selected_images) collected_images)
      as [id | ] eqn:Hfind.
    + right. destruct (find_first _ _ _ Hfind) as (pre & post & Hl & Hid & Hpre).
      exists pre, post. split; [exact Hl | ]. split; [apply selected_test; exact Hid | ].
      intros p Hp Hin. apply selected_test in Hin. rewrite (Hpre p Hp) in Hin.
      discriminate Hin.
    + left. split; [reflexivity | ]. intros c Hc Hin.
      pose proof (find_none _ _ Hfind c Hc) as Hf. cbn beta in Hf.
      apply selected_test in Hin. rewrite Hin in Hf. discriminate Hf.
Qed.

(** X7, witness: nothing is hovered, images 4 and 9 are active. *)
Lemma X7_main_image_witness :
  dt_act_on_get_main_image culling_2 [3; 4] [1; 2; 3; 4] = 4
  /\ In 4 (images_to_act_on culling_2 false true).
Proof.
  destruct (X7_main_image culling_2 [3; 4] [1; 2; 3; 4]) as (_ & H & _).
  destruct (H 4 [9]) as [H1 H2]; [cbn; lia | reflexivity | ].
  split; [exact H1 | exact (H2 false true)].
Defined.

End ActOnListFacts.

(** * More on the thumbnail table: lookups, geometry, moves, keys and zoom *)

Module ThumbtableLayoutFacts.
Import Thumbtable ThumbtableFacts.

(** ** Tables and collections used as examples *)

(* a new table in filemanager mode, and one in filmstrip mode *)
Definition grid_new : dt_thumbtable_t :=
  set_tb_mode DT_THUMBTABLE_MODE_FILEMANAGER (dt_thumbtable_new 1).

Definition strip_new : dt_thumbtable_t :=
  set_tb_mode DT_THUMBTABLE_MODE_FILMSTRIP (dt_thumbtable_new 1).

(* a viewport of 100 x 100 pixels at zoom 2 on twelve images, none selected *)
Definition grid_12 : collaborators :=
  mk_collab 100 100 2 [101; 102; 103; 104; 105; 106; 107; 108; 109; 110; 111; 112]
            [] (-1) (fun _ => false) (fun _ => -1).

(* the table after its first redraw: rows 1 to 6 in two columns of 50 pixels *)
Definition grid_12_top : dt_thumbtable_t :=
  Eval vm_compute in
    match dt_thumbtable_full_redraw 2 grid_12 grid_new true with
    | Done t => t
    | _ => grid_new
    end.

(** ** Row numbers and image ids *)

Lemma find_row_of_image (ids : list Z) (imgid : Z) :
  forall s,
    In imgid ids ->
    exists r,
      find (fun p : Z * Z => snd p =? imgid) (rows_from s ids) = Some (r, imgid)
      /\ s <= r < s + Z.of_nat (length ids)
      /\ find (fun p : Z * Z => fst p =? r) (rows_from s ids) = Some (r, imgid).
Proof.
  induction ids as [ | a ids IH]; intros s Hin; [destruct Hin | ].
  cbn [rows_from find fst snd length]. destruct (Z.eqb_spec a imgid) as [Heq | Hneq].
  - subst a. exists s. rewrite Z.eqb_refl. repeat split; lia.
  - destruct Hin as [Hin | Hin]; [contradiction | ].
    destruct (IH (s + 1) Hin) as (r & Hfind & Hr & Hback).
    exists r. split; [exact Hfind | ]. split; [lia | ].
    destruct (Z.eqb_spec s r); [lia | exact Hback].
Qed.

Lemma find_row_of_missing_image (ids : list Z) (imgid : Z) :
  forall s, ~ In imgid ids ->
            find (fun p : Z * Z => snd p =? imgid) (rows_from s ids) = None.
Proof.
  induction ids as [ | a ids IH]; intros s Hnotin; [reflexivity | ].
  cbn [rows_from find snd]. destruct (Z.eqb_spec a imgid) as [Heq | Hneq].
  - exfalso. apply Hnotin. left. exact Heq.
  - apply IH. intros Hin. apply Hnotin. right. exact Hin.
Qed.

Lemma find_image_of_row (ids : list Z) (r : Z) :
  forall s,
    NoDup ids -> s <= r < s + Z.of_nat (length ids) ->
    exists imgid,
      In imgid ids
      /\ find (fun p : Z * Z => fst p =? r) (rows_from s ids) = Some (r, imgid)
      /\ find (fun p : Z * Z => snd p =? imgid) (rows_from s ids) = Some (r, imgid).
Proof.
  induction ids as [ | a ids IH]; intros s Hnodup Hr; [cbn [length] in Hr; lia | ].
  apply NoDup_cons_iff in Hnodup. destruct Hnodup as [Ha Hnodup].
  cbn [rows_from find fst snd]. destruct (Z.eqb_spec s r) as [Heq | Hneq].
  - subst r. exists a. rewrite Z.eqb_refl. repeat split. left. reflexivity.
  - cbn [length] in Hr.
    destruct (IH (s + 1) Hnodup) as (imgid & Hin & Hfind & Hback); [lia | ].
    exists imgid. split; [right; exact Hin | ]. split; [exact Hfind | ].
    destruct (Z.eqb_spec a imgid) as [Heq | _]; [subst a; contradiction | exact Hback].
Qed.

Lemma find_image_of_missing_row (ids : list Z) (r : Z) :
  forall s, r < s \/ s + Z.of_nat (length ids) <= r ->
            find (fun p : Z * Z => fst p =? r) (rows_from s ids) = None.
Proof.
  induction ids as [ | a ids IH]; intros s Hr; [reflexivity | ].
  cbn [rows_from find fst]. cbn [length] in Hr.
  destruct (Z.eqb_spec s r) as [Heq | _]; [lia | ]. apply IH. lia.
Qed.

(** X8: row numbers and image ids.  For an image of the collection,
    _thumb_get_rowid returns a row number between 1 and the number of images
    and _thumb_get_imgid gives the image back from it; for an image that is
    not in the collection it returns -1.  _thumb_get_imgid returns -1 outside
    of the rows 1 to the number of images and, when no image is collected
    twice, _thumb_get_rowid gives the row back from the image it returns. *)
Theorem X8_rowid_imgid_round_trip (e : collaborators) :
  (forall imgid,
      In imgid (collected_images e) ->
      1 <= _thumb_get_rowid e imgid <= select_count e
      /\ _thumb_get_imgid e (_thumb_get_rowid e imgid) = imgid)
  /\ (forall imgid, ~ In imgid (collected_images e) -> _thumb_get_rowid e imgid = -1)
  /\ (forall rowid, rowid < 1 \/ select_count e < rowid -> _thumb_get_imgid e rowid = -1)
  /\ (forall rowid,
         NoDup (collected_images e) -> 1 <= rowid <= select_count e ->
         In (_thumb_get_imgid e rowid) (collected_images e)
         /\ _thumb_get_rowid e (_thumb_get_imgid e rowid) = rowid).
Proof.
  unfold _thumb_get_rowid, _thumb_get_imgid, collected_rows, select_count.
  split; [ | split; [ | split]].
  - intros imgid Hin.
    destruct (find_row_of_image _ imgid 1 Hin) as (r & Hfind & Hr & Hback).
    rewrite Hfind. cbn [fst]. rewrite Hback. cbn [snd]. split; [lia | reflexivity].
  - intros imgid Hnotin. rewrite (find_row_of_missing_image _ imgid 1 Hnotin). reflexivity.
  - intros rowid Hr. rewrite (find_image_of_missing_row _ rowid 1); [reflexivity | lia].
  - intros rowid Hnodup Hr.
    destruct (find_image_of_row _ rowid 1 Hnodup) as (imgid & Hin & Hfind & Hback); [lia | ].
    rewrite Hfind. cbn [snd]. rewrite Hback. cbn [fst]. split; [exact Hin | reflexivity].
Qed.

(* a collection of three images *)
Definition collection_3 : collaborators :=
  mk_collab 100 100 2 [40; 50; 60] [] (-1) (fun _ => false) (fun _ => -1).

(** X8, witness: image 50 is on row 2 of a collection of three images. *)
Lemma X8_rowid_imgid_round_trip_witness :
  _thumb_get_rowid collection_3 50 = 2
  /\ _thumb_get_imgid collection_3 (_thumb_get_rowid collection_3 50) = 50.
Proof.
  split; [reflexivity | ].
  apply (proj1 (X8_rowid_imgid_round_trip collection_3) 50). cbn. right. left. reflexivity.
Defined.

(** X9: dt_thumbtable_set_offset_image writes the offset image before it
    looks the row up.  For an image that is not in the collection the call
    returns FALSE and the offset is kept, yet the image is recorded as the
    offset image.  For an image of the collection on another row than the
    offset, without redraw, the call returns TRUE, the offset is the row of
    the image and the offset image is the image of that row; nothing else
    changes. *)
Theorem X9_set_offset_image (fuel : nat) (e : collaborators) (t : dt_thumbtable_t)
        (imgid : Z) (redraw : bool) :
  (~ In imgid (collected_images e) ->
   dt_thumbtable_set_offset_image fuel e t imgid redraw
   = Done (set_tb_offset_imgid imgid t, false))
  /\ (In imgid (collected_images e) -> _thumb_get_rowid e imgid <> tb_offset t ->
      dt_thumbtable_set_offset_image fuel e t imgid false
      = Done (set_tb_offset (_thumb_get_rowid e imgid) (set_tb_offset_imgid imgid t), true)
      /\ _thumb_get_imgid e (_thumb_get_rowid e imgid) = imgid).
Proof.
  unfold dt_thumbtable_set_offset_image, dt_thumbtable_set_offset. split.
  - intros Hnotin.
    assert (Hr : _thumb_get_rowid e imgid = -1).
    { unfold _thumb_get_rowid, collected_rows.
      rewrite (find_row_of_missing_image _ imgid 1 Hnotin). reflexivity. }
    rewrite Hr. reflexivity.
  - intros Hin Hneq.
    assert (Hr : 1 <= _thumb_get_rowid e imgid
                 /\ _thumb_get_imgid e (_thumb_get_rowid e imgid) = imgid).
    { unfold _thumb_get_rowid, _thumb_get_imgid, collected_rows.
      destruct (find_row_of_image _ imgid 1 Hin) as (r & Hfind & Hr & Hback).
      rewrite Hfind. cbn [fst]. rewrite Hback. split; [lia | reflexivity]. }
    destruct Hr as [Hr Hback]. split; [ | exact Hback].
    destruct (Z.ltb_spec (_thumb_get_rowid e imgid) 1) as [Hlt | _]; [lia | ].
    cbn [orb tb_offset set_tb_offset_imgid].
    destruct (Z.eqb_spec (_thumb_get_rowid e imgid) (tb_offset t)) as [Heq | _];
      [contradiction | ].
    reflexivity.
Qed.

(** X9, witness: on a new table, the offset is set to image 50, then to an
    image that is not collected. *)
Lemma X9_set_offset_image_witness :
  dt_thumbtable_set_offset_image 0 collection_3 (dt_thumbtable_new 1) 50 false
  = Done (set_tb_offset 2 (set_tb_offset_imgid 50 (dt_thumbtable_new 1)), true)
  /\ dt_thumbtable_set_offset_image 0 collection_3 (dt_thumbtable_new 1) 70 true
     = Done (set_tb_offset_imgid 70 (dt_thumbtable_new 1), false).
Proof.
  destruct (X9_set_offset_image 0 collection_3 (dt_thumbtable_new 1) 50 false) as [_ H1].
  destruct (X9_set_offset_image 0 collection_3 (dt_thumbtable_new 1) 70 true) as [H2 _].
  split.
  - apply H1; [cbn; right; left; reflexivity | cbn; discriminate].
  - apply H2. cbn. intros [H | [H | [H | []]]]; discriminate H.
Defined.

(** ** Geometry of the grid *)

(* the size test of _compute_sizes in filemanager mode *)
Definition grid_sizes_stale (e : collaborators) (t : dt_thumbtable_t) (force : bool) : Prop :=
  force = true
  \/ allocation_width e <> tb_view_width t
  \/ allocation_height e <> tb_view_height t
  \/ lighttable_zoom e <> tb_thumbs_per_row t.

Lemma grid_sizes_stale_test (e : collaborators) (t : dt_thumbtable_t) (force : bool) :
  grid_sizes_stale e t force ->
  force || negb (allocation_width e =? tb_view_width t)
  || negb (allocation_height e =? tb_view_height t)
  || negb (lighttable_zoom e =? tb_thumbs_per_row t) = true.
Proof.
  intros [H | [H | [H | H]]].
  - subst force. reflexivity.
  - apply Z.eqb_neq in H. rewrite H. cbn. rewrite orb_true_r. reflexivity.
  - apply Z.eqb_neq in H. rewrite H. cbn. rewrite !orb_true_r. reflexivity.
  - apply Z.eqb_neq in H. rewrite H. cbn. rewrite !orb_true_r. reflexivity.
Qed.

(** X10: geometry of the grid.  In filemanager mode, for a viewport larger
    than 20 pixels in both directions and a zoom between 1 and the viewport
    width, _compute_sizes, when it recomputes, sets thumbs_per_row to the
    zoom and thumb_size to the smaller of viewport_width / zoom and the
    viewport height, which is at least 1; rows is viewport_height /
    thumb_size + 1, so the rows cover the viewport height and all but the
    last fit in it; the row of thumbnails fits in the viewport width and
    center_offset centers it, to the pixel.  The window and the offset are
    not touched. *)
Theorem X10_grid_geometry (e : collaborators) (t : dt_thumbtable_t) (force : bool) :
  tb_mode t = DT_THUMBTABLE_MODE_FILEMANAGER ->
  20 < allocation_width e -> 20 < allocation_height e ->
  1 <= lighttable_zoom e <= allocation_width e ->
  grid_sizes_stale e t force ->
  exists t',
    _compute_sizes e t force = Done (t', true)
    /\ tb_thumbs_per_row t' = lighttable_zoom e
    /\ tb_thumb_size t'
       = Z.min (Z.quot (allocation_width e) (lighttable_zoom e)) (allocation_height e)
    /\ 1 <= tb_thumb_size t'
    /\ tb_rows t' = Z.quot (allocation_height e) (tb_thumb_size t') + 1
    /\ (tb_rows t' - 1) * tb_thumb_size t' <= allocation_height e
       < tb_rows t' * tb_thumb_size t'
    /\ 0 <= tb_center_offset t'
    /\ tb_thumbs_per_row t' * tb_thumb_size t' + 2 * tb_center_offset t'
       <= allocation_width e
       <= tb_thumbs_per_row t' * tb_thumb_size t' + 2 * tb_center_offset t' + 1
    /\ tb_list t' = tb_list t /\ tb_offset t' = tb_offset t.
Proof.
  intros Hmode Hw Hh Hz Hstale.
  unfold _compute_sizes.
  rewrite (regular_test e Hw Hh), Hmode, (grid_sizes_stale_test e t force Hstale).
  rewrite c_div_done by lia. cbn [bind]. rewrite MIN_is_min.
  set (n := lighttable_zoom e) in *.
  set (q := Z.quot (allocation_width e) n).
  assert (Hq : 1 <= q /\ n * q <= allocation_width e).
  { pose proof (Z.quot_rem' (allocation_width e) n) as Hqr.
    pose proof (Z.rem_bound_pos (allocation_width e) n) as Hb. fold q in Hqr.
    assert (0 <= q) by (apply Z.quot_pos; lia). nia. }
  set (size := Z.min q (allocation_height e)).
  assert (Hsize : 1 <= size <= q) by (unfold size; lia).
  rewrite c_div_done by lia. cbn [bind].
  eexists. split; [reflexivity | ].
  cbn [tb_thumbs_per_row tb_thumb_size tb_rows tb_center_offset tb_list tb_offset
       set_tb_sizes].
  set (r := Z.quot (allocation_height e) size).
  pose proof (Z.quot_rem' (allocation_height e) size) as Hqr. fold r in Hqr.
  assert (Hb : 0 <= Z.rem (allocation_height e) size < size)
    by (apply Z.rem_bound_pos; lia).
  assert (Hfit : 0 <= allocation_width e - n * size) by nia.
  set (c := Z.quot (allocation_width e - n * size) 2).
  pose proof (Z.quot_rem' (allocation_width e - n * size) 2) as Hc. fold c in Hc.
  assert (Hcb : 0 <= Z.rem (allocation_width e - n * size) 2 < 2)
    by (apply Z.rem_bound_pos; lia).
  assert (0 <= c) by (apply Z.quot_pos; lia).
  repeat split; try reflexivity; try lia; nia.
Qed.

(* a grid of 100 x 70 pixels, three thumbnails per row *)
Definition grid_100_70 : collaborators :=
  mk_collab 100 70 3 [40; 50; 60] [] (-1) (fun _ => false) (fun _ => -1).

(** X10, witness: a grid of 100 x 70 pixels at zoom 3 has thumbnails of 33
    pixels, three rows and a center offset of 0. *)
Lemma X10_grid_geometry_witness :
  exists t',
    _compute_sizes grid_100_70 grid_new true = Done (t', true)
    /\ tb_thumb_size t' = 33 /\ tb_rows t' = 3 /\ tb_center_offset t' = 0.
Proof.
  destruct (X10_grid_geometry grid_100_70 grid_new true)
    as (t' & H & Hpr & Hsize & _ & Hrows & _ & Hc0 & Hcenter & _).
  - reflexivity.
  - cbn. lia.
  - cbn. lia.
  - cbn. lia.
  - left. reflexivity.
  - exists t'. split; [exact H | ].
    change (tb_thumb_size t' = 33) in Hsize.
    change (tb_thumbs_per_row t' = 3) in Hpr.
    change (allocation_width grid_100_70) with 100 in Hcenter.
    rewrite Hpr, Hsize in Hcenter.
    split; [exact Hsize | ]. split; [rewrite Hrows, Hsize; reflexivity | ]. lia.
Defined.

(** X11: a zoom out of range divides by zero.  In filemanager mode, for a
    viewport larger than 20 pixels, _compute_sizes, when it recomputes,
    divides by zero if the zoom is 0 (viewport_width / zoom) and if the zoom
    is larger than the viewport width (thumb_size is then 0 and divides the
    viewport height). *)
Theorem X11_zoom_out_of_range (e : collaborators) (t : dt_thumbtable_t) (force : bool) :
  tb_mode t = DT_THUMBTABLE_MODE_FILEMANAGER ->
  20 < allocation_width e -> 20 < allocation_height e ->
  grid_sizes_stale e t force ->
  lighttable_zoom e = 0 \/ allocation_width e < lighttable_zoom e ->
  _compute_sizes e t force = Fault.
Proof.
  intros Hmode Hw Hh Hstale Hzoom.
  unfold _compute_sizes.
  rewrite (regular_test e Hw Hh), Hmode, (grid_sizes_stale_test e t force Hstale).
  destruct Hzoom as [Hzero | Hlarge].
  - rewrite Hzero. reflexivity.
  - rewrite c_div_done by lia. cbn [bind].
    rewrite (Z.quot_small (allocation_width e) (lighttable_zoom e)) by lia.
    rewrite MIN_is_min. rewrite Z.min_l by lia. reflexivity.
Qed.

(** X11, witness: a viewport of 21 x 21 pixels at zoom 25. *)
Lemma X11_zoom_out_of_range_witness :
  _compute_sizes (mk_collab 21 21 25 [] [] (-1) (fun _ => false) (fun _ => -1))
                 grid_new true
  = Fault.
Proof.
  apply X11_zoom_out_of_range.
  - reflexivity.
  - cbn. lia.
  - cbn. lia.
  - left. reflexivity.
  - right. cbn. lia.
Defined.

(** ** Positions *)

(** X12: _pos_get_next and _pos_get_previous undo each other.  In filemanager
    mode, when the row of thumbnails leaves less than one thumbnail of free
    width (the center offset is below thumb_size and a further thumbnail does
    not fit in the viewport), from the position of column c of a row the next
    position is column c + 1 of the row, or the first column of the next row
    after the last column, and the previous position of that is the position
    one started from; the same holds the other way round.  In filmstrip mode
    the two functions add and subtract thumb_size and always undo each
    other. *)
Theorem X12_next_previous (t : dt_thumbtable_t) (c y : Z) :
  (tb_mode t = DT_THUMBTABLE_MODE_FILEMANAGER ->
   0 <= tb_center_offset t < tb_thumb_size t ->
   tb_center_offset t + tb_thumbs_per_row t * tb_thumb_size t <= tb_view_width t ->
   tb_view_width t < tb_center_offset t + (tb_thumbs_per_row t + 1) * tb_thumb_size t ->
   0 <= c < tb_thumbs_per_row t ->
   let x := tb_center_offset t + c * tb_thumb_size t in
   _pos_get_next t x y
   = (if c + 1 <? tb_thumbs_per_row t then (x + tb_thumb_size t, y)
      else (tb_center_offset t, y + tb_thumb_size t))
   /\ _pos_get_previous t x y
      = (if 0 <? c then (x - tb_thumb_size t, y)
         else (tb_center_offset t + (tb_thumbs_per_row t - 1) * tb_thumb_size t,
               y - tb_thumb_size t))
   /\ _pos_get_previous t (fst (_pos_get_next t x y)) (snd (_pos_get_next t x y)) = (x, y)
   /\ _pos_get_next t (fst (_pos_get_previous t x y)) (snd (_pos_get_previous t x y))
      = (x, y))
  /\ (tb_mode t = DT_THUMBTABLE_MODE_FILMSTRIP ->
      forall x,
        _pos_get_previous t (fst (_pos_get_next t x y)) (snd (_pos_get_next t x y)) = (x, y)
        /\ _pos_get_next t (fst (_pos_get_previous t x y)) (snd (_pos_get_previous t x y))
           = (x, y)).
Proof.
  split.
  - intros Hmode Hcenter Hfit Htight Hc x.
    set (size := tb_thumb_size t) in *. set (n := tb_thumbs_per_row t) in *.
    set (center := tb_center_offset t) in *.
    assert (Hnext : _pos_get_next t x y
                    = if c + 1 <? n then (x + size, y) else (center, y + size)).
    { unfold _pos_get_next. rewrite Hmode. fold size center.
      destruct (Z.ltb_spec (c + 1) n) as [Hlt | Hge].
      - destruct (Z.gtb_spec (x + size + size) (tb_view_width t)) as [Hgt | _];
          [ | reflexivity].
        exfalso. unfold x in Hgt. nia.
      - destruct (Z.gtb_spec (x + size + size) (tb_view_width t)) as [_ | Hle];
          [reflexivity | ].
        exfalso. unfold x in Hle. assert (c = n - 1) by lia. subst c. nia. }
    assert (Hprev : _pos_get_previous t x y
                    = if 0 <? c then (x - size, y)
                      else (center + (n - 1) * size, y - size)).
    { unfold _pos_get_previous. rewrite Hmode. fold size center n.
      destruct (Z.ltb_spec 0 c) as [Hpos | Hzero].
      - destruct (Z.ltb_spec (x - size) 0) as [Hlt | _]; [ | reflexivity].
        exfalso. unfold x in Hlt. nia.
      - assert (c = 0) by lia. subst c. unfold x.
        destruct (Z.ltb_spec (center + 0 * size - size) 0) as [_ | Hge]; [ | lia].
        f_equal. lia. }
    split; [exact Hnext | ]. split; [exact Hprev | ]. split.
    + rewrite Hnext. unfold _pos_get_previous. rewrite Hmode. fold size center n.
      destruct (Z.ltb_spec (c + 1) n) as [Hlt | Hge]; cbn [fst snd].
      * destruct (Z.ltb_spec (x + size - size) 0) as [Hneg | _].
        -- exfalso. unfold x in Hneg. nia.
        -- f_equal. lia.
      * destruct (Z.ltb_spec (center - size) 0) as [_ | Hge0]; [ | lia].
        assert (c = n - 1) by lia. subst c. unfold x. f_equal; lia.
    + rewrite Hprev. unfold _pos_get_next. rewrite Hmode. fold size center.
      destruct (Z.ltb_spec 0 c) as [Hpos | Hzero]; cbn [fst snd].
      * destruct (Z.gtb_spec (x - size + size + size) (tb_view_width t)) as [Hgt | _].
        -- exfalso. unfold x in Hgt. nia.
        -- f_equal. lia.
      * assert (c = 0) by lia. subst c.
        destruct (Z.gtb_spec (center + (n - 1) * size + size + size) (tb_view_width t))
          as [_ | Hle].
        -- unfold x. f_equal; lia.
        -- exfalso. nia.
  - intros Hmode x. unfold _pos_get_next, _pos_get_previous. rewrite Hmode.
    cbn [fst snd]. split; f_equal; lia.
Qed.

(** X12, witness: the last column of a row of two thumbnails of 50 pixels in
    a viewport of 100 pixels. *)
Lemma X12_next_previous_witness :
  _pos_get_next grid_12_top 50 0 = (0, 50)
  /\ _pos_get_previous grid_12_top 0 50 = (50, 0).
Proof.
  destruct (proj1 (X12_next_previous grid_12_top 1 0)) as (H1 & _ & H3 & _).
  - reflexivity.
  - cbn. lia.
  - cbn. lia.
  - cbn. lia.
  - cbn. lia.
  - split; [exact H1 | ]. rewrite H1 in H3. exact H3.
Defined.

(** ** The area of the thumbnails *)

Lemma fold_min_spec (f : dt_thumbnail_t -> Z) (l : list dt_thumbnail_t) :
  forall init,
    let m := fold_left (fun a th => MIN a (f th)) l init in
    m <= init
    /\ (forall th, In th l -> m <= f th)
    /\ (m = init \/ exists th, In th l /\ m = f th).
Proof.
  induction l as [ | h l IH]; intros init; cbn [fold_left].
  - split; [lia | ]. split; [intros th [] | left; reflexivity].
  - destruct (IH (MIN init (f h))) as (Hle & Hall & Hcase).
    rewrite MIN_is_min in *. split; [lia | ]. split.
    + intros th [Hth | Hth]; [subst th; lia | exact (Hall th Hth)].
    + destruct Hcase as [Hm | (th & Hth & Hm)].
      * destruct (Z.min_spec init (f h)) as [[_ Hmin] | [_ Hmin]].
        -- left. rewrite Hm. exact Hmin.
        -- right. exists h. split; [left; reflexivity | rewrite Hm; exact Hmin].
      * right. exists th. split; [right; exact Hth | exact Hm].
Qed.

Lemma fold_max_spec (f : dt_thumbnail_t -> Z) (l : list dt_thumbnail_t) :
  forall init,
    let m := fold_left (fun a th => MAX a (f th)) l init in
    init <= m
    /\ (forall th, In th l -> f th <= m)
    /\ (m = init \/ exists th, In th l /\ m = f th).
Proof.
  induction l as [ | h l IH]; intros init; cbn [fold_left].
  - split; [lia | ]. split; [intros th [] | left; reflexivity].
  - destruct (IH (MAX init (f h))) as (Hle & Hall & Hcase).
    rewrite MAX_is_max in *. split; [lia | ]. split.
    + intros th [Hth | Hth]; [subst th; lia | exact (Hall th Hth)].
    + destruct Hcase as [Hm | (th & Hth & Hm)].
      * destruct (Z.max_spec init (f h)) as [[_ Hmax] | [_ Hmax]].
        -- right. exists h. split; [left; reflexivity | rewrite Hm; exact Hmax].
        -- left. rewrite Hm. exact Hmax.
      * right. exists th. split; [right; exact Hth | exact Hm].
Qed.

(* the least value of [f] on a list that is not empty, values being C ints *)
Lemma fold_min_attained (f : dt_thumbnail_t -> Z) (l : list dt_thumbnail_t) :
  l <> [] -> Forall (fun th => f th <= INT_MAX) l ->
  let m := fold_left (fun a th => MIN a (f th)) l INT_MAX in
  (forall th, In th l -> m <= f th) /\ exists th, In th l /\ f th = m.
Proof.
  intros Hne Hint m. destruct (fold_min_spec f l INT_MAX) as (Hle & Hall & Hcase).
  fold m in Hle, Hall, Hcase. split; [exact Hall | ].
  destruct Hcase as [Hm | (th & Hth & Hm)].
  - destruct l as [ | h l]; [contradiction | ]. exists h. split; [left; reflexivity | ].
    pose proof (Hall h (or_introl eq_refl)) as H1.
    apply Forall_inv in Hint. lia.
  - exists th. split; [exact Hth | symmetry; exact Hm].
Qed.

Lemma fold_max_attained (f : dt_thumbnail_t -> Z) (l : list dt_thumbnail_t) :
  l <> [] -> Forall (fun th => INT_MIN <= f th) l ->
  let m := fold_left (fun a th => MAX a (f th)) l INT_MIN in
  (forall th, In th l -> f th <= m) /\ exists th, In th l /\ f th = m.
Proof.
  intros Hne Hint m. destruct (fold_max_spec f l INT_MIN) as (Hle & Hall & Hcase).
  fold m in Hle, Hall, Hcase. split; [exact Hall | ].
  destruct Hcase as [Hm | (th & Hth & Hm)].
  - destruct l as [ | h l]; [contradiction | ]. exists h. split; [left; reflexivity | ].
    pose proof (Hall h (or_introl eq_refl)) as H1.
    apply Forall_inv in Hint. lia.
  - exists th. split; [exact Hth | symmetry; exact Hm].
Qed.

(* the coordinates of the thumbnail are C ints *)
Definition int_position (th : dt_thumbnail_t) : Prop :=
  INT_MIN <= th_x th <= INT_MAX /\ INT_MIN <= th_y th <= INT_MAX.

(** X13: the thumbs area is the bounding box of the window.  For a window
    that is not empty, _pos_compute_area stores a rectangle that contains the
    square of thumb_size pixels of every entry and whose four sides are
    reached: some entry starts at its left side, some at its top, some square
    ends at its right side and some at its bottom.  No other field of the
    table is written. *)
Theorem X13_thumbs_area_bounds (t : dt_thumbtable_t) :
  tb_list t <> [] -> Forall int_position (tb_list t) ->
  let a := tb_thumbs_area (_pos_compute_area t) in
  _pos_compute_area t = set_tb_thumbs_area a t
  /\ (forall th, In th (tb_list t) ->
        r_x a <= th_x th /\ th_x th + tb_thumb_size t <= r_x a + r_width a
        /\ r_y a <= th_y th /\ th_y th + tb_thumb_size t <= r_y a + r_height a)
  /\ (exists th, In th (tb_list t) /\ th_x th = r_x a)
  /\ (exists th, In th (tb_list t) /\ th_y th = r_y a)
  /\ (exists th, In th (tb_list t) /\ th_x th + tb_thumb_size t = r_x a + r_width a)
  /\ (exists th, In th (tb_list t) /\ th_y th + tb_thumb_size t = r_y a + r_height a).
Proof.
  intros Hne Hint a.
  assert (Hx1 : Forall (fun th => th_x th <= INT_MAX) (tb_list t))
    by (eapply Forall_impl; [ | exact Hint]; intros th [H _]; lia).
  assert (Hy1 : Forall (fun th => th_y th <= INT_MAX) (tb_list t))
    by (eapply Forall_impl; [ | exact Hint]; intros th [_ H]; lia).
  assert (Hx2 : Forall (fun th => INT_MIN <= th_x th) (tb_list t))
    by (eapply Forall_impl; [ | exact Hint]; intros th [H _]; lia).
  assert (Hy2 : Forall (fun th => INT_MIN <= th_y th) (tb_list t))
    by (eapply Forall_impl; [ | exact Hint]; intros th [_ H]; lia).
  destruct (fold_min_attained th_x _ Hne Hx1) as [Hminx (thx1 & Hinx1 & Heqx1)].
  destruct (fold_min_attained th_y _ Hne Hy1) as [Hminy (thy1 & Hiny1 & Heqy1)].
  destruct (fold_max_attained th_x _ Hne Hx2) as [Hmaxx (thx2 & Hinx2 & Heqx2)].
  destruct (fold_max_attained th_y _ Hne Hy2) as [Hmaxy (thy2 & Hiny2 & Heqy2)].
  assert (Hextent : forall lo hi,
             area_extent (tb_list t) lo hi (tb_thumb_size t) = hi + tb_thumb_size t - lo)
    by (destruct (tb_list t); [contradiction | reflexivity]).
  subst a. unfold _pos_compute_area.
  cbn [tb_thumbs_area set_tb_thumbs_area r_x r_y r_width r_height]. rewrite !Hextent.
  split; [reflexivity | ]. split.
  - intros th Hth. pose proof (Hminx th Hth). pose proof (Hminy th Hth).
    pose proof (Hmaxx th Hth). pose proof (Hmaxy th Hth). repeat split; lia.
  - split; [exists thx1; split; [exact Hinx1 | exact Heqx1] | ].
    split; [exists thy1; split; [exact Hiny1 | exact Heqy1] | ].
    split; [exists thx2; split; [exact Hinx2 | lia] | ].
    exists thy2. split; [exact Hiny2 | lia].
Qed.

(** X13, witness: the window of the first redraw of a grid of two columns of
    50 pixels on twelve images spans 100 x 150 pixels. *)
Lemma X13_thumbs_area_bounds_witness :
  tb_thumbs_area (_pos_compute_area grid_12_top) = mk_rect 0 0 100 150
  /\ forall th, In th (tb_list grid_12_top) -> 0 <= th_x th /\ th_x th + 50 <= 100.
Proof.
  split; [reflexivity | ].
  assert (Hne : tb_list grid_12_top <> []) by (cbn; discriminate).
  assert (Hint : Forall int_position (tb_list grid_12_top)).
  { cbn. repeat constructor; cbn; unfold INT_MIN, INT_MAX; lia. }
  destruct (X13_thumbs_area_bounds grid_12_top Hne Hint) as (_ & Hall & _).
  intros th Hth. destruct (Hall th Hth) as (H1 & H2 & _). split; [exact H1 | exact H2].
Defined.

(** ** Incremental moves *)

(* the fields that decide which thumbnails are visible and where they go *)
Definition view_of (t : dt_thumbtable_t) : dt_thumbtable_mode_t * Z * Z * Z * Z * Z :=
  (tb_mode t, tb_thumb_size t, tb_view_width t, tb_view_height t, tb_thumbs_per_row t,
   tb_rows t).

(* [t'] is [t] with newly allocated thumbnails before and after its window *)
Definition loaded (t t' : dt_thumbtable_t) : Prop :=
  view_of t' = view_of t
  /\ (tb_next_obj t <= tb_next_obj t')%nat
  /\ exists pre post,
       tb_list t' = pre ++ tb_list t ++ post
       /\ Forall (fun th => (tb_next_obj t <= th_obj th < tb_next_obj t')%nat) (pre ++ post).

Lemma loaded_refl (t : dt_thumbtable_t) : loaded t t.
Proof.
  split; [reflexivity | ]. split; [lia | ]. exists [], [].
  split; [cbn; symmetry; apply app_nil_r | constructor].
Qed.

Lemma loaded_trans (t1 t2 t3 : dt_thumbtable_t) : loaded t1 t2 -> loaded t2 t3 -> loaded t1 t3.
Proof.
  intros (Hv12 & Hn12 & pre & post & Hl12 & Hf12) (Hv23 & Hn23 & pre' & post' & Hl23 & Hf23).
  split; [rewrite Hv23; exact Hv12 | ]. split; [lia | ].
  exists (pre' ++ pre), (post ++ post'). split.
  - rewrite Hl23, Hl12. rewrite <- !app_assoc. reflexivity.
  - apply Forall_app in Hf12. destruct Hf12 as [Hpre Hpost].
    apply Forall_app in Hf23. destruct Hf23 as [Hpre' Hpost'].
    assert (Hweak : forall l,
               Forall (fun th => (tb_next_obj t1 <= th_obj th < tb_next_obj t2)%nat) l ->
               Forall (fun th => (tb_next_obj t1 <= th_obj th < tb_next_obj t3)%nat) l).
    { intros l. apply Forall_impl. intros th. lia. }
    assert (Hweak' : forall l,
               Forall (fun th => (tb_next_obj t2 <= th_obj th < tb_next_obj t3)%nat) l ->
               Forall (fun th => (tb_next_obj t1 <= th_obj th < tb_next_obj t3)%nat) l).
    { intros l. apply Forall_impl. intros th. lia. }
    repeat (apply Forall_app; split); auto.
Qed.

Lemma loaded_prepend (e : collaborators) (t : dt_thumbtable_t) (imgid rowid posx posy : Z) :
  loaded t (set_tb_next_obj (S (tb_next_obj t))
              (set_tb_list (new_thumb_at e t imgid rowid posx posy :: tb_list t) t)).
Proof.
  split; [reflexivity | ]. split; [cbn; lia | ].
  exists [new_thumb_at e t imgid rowid posx posy], []. split.
  - cbn. rewrite app_nil_r. reflexivity.
  - constructor; [cbn; lia | constructor].
Qed.

Lemma loaded_append (e : collaborators) (t : dt_thumbtable_t) (imgid rowid posx posy : Z) :
  loaded t (set_tb_next_obj (S (tb_next_obj t))
              (set_tb_list (tb_list t ++ [new_thumb_at e t imgid rowid posx posy]) t)).
Proof.
  split; [reflexivity | ]. split; [cbn; lia | ].
  exists [], [new_thumb_at e t imgid rowid posx posy]. split.
  - reflexivity.
  - constructor; [cbn; lia | constructor].
Qed.

Lemma load_at_start_loaded (e : collaborators) (q : list (Z * Z)) :
  forall t posx posy changed, loaded t (fst (load_at_start e t q posx posy changed)).
Proof.
  induction q as [ | [rowid imgid] q IH]; intros t posx posy changed; cbn [load_at_start].
  - apply loaded_refl.
  - destruct (posy <? tb_view_height t).
    + destruct (_pos_get_previous _ posx posy) as [px py].
      exact (loaded_trans _ _ _ (loaded_prepend e t imgid rowid posx posy) (IH _ _ _ _)).
    + destruct (_pos_get_previous t posx posy) as [px py]. apply IH.
Qed.

Lemma load_at_end_loaded (e : collaborators) (q : list (Z * Z)) :
  forall t posx posy changed, loaded t (fst (load_at_end e t q posx posy changed)).
Proof.
  induction q as [ | [rowid imgid] q IH]; intros t posx posy changed; cbn [load_at_end].
  - apply loaded_refl.
  - destruct (posy + tb_thumb_size t >=? 0).
    + destruct (_pos_get_next _ posx posy) as [px py].
      exact (loaded_trans _ _ _ (loaded_append e t imgid rowid posx posy) (IH _ _ _ _)).
    + destruct (_pos_get_next t posx posy) as [px py]. apply IH.
Qed.

Lemma thumbs_load_needed_loaded (e : collaborators) (t t' : dt_thumbtable_t) (changed : Z) :
  _thumbs_load_needed e t = Done (t', changed) -> loaded t t'.
Proof.
  unfold _thumbs_load_needed. destruct (tb_list t) as [ | first l].
  - intros H. inversion H. apply loaded_refl.
  - intros H. apply bind_done in H. destruct H as ([t1 c1] & H1 & H).
    assert (Ht1 : loaded t t1).
    { destruct ((th_rowid first >? 1)
                && (is_filemanager t && (th_y first >? 0)
                    || is_filmstrip t && (th_x first >? 0))).
      - apply bind_done in H1. destruct H1 as (n & _ & H1).
        destruct (_pos_get_previous t (th_x first) (th_y first)) as [px py].
        inversion H1 as [Heq].
        pose proof (load_at_start_loaded e
                      (select_rows_lt_desc e (th_rowid first) (n * tb_thumbs_per_row t))
                      t px py 0) as Hl.
        rewrite Heq in Hl. exact Hl.
      - inversion H1. apply loaded_refl. }
    apply bind_done in H. destruct H as (last & _ & H).
    match type of H with (if ?c then _ else _) = _ => destruct c end.
    + apply bind_done in H. destruct H as (n & _ & H).
      destruct (_pos_get_next t1 (th_x last) (th_y last)) as [px py].
      inversion H as [Heq].
      pose proof (load_at_end_loaded e
                    (select_rows_gt e (th_rowid last) (n * tb_thumbs_per_row t1))
                    t1 px py c1) as Hl.
      rewrite Heq in Hl. exact (loaded_trans _ _ _ Ht1 Hl).
    + inversion H. subst. exact Ht1.
Qed.

Lemma thumb_unneeded_view (t t' : dt_thumbtable_t) (th : dt_thumbnail_t) :
  view_of t' = view_of t -> thumb_unneeded t' th = thumb_unneeded t th.
Proof.
  unfold view_of. intros H. inversion H as [[Hm Hs Hw Hh Hp Hr]].
  unfold thumb_unneeded, is_filmstrip. rewrite Hm, Hs, Hw, Hh. reflexivity.
Qed.

(* the thumbnail moved by (dx, dy) *)
Definition shifted (dx dy : Z) (th : dt_thumbnail_t) : dt_thumbnail_t :=
  set_th_pos (th_x th + dx) (th_y th + dy) th.

(* what move_apply leaves in the window *)
Lemma move_apply_window (e : collaborators) (t t' : dt_thumbtable_t) (posx posy : Z) :
  move_apply e t posx posy = Done (t', true) ->
  exists t3,
    loaded (set_tb_list (map (shifted posx posy) (tb_list t)) t) t3
    /\ tb_list t' = filter (fun th => negb (thumb_unneeded t3 th)) (tb_list t3)
    /\ view_of t' = view_of t3
    /\ tb_next_obj t' = tb_next_obj t3.
Proof.
  unfold move_apply. destruct ((posy =? 0) && (posx =? 0)); [discriminate | ].
  intros H. apply bind_done in H. destruct H as ([t3 changed] & Hload & H).
  apply thumbs_load_needed_loaded in Hload.
  exists t3. split.
  { destruct Hload as (Hv & Hn & pre & post & Hl & Hf).
    split; [exact Hv | ]. split; [exact Hn | ]. exists pre, post.
    split; [exact Hl | exact Hf]. }
  cbn [_thumbs_remove_unneeded] in H.
  match type of H with
  | bind (match tb_mode ?t5 with _ => _ end) _ = _ =>
      assert (H5 : tb_list t5 = filter (fun th => negb (thumb_unneeded t3 th)) (tb_list t3)
                   /\ view_of t5 = view_of t3 /\ tb_next_obj t5 = tb_next_obj t3);
      [ | set (t5' := t5) in *; clearbody t5' ]
  end.
  { match goal with |- tb_list (if ?c then _ else _) = _ /\ _ => destruct c end;
      repeat split. }
  destruct H5 as (Hl5 & Hv5 & Hn5).
  apply bind_done in H. destruct H as (t6 & H6 & H).
  apply bind_done in H. destruct H as (u & _ & H). inversion H. subst t'. clear H.
  unfold view_of in *.
  destruct (tb_mode t5') eqn:Hmode.
  - inversion H6. subst t6. rewrite Hmode. repeat split; assumption.
  - apply bind_done in H6. destruct H6 as (q & _ & H6). inversion H6.
    cbn. rewrite Hmode. repeat split; assumption.
  - apply bind_done in H6. destruct H6 as (q & _ & H6). inversion H6.
    cbn. rewrite Hmode. repeat split; assumption.
Qed.

(* the test of _thumbs_remove_unneeded fails exactly between these bounds *)
Lemma thumb_unneeded_bounds (t : dt_thumbtable_t) (th : dt_thumbnail_t) :
  thumb_unneeded t th = false
  <-> - tb_thumb_size t < th_y th <= tb_view_height t
      /\ (tb_mode t = DT_THUMBTABLE_MODE_FILMSTRIP ->
          - tb_thumb_size t < th_x th <= tb_view_width t).
Proof.
  unfold thumb_unneeded, is_filmstrip.
  destruct (Z.leb_spec (th_y th + tb_thumb_size t) 0) as [Hy1 | Hy1];
    destruct (Z.gtb_spec (th_y th) (tb_view_height t)) as [Hy2 | Hy2];
    cbn [orb]; try (split; [discriminate | intros [Hy _]; lia]).
  destruct (tb_mode t); cbn [mode_eqb andb].
  - split; [intros _; split; [lia | discriminate] | reflexivity].
  - split; [intros _; split; [lia | discriminate] | reflexivity].
  - destruct (Z.leb_spec (th_x th + tb_thumb_size t) 0) as [Hx1 | Hx1];
      destruct (Z.gtb_spec (th_x th) (tb_view_width t)) as [Hx2 | Hx2];
      cbn [orb]; try (split; [discriminate | intros [_ Hx]; specialize (Hx eq_refl); lia]).
    split; [intros _; split; [lia | intros _; lia] | reflexivity].
Qed.

(** X14: an accepted move shifts the window as a whole.  When _move, not
    clamped, returns TRUE on a table whose entries were allocated before
    (their objects are below the allocation counter), every entry of the new
    window is either an entry of the old window moved by exactly (x, y), the
    same object with all its other fields unchanged, or a thumbnail
    allocated during the move; an old entry stays if and only if, after the
    shift, - thumb_size < y <= view_height (and, in filmstrip mode,
    - thumb_size < x <= view_width), and every entry of the new window is
    within these bounds.  The upper bounds are not strict: an entry that
    starts exactly on the bottom edge (y = view_height), no pixel of which is
    in the viewport, is kept.  When the call returns FALSE the table is
    unchanged. *)
Theorem X14_move_shifts_the_window
        (redraw : dt_thumbtable_t -> bool -> outcome dt_thumbtable_t)
        (e : collaborators) (t t' : dt_thumbtable_t) (x y : Z) (b : bool) :
  Forall (fun th => (th_obj th < tb_next_obj t)%nat) (tb_list t) ->
  _move redraw e t x y false = Done (t', b) ->
  (b = false -> t' = t)
  /\ (b = true ->
      (forall th', In th' (tb_list t') ->
                   (exists th, In th (tb_list t) /\ th' = shifted x y th)
                   \/ (tb_next_obj t <= th_obj th' < tb_next_obj t')%nat)
      /\ (forall th, In th (tb_list t) ->
                     (In (shifted x y th) (tb_list t')
                      <-> - tb_thumb_size t < th_y th + y <= tb_view_height t
                          /\ (tb_mode t = DT_THUMBTABLE_MODE_FILMSTRIP ->
                              - tb_thumb_size t < th_x th + x <= tb_view_width t)))
      /\ Forall (fun th' => - tb_thumb_size t < th_y th' <= tb_view_height t
                            /\ (tb_mode t = DT_THUMBTABLE_MODE_FILMSTRIP ->
                                - tb_thumb_size t < th_x th' <= tb_view_width t))
                (tb_list t')
      /\ Forall (fun th' => (th_obj th' < tb_next_obj t')%nat) (tb_list t')).
Proof.
  intros Hold H. unfold _move in H.
  destruct (tb_list t) as [ | first l] eqn:Hlist.
  { inversion H. subst. split; [reflexivity | discriminate]. }
  rewrite <- Hlist in *. clear Hlist first l.
  split.
  - intros Hb. subst b. unfold move_apply in H.
    destruct ((y =? 0) && (x =? 0)); [inversion H; reflexivity | ].
    apply bind_done in H. destruct H as ([t3 changed] & _ & H).
    cbn [_thumbs_remove_unneeded] in H.
    apply bind_done in H. destruct H as (t6 & _ & H).
    apply bind_done in H. destruct H as (u & _ & H). discriminate H.
  - intros Hb. subst b.
    destruct (move_apply_window e t t' x y H) as (t3 & Hloaded & Hl & Hv & Hn).
    destruct Hloaded as (Hv3 & Hn3 & pre & post & Hl3 & Hfresh).
    cbn [tb_list tb_next_obj set_tb_list] in Hl3, Hn3, Hfresh.
    assert (Hun : forall th, thumb_unneeded t3 th = thumb_unneeded t th).
    { intros th. rewrite (thumb_unneeded_view _ t3 th Hv3). reflexivity. }
    assert (Hin3 : forall th', In th' (tb_list t3) <->
                               In th' pre \/ In th' (map (shifted x y) (tb_list t))
                               \/ In th' post).
    { intros th'. rewrite Hl3, !in_app_iff. reflexivity. }
    apply Forall_app in Hfresh. destruct Hfresh as [Hpre Hpost].
    rewrite Forall_forall in Hpre, Hpost, Hold.
    split; [ | split; [ | split]].
    + intros th' Hth'. rewrite Hl in Hth'. apply filter_In in Hth'.
      destruct Hth' as [Hth' _]. apply Hin3 in Hth'. rewrite Hn.
      destruct Hth' as [Hth' | [Hth' | Hth']].
      * right. exact (Hpre th' Hth').
      * left. apply in_map_iff in Hth'. destruct Hth' as (th & Heq & Hth).
        exists th. split; [exact Hth | symmetry; exact Heq].
      * right. exact (Hpost th' Hth').
    + intros th Hth.
      change (th_y th + y) with (th_y (shifted x y th)).
      change (th_x th + x) with (th_x (shifted x y th)).
      rewrite <- thumb_unneeded_bounds, <- Hun. rewrite Hl, filter_In. split.
      * intros [_ Hvis]. apply negb_true_iff in Hvis. exact Hvis.
      * intros Hvis. split; [ | rewrite Hvis; reflexivity].
        apply Hin3. right. left. apply in_map. exact Hth.
    + rewrite Hl. apply Forall_forall. intros th' Hth'. apply filter_In in Hth'.
      destruct Hth' as [_ Hvis]. apply thumb_unneeded_bounds. rewrite <- Hun.
      apply negb_true_iff in Hvis. exact Hvis.
    + rewrite Hl, Hn. apply Forall_forall. intros th' Hth'. apply filter_In in Hth'.
      destruct Hth' as [Hth' _]. apply Hin3 in Hth'.
      destruct Hth' as [Hth' | [Hth' | Hth']].
      * apply (Hpre th' Hth').
      * apply in_map_iff in Hth'. destruct Hth' as (th & Heq & Hth). subst th'.
        cbn. pose proof (Hold th Hth). lia.
      * apply (Hpost th' Hth').
Qed.

(* the window of rows 1 to 6 moved up by one row of 50 pixels *)
Definition grid_12_row_2 : dt_thumbtable_t :=
  Eval vm_compute in
    match _move (dt_thumbtable_full_redraw 1 grid_12) grid_12 grid_12_top 0 (-50) false with
    | Done (t, _) => t
    | _ => grid_12_top
    end.

(* and moved down again by one row *)
Definition grid_12_back : dt_thumbtable_t :=
  Eval vm_compute in
    match _move (dt_thumbtable_full_redraw 1 grid_12) grid_12 grid_12_row_2 0 50 false with
    | Done (t, _) => t
    | _ => grid_12_row_2
    end.

(** X14, witness: the window of rows 3 to 6, on y = 0 and y = 50 in a
    viewport of 100 pixels, is moved down by one row of 50 pixels: rows 1 and
    2 are loaded, and rows 5 and 6, now on y = 100 = view_height, stay in the
    window. *)
Lemma X14_move_shifts_the_window_witness :
  _move (dt_thumbtable_full_redraw 1 grid_12) grid_12 grid_12_row_2 0 50 false
  = Done (grid_12_back, true)
  /\ map th_rowid (tb_list grid_12_row_2) = [3; 4; 5; 6]
  /\ map (fun th => (th_rowid th, th_y th)) (tb_list grid_12_back)
     = [(1, 0); (2, 0); (3, 50); (4, 50); (5, 100); (6, 100)]
  /\ tb_view_height grid_12_row_2 = 100
  /\ Forall (fun th' => - tb_thumb_size grid_12_row_2 < th_y th'
                        <= tb_view_height grid_12_row_2
                        /\ (tb_mode grid_12_row_2 = DT_THUMBTABLE_MODE_FILMSTRIP ->
                            - tb_thumb_size grid_12_row_2 < th_x th'
                            <= tb_view_width grid_12_row_2))
            (tb_list grid_12_back).
Proof.
  assert (Hold : Forall (fun th => (th_obj th < tb_next_obj grid_12_row_2)%nat)
                        (tb_list grid_12_row_2)) by (cbn; repeat constructor).
  assert (H : _move (dt_thumbtable_full_redraw 1 grid_12) grid_12 grid_12_row_2 0 50 false
              = Done (grid_12_back, true)) by (vm_compute; reflexivity).
  split; [exact H | ]. split; [reflexivity | ]. split; [reflexivity | ].
  split; [reflexivity | ].
  exact (proj1 (proj2 (proj2
           (proj2 (X14_move_shifts_the_window (dt_thumbtable_full_redraw 1 grid_12) grid_12
                     grid_12_row_2 grid_12_back 0 50 true Hold H) eq_refl)))).
Defined.

(** X15: the top of the grid.  In filemanager mode, when the first entry of
    the window is the first image of the collection and is not above the
    viewport, a clamped move towards the start (positive vertical delta) is
    refused.  If that entry is at x = 0 nothing changes.  If it is not, the
    refused moves are counted: the first two only increment
    realign_top_try, the third one resets the counter, calls the forced full
    redraw and returns TRUE. *)
Theorem X15_top_of_the_grid
        (redraw : dt_thumbtable_t -> bool -> outcome dt_thumbtable_t)
        (e : collaborators) (t : dt_thumbtable_t) (first : dt_thumbnail_t)
        (l : list dt_thumbnail_t) :
  tb_mode t = DT_THUMBTABLE_MODE_FILEMANAGER ->
  tb_list t = first :: l -> th_rowid first = 1 -> 0 <= th_y first ->
  (th_x first = 0 ->
   forall x y, 0 < y -> _move redraw e t x y true = Done (t, false))
  /\ (th_x first <> 0 -> tb_realign_top_try t = 0 ->
      forall x1 y1 x2 y2 x3 y3, 0 < y1 -> 0 < y2 -> 0 < y3 ->
        _move redraw e t x1 y1 true = Done (set_tb_realign_top_try 1 t, false)
        /\ _move redraw e (set_tb_realign_top_try 1 t) x2 y2 true
           = Done (set_tb_realign_top_try 2 t, false)
        /\ _move redraw e (set_tb_realign_top_try 2 t) x3 y3 true
           = (t3 <- redraw (set_tb_realign_top_try 0 t) true ;; Done (t3, true))).
Proof.
  intros Hmode Hlist Hrow Hy.
  assert (Hclamp : forall t0 x y,
             tb_mode t0 = DT_THUMBTABLE_MODE_FILEMANAGER -> tb_list t0 = first :: l ->
             0 < y ->
             _move redraw e t0 x y true
             = if negb (th_x first =? 0)
               then
                 if tb_realign_top_try t0 + 1 >? 2
                 then t2 <- redraw
                              (set_tb_realign_top_try 0
                                 (set_tb_realign_top_try (tb_realign_top_try t0 + 1) t0))
                              true ;;
                      Done (t2, true)
                 else Done (set_tb_realign_top_try (tb_realign_top_try t0 + 1) t0, false)
               else Done (t0, false)).
  { intros t0 x y Hm Hl Hpos. unfold _move, move_clamp. rewrite Hl, Hm.
    destruct (Z.eqb_spec y 0) as [H0 | _]; [lia | ].
    rewrite Hrow. cbn [Z.eqb Pos.eqb andb].
    destruct (Z.gtb_spec y 0) as [_ | Hle]; [ | lia].
    destruct (Z.geb_spec (th_y first) 0) as [_ | Hlt]; [ | lia].
    cbn [andb tb_realign_top_try set_tb_realign_top_try].
    destruct (negb (th_x first =? 0)); [ | reflexivity].
    destruct (tb_realign_top_try t0 + 1 >? 2); [ | reflexivity].
    cbn [bind]. destruct (redraw _ true); reflexivity. }
  split.
  - intros Hx x y Hpos. rewrite (Hclamp t x y Hmode Hlist Hpos), Hx. reflexivity.
  - intros Hx Hzero x1 y1 x2 y2 x3 y3 H1 H2 H3.
    assert (Hneq : negb (th_x first =? 0) = true)
      by (apply negb_true_iff; apply Z.eqb_neq; exact Hx).
    split; [ | split].
    + rewrite (Hclamp t x1 y1 Hmode Hlist H1), Hneq, Hzero. reflexivity.
    + rewrite (Hclamp (set_tb_realign_top_try 1 t) x2 y2 Hmode Hlist H2), Hneq. reflexivity.
    + rewrite (Hclamp (set_tb_realign_top_try 2 t) x3 y3 Hmode Hlist H3), Hneq. reflexivity.
Qed.

(** X15, witness: the window of rows 1 to 6 refuses to scroll above row 1. *)
Lemma X15_top_of_the_grid_witness :
  _move (dt_thumbtable_full_redraw 1 grid_12) grid_12 grid_12_top 0 50 true
  = Done (grid_12_top, false).
Proof.
  destruct (X15_top_of_the_grid (dt_thumbtable_full_redraw 1 grid_12) grid_12 grid_12_top
              (mk_thumb 0 101 1 50 50 0 0 false false false (-1) 0)
              (tl (tb_list grid_12_top))) as [H _];
    [reflexivity | reflexivity | reflexivity | cbn; lia | ].
  apply H; [reflexivity | lia].
Defined.

(** ** Visibility of a row *)

Lemma nth_data_last_visible (l : list dt_thumbnail_t) (k : Z) :
  l <> [] ->
  exists last, g_list_nth_data l (MIN_guint_int (g_list_length l - 1) k) = Some last.
Proof.
  intros Hne. unfold g_list_nth_data, MIN_guint_int, g_list_length.
  assert (Hlen : (0 < length l)%nat) by (destruct l; [contradiction | cbn; lia]).
  set (pos := if k <? 0 then Z.of_nat (length l) - 1
              else MIN (Z.of_nat (length l) - 1) k).
  assert (Hpos : 0 <= pos <= Z.of_nat (length l) - 1).
  { unfold pos. destruct (Z.ltb_spec k 0); [lia | ]. rewrite MIN_is_min. lia. }
  destruct (Z.ltb_spec pos 0) as [Hneg | _]; [lia | ].
  destruct (nth_error l (Z.to_nat pos)) as [last | ] eqn:Hnth; [exists last; reflexivity | ].
  apply nth_error_None in Hnth. lia.
Qed.

(** X16: a row made visible is found visible.  When
    _filemanager_ensure_rowid_visibility returns TRUE for a row number of 1
    or more, _filemanager_check_rowid_visibility returns TRUE for that row on
    the table it leaves.  The check never fails: it returns FALSE for a row
    number below 1 and for an empty window, and otherwise compares the row
    with the first entry and the last entry of the rows that are fully
    shown. *)
Theorem X16_made_visible_is_visible
        (redraw : dt_thumbtable_t -> bool -> outcome dt_thumbtable_t)
        (e : collaborators) (rowid : Z) :
  (forall fuel t t',
      1 <= rowid ->
      _filemanager_ensure_rowid_visibility redraw fuel e t rowid = Done (t', true) ->
      _filemanager_check_rowid_visibility t' rowid = Done true)
  /\ (forall t, exists b, _filemanager_check_rowid_visibility t rowid = Done b)
  /\ (forall t, rowid < 1 \/ tb_list t = [] ->
                _filemanager_check_rowid_visibility t rowid = Done false).
Proof.
  split; [ | split].
  - intros fuel. induction fuel as [ | fuel IH]; intros t t' Hrow H; [discriminate H | ].
    cbn [_filemanager_ensure_rowid_visibility] in H.
    destruct (Z.ltb_spec rowid 1) as [Hlt | _]; [lia | ].
    destruct (tb_list t) as [ | first l] eqn:Hlist; [discriminate H | ].
    apply bind_done in H. destruct H as (last & Hlast & H).
    destruct (th_rowid first >? rowid) eqn:Hfirst.
    + apply bind_done in H. destruct H as (q & _ & H).
      apply bind_done in H. destruct H as ([t1 moved] & _ & H).
      destruct moved; [exact (IH t1 t' Hrow H) | discriminate H].
    + destruct (th_rowid last <? rowid) eqn:Hlastrow.
      * apply bind_done in H. destruct H as (q & _ & H).
        apply bind_done in H. destruct H as ([t1 moved] & _ & H).
        destruct moved; [exact (IH t1 t' Hrow H) | discriminate H].
      * inversion H. subst t'. unfold _filemanager_check_rowid_visibility.
        destruct (Z.ltb_spec rowid 1) as [Hlt | _]; [lia | ].
        rewrite Hlist. rewrite Hlast. cbn [bind].
        rewrite Z.gtb_ltb in Hfirst. apply Z.ltb_ge in Hfirst, Hlastrow.
        destruct (Z.leb_spec (th_rowid first) rowid); [ | lia].
        destruct (Z.geb_spec (th_rowid last) rowid); [reflexivity | lia].
  - intros t. unfold _filemanager_check_rowid_visibility.
    destruct (rowid <? 1); [exists false; reflexivity | ].
    destruct (tb_list t) as [ | first l] eqn:Hlist; [exists false; reflexivity | ].
    rewrite <- Hlist.
    destruct (nth_data_last_visible (tb_list t)
                (tb_thumbs_per_row t * (tb_rows t - 1) - 1)) as [last Hlast].
    { rewrite Hlist. discriminate. }
    rewrite Hlast. cbn [deref bind]. eexists. reflexivity.
  - intros t [Hlt | Hempty]; unfold _filemanager_check_rowid_visibility.
    + destruct (Z.ltb_spec rowid 1); [reflexivity | lia].
    + rewrite Hempty. destruct (rowid <? 1); reflexivity.
Qed.

(* the window of rows 1 to 6 after row 7 was made visible *)
Definition grid_12_row_7 : dt_thumbtable_t :=
  Eval vm_compute in
    match _filemanager_ensure_rowid_visibility (dt_thumbtable_full_redraw 1 grid_12) 3
                                               grid_12 grid_12_top 7 with
    | Done (t, _) => t
    | _ => grid_12_top
    end.

(** X16, witness: row 7 of the twelve images is made visible from the window
    of rows 1 to 6. *)
Lemma X16_made_visible_is_visible_witness :
  _filemanager_ensure_rowid_visibility (dt_thumbtable_full_redraw 1 grid_12) 3 grid_12
                                       grid_12_top 7
  = Done (grid_12_row_7, true)
  /\ _filemanager_check_rowid_visibility grid_12_row_7 7 = Done true.
Proof.
  assert (H : _filemanager_ensure_rowid_visibility (dt_thumbtable_full_redraw 1 grid_12) 3
                                                   grid_12 grid_12_top 7
              = Done (grid_12_row_7, true)) by (vm_compute; reflexivity).
  assert (Hrow : 1 <= 7) by lia.
  split; [exact H | ].
  exact (proj1 (X16_made_visible_is_visible (dt_thumbtable_full_redraw 1 grid_12) grid_12 7)
               3%nat grid_12_top grid_12_row_7 Hrow H).
Defined.

(** ** Keyboard moves *)

Lemma max_rowid_rows_from (ids : list Z) :
  forall s m0,
    fold_left (fun m (r : Z * Z) => Z.max m (fst r)) (rows_from s ids) m0
    = match ids with
      | [] => m0
      | _ :: _ => Z.max m0 (s + Z.of_nat (length ids) - 1)
      end.
Proof.
  induction ids as [ | a ids IH]; intros s m0; [reflexivity | ].
  cbn [rows_from fold_left fst]. rewrite IH. destruct ids as [ | b ids].
  - cbn [length]. f_equal. lia.
  - cbn [length]. lia.
Qed.

(* MAX(rowid) is the number of images of the collection *)
Lemma select_max_rowid_count (e : collaborators) : select_max_rowid e = select_count e.
Proof.
  unfold select_max_rowid, select_count, collected_rows. rewrite max_rowid_rows_from.
  destruct (collected_images e); [reflexivity | ]. cbn [length]. lia.
Qed.

Lemma pageup_loop_done (n base : Z) :
  1 <= n -> 1 <= base ->
  forall (k fuel : nat),
    (k <= fuel)%nat ->
    exists j,
      0 <= j <= Z.of_nat k
      /\ pageup_loop fuel (base - n * Z.of_nat k) n = Done (base - n * j)
      /\ 1 <= base - n * j.
Proof.
  intros Hn Hbase. induction k as [ | k IH]; intros fuel Hfuel.
  - exists 0. split; [lia | ]. replace (base - n * Z.of_nat 0) with base by lia.
    replace (base - n * 0) with base by lia. split; [ | lia].
    destruct fuel; cbn [pageup_loop]; destruct (Z.ltb_spec base 1); try lia; reflexivity.
  - destruct (Z.ltb_spec (base - n * Z.of_nat (S k)) 1) as [Hlt | Hge].
    + destruct fuel as [ | fuel]; [lia | ]. cbn [pageup_loop].
      destruct (Z.ltb_spec (base - n * Z.of_nat (S k)) 1) as [_ | Hge]; [ | lia].
      replace (base - n * Z.of_nat (S k) + n) with (base - n * Z.of_nat k) by lia.
      destruct (IH fuel) as (j & Hj & Hloop & Hres); [lia | ].
      exists j. split; [lia | ]. split; [exact Hloop | exact Hres].
    + exists (Z.of_nat (S k)). split; [lia | ]. split; [ | exact Hge].
      destruct fuel; cbn [pageup_loop];
        destruct (Z.ltb_spec (base - n * Z.of_nat (S k)) 1); try lia; reflexivity.
Qed.

Lemma pagedown_loop_done (n base maxrowid : Z) :
  1 <= n -> base <= maxrowid ->
  forall (k fuel : nat),
    (k <= fuel)%nat ->
    exists j,
      0 <= j <= Z.of_nat k
      /\ pagedown_loop fuel (base + n * Z.of_nat k) maxrowid n = Done (base + n * j)
      /\ base + n * j <= maxrowid.
Proof.
  intros Hn Hbase. induction k as [ | k IH]; intros fuel Hfuel.
  - exists 0. split; [lia | ]. replace (base + n * Z.of_nat 0) with base by lia.
    replace (base + n * 0) with base by lia. split; [ | lia].
    destruct fuel; cbn [pagedown_loop]; destruct (Z.gtb_spec base maxrowid); try lia;
      reflexivity.
  - destruct (Z.gtb_spec (base + n * Z.of_nat (S k)) maxrowid) as [Hgt | Hle].
    + destruct fuel as [ | fuel]; [lia | ]. cbn [pagedown_loop].
      destruct (Z.gtb_spec (base + n * Z.of_nat (S k)) maxrowid) as [_ | Hle]; [ | lia].
      replace (base + n * Z.of_nat (S k) - n) with (base + n * Z.of_nat k) by lia.
      destruct (IH fuel) as (j & Hj & Hloop & Hres); [lia | ].
      exists j. split; [lia | ]. split; [exact Hloop | exact Hres].
    + exists (Z.of_nat (S k)). split; [lia | ]. split; [ | exact Hle].
      destruct fuel; cbn [pagedown_loop];
        destruct (Z.gtb_spec (base + n * Z.of_nat (S k)) maxrowid); try lia; reflexivity.
Qed.

(** X17: the target of a keyboard move stays in the collection.  In a table
    of at least one column and one row, when the hovered image is in the
    collection, every move of _filemanager_key_move computes a target row
    between 1 and the number of images.  LEFT and RIGHT step by one image, UP
    and DOWN by one row of thumbs_per_row images, clamped at both ends; a
    page move steps by at most rows - 1 rows in the column of the hovered
    image and goes to the first, resp. last, image when no such step is
    possible; START and END go to the first and the last image. *)
Theorem X17_key_move_target (fuel : nat) (e : collaborators) (t : dt_thumbtable_t)
        (move : dt_thumbtable_move_t) :
  0 < mouse_over_id e -> In (mouse_over_id e) (collected_images e) ->
  1 <= tb_thumbs_per_row t -> 1 <= tb_rows t -> (Z.to_nat (tb_rows t) <= fuel)%nat ->
  let base := _thumb_get_rowid e (mouse_over_id e) in
  let n := tb_thumbs_per_row t in
  exists r,
    key_move_newrowid fuel e t move = Done r
    /\ 1 <= r <= select_count e
    /\ match move with
       | DT_THUMBTABLE_MOVE_LEFT => r = Z.max (base - 1) 1
       | DT_THUMBTABLE_MOVE_RIGHT => r = Z.min (base + 1) (select_count e)
       | DT_THUMBTABLE_MOVE_UP => r = Z.max (base - n) 1
       | DT_THUMBTABLE_MOVE_DOWN => r = Z.min (base + n) (select_count e)
       | DT_THUMBTABLE_MOVE_PAGEUP =>
           (exists j, 1 <= j <= tb_rows t - 1 /\ r = base - n * j) \/ r = 1
       | DT_THUMBTABLE_MOVE_PAGEDOWN =>
           (exists j, 1 <= j <= tb_rows t - 1 /\ r = base + n * j) \/ r = select_count e
       | DT_THUMBTABLE_MOVE_START => r = 1
       | DT_THUMBTABLE_MOVE_END => r = select_count e
       | DT_THUMBTABLE_MOVE_OTHER => r = base
       end.
Proof.
  intros Hover Hin Hn Hrows Hfuel base n.
  assert (Hbase : 1 <= base <= select_count e).
  { unfold base, _thumb_get_rowid, select_count, collected_rows.
    destruct (find_row_of_image _ _ 1 Hin) as (r & Hfind & Hr & _).
    rewrite Hfind. cbn [fst]. lia. }
  unfold key_move_newrowid.
  destruct (Z.leb_spec (mouse_over_id e) 0) as [Hle | _]; [lia | ].
  cbn [negb orb]. rewrite select_max_rowid_count. fold base n.
  assert (Hk : tb_rows t - 1 = Z.of_nat (Z.to_nat (tb_rows t - 1))) by lia.
  destruct move.
  - eexists. split; [reflexivity | ]. rewrite MAX_is_max. lia.
  - eexists. split; [reflexivity | ]. rewrite MIN_is_min. lia.
  - eexists. split; [reflexivity | ]. rewrite MAX_is_max. lia.
  - eexists. split; [reflexivity | ]. rewrite MIN_is_min. lia.
  - destruct (pageup_loop_done n base Hn (proj1 Hbase) (Z.to_nat (tb_rows t - 1)) fuel)
      as (j & Hj & Hloop & Hres); [lia | ].
    rewrite <- Hk in Hloop, Hj. rewrite Hloop. cbn [bind].
    eexists. split; [reflexivity | ].
    destruct (Z.eqb_spec (base - n * j) base) as [Heq | Hneq].
    + split; [lia | right; reflexivity].
    + split; [nia | ]. left. exists j. split; [nia | reflexivity].
  - destruct (pagedown_loop_done n base (select_count e) Hn (proj2 Hbase)
                (Z.to_nat (tb_rows t - 1)) fuel)
      as (j & Hj & Hloop & Hres); [lia | ].
    rewrite <- Hk in Hloop, Hj. rewrite Hloop. cbn [bind].
    eexists. split; [reflexivity | ].
    destruct (Z.eqb_spec (base + n * j) base) as [Heq | Hneq].
    + split; [lia | right; reflexivity].
    + split; [nia | ]. left. exists j. split; [nia | reflexivity].
  - eexists. split; [reflexivity | ]. lia.
  - eexists. split; [reflexivity | ]. lia.
  - eexists. split; [reflexivity | ]. lia.
Qed.

(* image 109 of the twelve images is hovered *)
Definition grid_12_hover_9 : collaborators :=
  mk_collab 100 100 2 [101; 102; 103; 104; 105; 106; 107; 108; 109; 110; 111; 112]
            [] 109 (fun _ => false) (fun _ => -1).

(** X17, witness: with two columns and three rows, PAGE_UP from row 9 goes to
    row 5. *)
Lemma X17_key_move_target_witness :
  exists r,
    key_move_newrowid 3 grid_12_hover_9 grid_12_top DT_THUMBTABLE_MOVE_PAGEUP = Done r
    /\ 1 <= r <= select_count grid_12_hover_9
    /\ r = 5.
Proof.
  destruct (X17_key_move_target 3 grid_12_hover_9 grid_12_top DT_THUMBTABLE_MOVE_PAGEUP)
    as (r & Hr & Hbounds & _).
  - cbn. lia.
  - cbn. tauto.
  - cbn. lia.
  - cbn. lia.
  - cbn. lia.
  - exists r. split; [exact Hr | ]. split; [exact Hbounds | ].
    vm_compute in Hr. inversion Hr. reflexivity.
Defined.

(* the image a keyboard move starts from: the hovered image, or the offset
   image when nothing is hovered *)
Definition key_move_base (e : collaborators) (t : dt_thumbtable_t) : Z :=
  if mouse_over_id e <=? 0 then tb_offset_imgid t else mouse_over_id e.

Lemma pageup_loop_zero_step (fuel : nat) (newrowid : Z) :
  newrowid < 1 -> pageup_loop fuel newrowid 0 = OutOfFuel.
Proof.
  intros Hlow. induction fuel as [ | fuel IH]; cbn [pageup_loop];
    destruct (Z.ltb_spec newrowid 1) as [_ | Hge]; try lia; [reflexivity | ].
  rewrite Z.add_0_r. exact IH.
Qed.

(** X18: PAGE_UP on a table that was never sized.  When thumbs_per_row is 0
    (no size was computed yet, as in a viewport of 20 pixels or less) and the
    image the move starts from is not in the collection, the loop
    [while(newrowid < 1) newrowid += table->thumbs_per_row] of
    _filemanager_key_move never ends: whatever the number of iterations
    allowed, the loop has not produced a target.  With nothing hovered, the
    arrow keys return the current offset without looking anything up. *)
Theorem X18_page_up_never_sized (e : collaborators) (t : dt_thumbtable_t) :
  (tb_thumbs_per_row t = 0 -> ~ In (key_move_base e t) (collected_images e) ->
   forall fuel, key_move_newrowid fuel e t DT_THUMBTABLE_MOVE_PAGEUP = OutOfFuel)
  /\ (mouse_over_id e <= 0 ->
      forall fuel move,
        move = DT_THUMBTABLE_MOVE_LEFT \/ move = DT_THUMBTABLE_MOVE_RIGHT
        \/ move = DT_THUMBTABLE_MOVE_UP \/ move = DT_THUMBTABLE_MOVE_DOWN ->
        key_move_newrowid fuel e t move = Done (tb_offset t)).
Proof.
  split.
  - intros Hzero Hnotin fuel. unfold key_move_newrowid. fold (key_move_base e t).
    rewrite orb_true_r.
    assert (Hrow : _thumb_get_rowid e (key_move_base e t) = -1).
    { unfold _thumb_get_rowid, collected_rows.
      rewrite (find_row_of_missing_image _ _ 1 Hnotin). reflexivity. }
    rewrite Hrow, Hzero. cbn [Z.mul Z.sub Z.add Z.opp].
    rewrite pageup_loop_zero_step by lia. reflexivity.
  - intros Hover fuel move Hmove. unfold key_move_newrowid.
    destruct (Z.leb_spec (mouse_over_id e) 0) as [_ | Hgt]; [ | lia].
    destruct Hmove as [H | [H | [H | H]]]; subst move; reflexivity.
Qed.

(** X18, witness: PAGE_UP on a new table, nothing hovered; image 0 is not in
    the collection. *)
Lemma X18_page_up_never_sized_witness :
  key_move_newrowid 1000 grid_12 grid_new DT_THUMBTABLE_MOVE_PAGEUP = OutOfFuel.
Proof.
  apply (proj1 (X18_page_up_never_sized grid_12 grid_new)).
  - reflexivity.
  - cbn. intros H. repeat (destruct H as [H | H]; [discriminate H | ]). exact H.
Defined.

(** ** First offset and zoom *)

(** X19: dt_thumbtable_reset_first_offset.  Out of filemanager mode the call
    returns FALSE and changes nothing.  In filemanager mode it reads the
    first entry of the window without testing the list, and divides by
    thumbs_per_row: an empty window or thumbs_per_row = 0 is a fault.
    Otherwise, the first entry having a row number of 1 or more, the amount
    computed is between 1 and thumbs_per_row and completes the row of the
    first entry, so the exit on an amount of 0 is never taken: the call
    always sets the offset, forces a full redraw and returns TRUE. *)
Theorem X19_reset_first_offset (fuel : nat) (e : collaborators) (t : dt_thumbtable_t) :
  (tb_mode t <> DT_THUMBTABLE_MODE_FILEMANAGER ->
   dt_thumbtable_reset_first_offset fuel e t = Done (t, false))
  /\ (tb_mode t = DT_THUMBTABLE_MODE_FILEMANAGER ->
      tb_list t = [] \/ tb_thumbs_per_row t = 0 ->
      dt_thumbtable_reset_first_offset fuel e t = Fault)
  /\ (forall first l,
         tb_mode t = DT_THUMBTABLE_MODE_FILEMANAGER -> tb_list t = first :: l ->
         1 <= tb_thumbs_per_row t -> 1 <= th_rowid first -> 1 <= tb_offset t ->
         exists k m,
           1 <= k <= tb_thumbs_per_row t
           /\ th_rowid first - 1 + k = m * tb_thumbs_per_row t
           /\ dt_thumbtable_reset_first_offset fuel e t
              = (t2 <- dt_thumbtable_full_redraw fuel e (set_tb_offset (tb_offset t + k) t)
                                                 true ;;
                 Done (t2, true))).
Proof.
  unfold dt_thumbtable_reset_first_offset, is_filemanager. split; [ | split].
  - intros Hmode. destruct (tb_mode t); try reflexivity. contradiction.
  - intros Hmode Hbad. rewrite Hmode. cbn [mode_eqb negb].
    destruct (tb_list t) as [ | first l]; [reflexivity | ].
    destruct Hbad as [Hbad | Hbad]; [discriminate Hbad | ].
    cbn [hd_error deref bind]. rewrite Hbad. reflexivity.
  - intros first l Hmode Hlist Hn Hrow Hoffset. rewrite Hmode, Hlist.
    cbn [mode_eqb negb hd_error deref bind]. unfold c_mod.
    destruct (Z.eqb_spec (tb_thumbs_per_row t) 0) as [H0 | _]; [lia | ]. cbn [bind].
    set (n := tb_thumbs_per_row t) in *.
    pose proof (Z.quot_rem' (th_rowid first - 1) n) as Hqr.
    assert (Hb : 0 <= Z.rem (th_rowid first - 1) n < n) by (apply Z.rem_bound_pos; lia).
    exists (n - Z.rem (th_rowid first - 1) n), (Z.quot (th_rowid first - 1) n + 1).
    split; [lia | ]. split; [nia | ].
    destruct (Z.eqb_spec (n - Z.rem (th_rowid first - 1) n) 0) as [H0 | _]; [lia | ].
    unfold dt_thumbtable_set_offset.
    destruct (Z.ltb_spec (tb_offset t + (n - Z.rem (th_rowid first - 1) n)) 1); [lia | ].
    destruct (Z.eqb_spec (tb_offset t + (n - Z.rem (th_rowid first - 1) n)) (tb_offset t));
      [lia | ].
    cbn [orb]. destruct (dt_thumbtable_full_redraw fuel e _ true); reflexivity.
Qed.

(** X19, witness: on the window of rows 1 to 6 in two columns, the call asks
    for offset 3. *)
Lemma X19_reset_first_offset_witness :
  exists k m,
    1 <= k <= 2 /\ 0 + k = m * 2
    /\ dt_thumbtable_reset_first_offset 2 grid_12 grid_12_top
       = (t2 <- dt_thumbtable_full_redraw 2 grid_12 (set_tb_offset (1 + k) grid_12_top) true ;;
          Done (t2, true)).
Proof.
  destruct (proj2 (proj2 (X19_reset_first_offset 2 grid_12 grid_12_top))
              (mk_thumb 0 101 1 50 50 0 0 false false false (-1) 0)
              (tl (tb_list grid_12_top)))
    as (k & m & Hk & Hm & H);
    [reflexivity | reflexivity | cbn; lia | cbn; lia | cbn; lia | ].
  exists k, m. split; [exact Hk | ]. split; [exact Hm | exact H].
Defined.

Lemma zoom_anchor_in (e : collaborators) (p : pointer_t) (t : dt_thumbtable_t)
      (first : dt_thumbnail_t) (l : list dt_thumbnail_t) :
  tb_list t = first :: l -> In (fst (fst (zoom_anchor e p t first))) (tb_list t).
Proof.
  intros Hlist. unfold zoom_anchor, _thumb_get_at_pos, _thumbtable_get_thumb.
  assert (Hfind : forall f th, find f (tb_list t) = Some th -> In th (tb_list t))
    by (intros f th H; exact (proj1 (find_some _ _ H))).
  destruct (tb_mouse_inside p).
  - match goal with |- context [find ?f (tb_list t)] =>
      destruct (find f (tb_list t)) as [th | ] eqn:Hat end;
      [exact (Hfind _ _ Hat) | ].
    set (id := if negb (anchor_imgid p =? 0) then anchor_imgid p else mouse_over_id e).
    destruct (id <=? 0).
    + match goal with |- context [find ?f (tb_list t)] =>
        destruct (find f (tb_list t)) as [th | ] eqn:Hc end;
        [exact (Hfind _ _ Hc) | rewrite Hlist; left; reflexivity].
    + destruct (find (fun th => th_imgid th =? id) (tb_list t)) as [th | ] eqn:Hid;
        [exact (Hfind _ _ Hid) | ].
      match goal with |- context [find ?f (tb_list t)] =>
        destruct (find f (tb_list t)) as [th | ] eqn:Hc end;
        [exact (Hfind _ _ Hc) | rewrite Hlist; left; reflexivity].
  - set (id := if negb (anchor_imgid p =? 0) then anchor_imgid p else mouse_over_id e).
    destruct (id <=? 0).
    + match goal with |- context [find ?f (tb_list t)] =>
        destruct (find f (tb_list t)) as [th | ] eqn:Hc end;
        [exact (Hfind _ _ Hc) | rewrite Hlist; left; reflexivity].
    + destruct (find (fun th => th_imgid th =? id) (tb_list t)) as [th | ] eqn:Hid;
        [exact (Hfind _ _ Hid) | ].
      match goal with |- context [find ?f (tb_list t)] =>
        destruct (find f (tb_list t)) as [th | ] eqn:Hc end;
        [exact (Hfind _ _ Hc) | rewrite Hlist; left; reflexivity].
Qed.

(** X20: a change of zoom.  dt_thumbtable_zoom_changed does nothing when the
    zoom is the same, when the window is empty and out of filemanager mode.
    Otherwise, for a new zoom between 1 and the stored viewport width, it
    returns and sets the zoom; the anchor it zooms around is an entry of the
    window, and the offset it asks for is the row of that entry minus the
    number of thumbnails that come before the anchor point at the new zoom.
    Only the offset of the table is written, and only if the offset asked
    for is 1 or more and differs from the current one: the window is
    untouched (no redraw) and the offset stays at 1 or more.  The full redraw
    that follows, even not forced, is not skipped by the size test
    (thumbs_per_row still holds the old zoom).  A new zoom of 0 or above the
    stored viewport width divides by zero. *)
Theorem X20_zoom_changed (fuel : nat) (e : collaborators) (p : pointer_t)
        (t : dt_thumbtable_t) (oldzoom newzoom : Z) :
  (oldzoom = newzoom \/ tb_list t = [] \/ tb_mode t <> DT_THUMBTABLE_MODE_FILEMANAGER ->
   dt_thumbtable_zoom_changed fuel e p t oldzoom newzoom = Done (e, t))
  /\ (forall first l,
         oldzoom <> newzoom -> tb_list t = first :: l ->
         tb_mode t = DT_THUMBTABLE_MODE_FILEMANAGER ->
         (1 <= newzoom <= tb_view_width t -> 1 <= tb_offset t ->
          let '(thumb, x, y) := zoom_anchor e p t first in
          let new_size := Z.quot (tb_view_width t) newzoom in
          let target :=
            th_rowid thumb - (Z.quot y new_size * newzoom + Z.quot x new_size) in
          exists t',
            dt_thumbtable_zoom_changed fuel e p t oldzoom newzoom
            = Done (dt_view_lighttable_set_zoom newzoom e, t')
            /\ In thumb (tb_list t)
            /\ t' = (if (target <? 1) || (target =? tb_offset t) then t
                     else set_tb_offset target t)
            /\ tb_list t' = tb_list t
            /\ 1 <= tb_offset t'
            /\ (tb_thumbs_per_row t = oldzoom ->
                20 < allocation_width e -> 20 < allocation_height e ->
                forall t'' b,
                  _compute_sizes (dt_view_lighttable_set_zoom newzoom e) t' false
                  = Done (t'', b) ->
                  b = true))
         /\ (newzoom = 0 \/ 0 <= tb_view_width t < newzoom ->
             dt_thumbtable_zoom_changed fuel e p t oldzoom newzoom = Fault)).
Proof.
  unfold dt_thumbtable_zoom_changed, is_filemanager. split.
  - intros [Heq | [Hempty | Hmode]].
    + subst newzoom. rewrite Z.eqb_refl. reflexivity.
    + rewrite Hempty. destruct (oldzoom =? newzoom); reflexivity.
    + destruct (oldzoom =? newzoom); [reflexivity | ].
      destruct (tb_list t); [reflexivity | ].
      destruct (tb_mode t); try reflexivity. contradiction.
  - intros first l Hneq Hlist Hmode.
    destruct (Z.eqb_spec oldzoom newzoom) as [Heq | _]; [contradiction | ].
    rewrite Hmode. cbn [mode_eqb]. unfold _filemanager_zoom. rewrite Hlist.
    pose proof (zoom_anchor_in e p t first l Hlist) as Hin.
    destruct (zoom_anchor e p t first) as [[thumb x] y]. cbn [fst] in Hin.
    split.
    + intros Hzoom Hoffset.
      set (new_size := Z.quot (tb_view_width t) newzoom).
      assert (Hsize : 1 <= new_size).
      { unfold new_size. pose proof (Z.quot_rem' (tb_view_width t) newzoom) as Hqr.
        assert (0 <= Z.rem (tb_view_width t) newzoom < newzoom)
          by (apply Z.rem_bound_pos; lia).
        assert (0 <= Z.quot (tb_view_width t) newzoom) by (apply Z.quot_pos; lia).
        nia. }
      cbv zeta. rewrite c_div_done by lia. cbn [bind]. fold new_size.
      rewrite !c_div_done by lia. cbn [bind].
      set (target := th_rowid thumb
                     - (Z.quot y new_size * newzoom + Z.quot x new_size)).
      assert (Hnext : forall t',
                 tb_mode t' = DT_THUMBTABLE_MODE_FILEMANAGER ->
                 tb_thumbs_per_row t' = tb_thumbs_per_row t ->
                 tb_thumbs_per_row t = oldzoom ->
                 20 < allocation_width e -> 20 < allocation_height e ->
                 forall t'' b,
                   _compute_sizes (dt_view_lighttable_set_zoom newzoom e) t' false
                   = Done (t'', b) ->
                   b = true).
      { intros t' Hm Hpr Hold Hw Hh t'' b Hsizes. unfold _compute_sizes in Hsizes.
        cbn [allocation_width allocation_height lighttable_zoom
             dt_view_lighttable_set_zoom] in Hsizes.
        rewrite (regular_test _ Hw Hh), Hm, Hpr, Hold in Hsizes.
        assert (Hz : negb (newzoom =? oldzoom) = true)
          by (apply negb_true_iff; apply Z.eqb_neq; intros H; apply Hneq; symmetry; exact H).
        rewrite Hz, orb_true_r in Hsizes.
        apply bind_done in Hsizes. destruct Hsizes as (q & _ & Hsizes).
        apply bind_done in Hsizes. destruct Hsizes as (r & _ & Hsizes).
        inversion Hsizes. reflexivity. }
      unfold dt_thumbtable_set_offset.
      destruct ((target <? 1) || (target =? tb_offset t)) eqn:Hreject; cbn [bind].
      * exists t. split; [reflexivity | ]. split; [rewrite <- Hlist; exact Hin | ].
        split; [reflexivity | ]. split; [exact Hlist | ]. split; [exact Hoffset | ].
        exact (Hnext t Hmode eq_refl).
      * apply orb_false_iff in Hreject. destruct Hreject as [Hlow _].
        apply Z.ltb_ge in Hlow.
        exists (set_tb_offset target t). split; [reflexivity | ].
        split; [rewrite <- Hlist; exact Hin | ].
        split; [reflexivity | ]. split; [exact Hlist | ]. split; [exact Hlow | ].
        exact (Hnext (set_tb_offset target t) Hmode eq_refl).
    + intros [Hzero | Hlarge].
      * subst newzoom. reflexivity.
      * rewrite c_div_done by lia. cbn [bind].
        rewrite (Z.quot_small (tb_view_width t) newzoom) by lia. reflexivity.
Qed.

(* the pointer is outside the table and no anchor image is set *)
Definition pointer_outside : pointer_t := mk_pointer false 0 0 0 0 0.

(** X20, witness: the zoom of the window of rows 1 to 6 goes from 2 to 3, the
    pointer being outside the table: the entry at the center of the viewport
    is image 104, on row 4, and the offset asked for is 4 - (1 * 3 + 1) = 0,
    which is refused. *)
Lemma X20_zoom_changed_witness :
  dt_thumbtable_zoom_changed 0 grid_12 pointer_outside grid_12_top 2 3
  = Done (dt_view_lighttable_set_zoom 3 grid_12, grid_12_top)
  /\ 1 <= tb_offset grid_12_top.
Proof.
  destruct (proj2 (X20_zoom_changed 0 grid_12 pointer_outside grid_12_top 2 3)
              (mk_thumb 0 101 1 50 50 0 0 false false false (-1) 0)
              (tl (tb_list grid_12_top))) as [H _]; [lia | reflexivity | reflexivity | ].
  assert (Hz : 1 <= 3 <= tb_view_width grid_12_top) by (cbn; lia).
  assert (Ho : 1 <= tb_offset grid_12_top) by (cbn; lia).
  specialize (H Hz Ho). cbn in H.
  destruct H as (t' & H1 & _ & H3 & _ & H5 & _). subst t'.
  split; [exact H1 | exact H5].
Defined.

(** ** Lookups by image id *)

Lemma find_same_test (f g : dt_thumbnail_t -> bool) (l : list dt_thumbnail_t) :
  (forall th, In th l -> f th = g th) -> find f l = find g l.
Proof.
  induction l as [ | h l IH]; intros H; [reflexivity | ]. cbn [find].
  rewrite (H h (or_introl eq_refl)). destruct (g h); [reflexivity | ].
  apply IH. intros th Hth. apply H. right. exact Hth.
Qed.

(** X21: the two lookups by image id.  For an image id above 0,
    _thumbtable_get_thumb and the search with _list_compare_by_imgid that the
    full redraw uses return the same entry of the window.  For the id 0 only
    the second one can find an entry; for a negative id neither finds
    anything, even an entry that holds it.  What the search of the redraw
    finds is an entry of the window with that, non negative, id. *)
Theorem X21_lookups_by_image_id (t : dt_thumbtable_t) (imgid : Z) :
  (0 < imgid -> _thumbtable_get_thumb t imgid = g_list_find_by_imgid (tb_list t) imgid)
  /\ (imgid <= 0 -> _thumbtable_get_thumb t imgid = None)
  /\ (imgid < 0 -> g_list_find_by_imgid (tb_list t) imgid = None)
  /\ (forall th, g_list_find_by_imgid (tb_list t) imgid = Some th ->
                 In th (tb_list t) /\ th_imgid th = imgid /\ 0 <= imgid).
Proof.
  unfold _thumbtable_get_thumb, g_list_find_by_imgid, _list_compare_by_imgid.
  split; [ | split; [ | split]].
  - intros Hpos. destruct (Z.leb_spec imgid 0) as [Hle | _]; [lia | ].
    apply find_same_test. intros th _.
    destruct (Z.ltb_spec (th_imgid th) 0) as [Hneg | Hge];
      destruct (Z.ltb_spec imgid 0) as [Hneg' | _]; try lia; cbn [orb].
    + destruct (Z.eqb_spec (th_imgid th) imgid); [lia | reflexivity].
    + destruct (th_imgid th =? imgid); reflexivity.
  - intros Hle. destruct (Z.leb_spec imgid 0); [reflexivity | lia].
  - intros Hneg. destruct (find _ (tb_list t)) as [th | ] eqn:Hfind; [ | reflexivity].
    apply find_some in Hfind. destruct Hfind as [_ Htest]. cbn beta in Htest.
    destruct (Z.ltb_spec imgid 0) as [_ | Hge]; [ | lia].
    rewrite orb_true_r in Htest. discriminate Htest.
  - intros th Hfind. apply find_some in Hfind. destruct Hfind as [Hin Htest].
    cbn beta in Htest. split; [exact Hin | ].
    destruct (Z.ltb_spec (th_imgid th) 0); [discriminate Htest | ].
    destruct (Z.ltb_spec imgid 0); [discriminate Htest | ]. cbn [orb] in Htest.
    destruct (Z.eqb_spec (th_imgid th) imgid); [split; [assumption | lia] | discriminate Htest].
Qed.

(** X21, witness: image 104 is looked up in the window of rows 1 to 6. *)
Lemma X21_lookups_by_image_id_witness :
  _thumbtable_get_thumb grid_12_top 104 = g_list_find_by_imgid (tb_list grid_12_top) 104
  /\ option_map th_rowid (_thumbtable_get_thumb grid_12_top 104) = Some 4.
Proof.
  split; [ | reflexivity].
  apply (proj1 (X21_lookups_by_image_id grid_12_top 104)). lia.
Defined.

(** ** Where a full redraw puts the offset *)

Lemma nth_error_rows_from (ids : list Z) :
  forall s i,
    nth_error (rows_from s ids) i
    = match nth_error ids i with
      | Some id => Some (s + Z.of_nat i, id)
      | None => None
      end.
Proof.
  induction ids as [ | a ids IH]; intros s i; destruct i as [ | i];
    cbn [rows_from nth_error]; try reflexivity.
  - f_equal. f_equal. lia.
  - rewrite IH. destruct (nth_error ids i); [ | reflexivity]. f_equal. f_equal. lia.
Qed.

Lemma select_rows_ge_nth (e : collaborators) (s limit : Z) (i : nat) (id : Z) :
  1 <= s -> Z.of_nat i < limit ->
  nth_error (collected_images e) (Z.to_nat (s - 1) + i) = Some id ->
  nth_error (select_rows_ge e s limit) i = Some (s + Z.of_nat i, id).
Proof.
  intros Hs Hlim Hnth. unfold select_rows_ge, collected_rows.
  rewrite (rows_from_ge s _ 1 Hs). unfold sql_limit.
  destruct (Z.ltb_spec limit 0) as [Hneg | _]; [lia | ].
  rewrite nth_error_firstn. destruct (Nat.ltb_spec i (Z.to_nat limit)) as [_ | Hge]; [ | lia].
  rewrite nth_error_rows_from, nth_error_skipn, Hnth. reflexivity.
Qed.

(* the image on a row of the collection *)
Lemma image_of_row_nth (e : collaborators) (r : Z) :
  1 <= r <= select_count e ->
  nth_error (collected_images e) (Z.to_nat (r - 1)) = Some (_thumb_get_imgid e r).
Proof.
  unfold select_count, _thumb_get_imgid, collected_rows.
  generalize (collected_images e) as ids. intros ids.
  assert (H : forall s, s <= r < s + Z.of_nat (length ids) ->
                        exists id, nth_error ids (Z.to_nat (r - s)) = Some id
                                   /\ find (fun p : Z * Z => fst p =? r) (rows_from s ids)
                                      = Some (r, id)).
  { induction ids as [ | a ids IH]; intros s Hr; [cbn [length] in Hr; lia | ].
    cbn [rows_from find fst]. destruct (Z.eqb_spec s r) as [Heq | Hneq].
    - subst s. exists a. rewrite Z.sub_diag. split; reflexivity.
    - cbn [length] in Hr. destruct (IH (s + 1)) as (id & Hnth & Hfind); [lia | ].
      exists id. split; [ | exact Hfind].
      replace (Z.to_nat (r - s)) with (S (Z.to_nat (r - (s + 1)))) by lia. exact Hnth. }
  intros Hr. destruct (H 1) as (id & Hnth & Hfind); [lia | ].
  rewrite Hfind. exact Hnth.
Qed.

Lemma placed_nth (t : dt_thumbtable_t) (l : list dt_thumbnail_t)
      (q : list ((Z * Z) * (Z * Z))) :
  Forall2 (placed t) l q ->
  forall i slot, nth_error q i = Some slot ->
                 exists th, nth_error l i = Some th /\ placed t th slot.
Proof.
  induction 1 as [ | th slot0 l q Hth Hall IH]; intros i slot Hnth.
  - destruct i; discriminate Hnth.
  - destruct i as [ | i]; cbn [nth_error] in *.
    + inversion Hnth. subst slot0. exists th. split; [reflexivity | exact Hth].
    + exact (IH i slot Hnth).
Qed.

Lemma row_with_slot_nth (q : list (Z * Z)) :
  forall (s : list (Z * Z)) i row pos,
    nth_error q i = Some row -> nth_error s i = Some pos ->
    nth_error (combine q s) i = Some (row, pos).
Proof.
  induction q as [ | r q IH]; intros s i row pos Hq Hs; destruct i as [ | i];
    destruct s as [ | p s]; cbn [nth_error combine] in *; try discriminate.
  - inversion Hq. inversion Hs. reflexivity.
  - exact (IH s i row pos Hq Hs).
Qed.

Lemma slots_nth_strip (t : dt_thumbtable_t) :
  tb_mode t = DT_THUMBTABLE_MODE_FILMSTRIP ->
  forall n i x y,
    (i < n)%nat ->
    nth_error (slots t x y n) i = Some (x + Z.of_nat i * tb_thumb_size t, y).
Proof.
  intros Hmode. induction n as [ | n IH]; intros i x y Hi; [lia | ].
  cbn [slots]. destruct i as [ | i]; cbn [nth_error].
  - f_equal. f_equal. lia.
  - assert (Hnext : _pos_get_next t x y = (x + tb_thumb_size t, y))
      by (unfold _pos_get_next; rewrite Hmode; reflexivity).
    rewrite Hnext. cbn [fst snd]. rewrite IH by lia. f_equal. f_equal. lia.
Qed.

Lemma slots_nth_first_row (t : dt_thumbtable_t) :
  tb_mode t = DT_THUMBTABLE_MODE_FILEMANAGER -> 0 <= tb_thumb_size t ->
  tb_center_offset t + tb_thumbs_per_row t * tb_thumb_size t <= tb_view_width t ->
  forall n i c y,
    0 <= c -> c + Z.of_nat i < tb_thumbs_per_row t -> (i < n)%nat ->
    nth_error (slots t (tb_center_offset t + c * tb_thumb_size t) y n) i
    = Some (tb_center_offset t + (c + Z.of_nat i) * tb_thumb_size t, y).
Proof.
  intros Hmode Hsize Hfit. induction n as [ | n IH]; intros i c y Hc Hrow Hi; [lia | ].
  cbn [slots]. destruct i as [ | i]; cbn [nth_error].
  - f_equal. f_equal. lia.
  - assert (Hnext : _pos_get_next t (tb_center_offset t + c * tb_thumb_size t) y
                    = (tb_center_offset t + (c + 1) * tb_thumb_size t, y)).
    { unfold _pos_get_next. rewrite Hmode.
      destruct (Z.gtb_spec (tb_center_offset t + c * tb_thumb_size t + tb_thumb_size t
                            + tb_thumb_size t) (tb_view_width t)) as [Hgt | _].
      - exfalso. nia.
      - f_equal. lia. }
    rewrite Hnext. cbn [fst snd]. rewrite IH by lia. f_equal. f_equal. lia.
Qed.

(* the entry that a reload gives to the row at position [i] of its query *)
Lemma reload_shows_row (e : collaborators) (t t1 t2 : dt_thumbtable_t)
      (offset empty_start posx posy : Z) (i : nat) (row pos : Z * Z) :
  redraw_start t = Done (t1, offset, empty_start, posx, posy) ->
  redraw_reload e t = Done t2 ->
  let q := select_rows_ge e offset (tb_rows t1 * tb_thumbs_per_row t1 - empty_start) in
  nth_error q i = Some row ->
  nth_error (slots t1 posx posy (length q)) i = Some pos ->
  exists th,
    nth_error (tb_list t2) i = Some th
    /\ th_rowid th = fst row /\ th_imgid th = snd row
    /\ th_x th = fst pos /\ th_y th = snd pos.
Proof.
  intros Hstart Hreload q Hrow Hslot.
  destruct (redraw_reload_placed e t t1 t2 _ _ _ _ Hstart Hreload) as (Hall & _).
  fold q in Hall.
  destruct (placed_nth t1 _ _ Hall i (row, pos) (row_with_slot_nth q _ i row pos Hrow Hslot))
    as (th & Hnth & Hr & Hi & Hx & Hy & _).
  exists th. cbn [fst snd] in *. repeat split; assumption.
Qed.

Lemma nth_error_length (q : list (Z * Z)) (i : nat) (row : Z * Z) :
  nth_error q i = Some row -> (i < length q)%nat.
Proof. intros H. apply nth_error_Some. rewrite H. discriminate. Qed.

(** X22: the filmstrip is centered on the offset.  In filmstrip mode, for a
    viewport larger than 20 pixels and an offset that is a row of the
    collection, the forced full redraw returns; its window holds the image of
    the offset row, on y = 0, with the middle of its thumbnail on the middle
    of the viewport (to the pixel that the odd sizes lose); the offset is
    kept and the thumbnails have the height of the viewport. *)
Theorem X22_strip_centered_on_offset (fuel : nat) (e : collaborators) (t : dt_thumbtable_t) :
  tb_mode t = DT_THUMBTABLE_MODE_FILMSTRIP ->
  20 < allocation_width e -> 20 < allocation_height e ->
  1 <= tb_offset t <= select_count e ->
  exists t' th,
    dt_thumbtable_full_redraw (S fuel) e t true = Done t'
    /\ In th (tb_list t')
    /\ th_rowid th = tb_offset t
    /\ th_imgid th = _thumb_get_imgid e (tb_offset t)
    /\ th_y th = 0
    /\ allocation_width e <= 2 * th_x th + tb_thumb_size t' <= allocation_width e + 1
    /\ tb_offset t' = tb_offset t
    /\ tb_thumb_size t' = allocation_height e.
Proof.
  intros Hmode Hw Hh Hoff.
  set (aw := allocation_width e) in *. set (ah := allocation_height e) in *.
  set (q0 := Z.quot aw ah).
  set (rows := if negb (Z.rem q0 2 =? 0) then q0 + 2 else q0 + 1).
  set (ta := set_tb_sizes 1 rows ah aw ah 0 t).
  assert (Hcs : _compute_sizes e t true = Done (ta, true)).
  { unfold _compute_sizes. rewrite (regular_test e Hw Hh), Hmode. cbn [orb].
    fold aw ah. rewrite c_div_done by lia. reflexivity. }
  set (m := Z.quot rows 2).
  assert (Hrows : rows = 2 * m + 1 /\ 0 <= m /\ aw < rows * ah).
  { assert (Hq0 : 0 <= q0) by (apply Z.quot_pos; lia).
    pose proof (Z.quot_rem' aw ah) as Hqr. fold q0 in Hqr.
    assert (Hb : 0 <= Z.rem aw ah < ah) by (apply Z.rem_bound_pos; lia).
    pose proof (Z.quot_rem' q0 2) as Hq2.
    assert (Hb2 : 0 <= Z.rem q0 2 < 2) by (apply Z.rem_bound_pos; lia).
    assert (Hr : 0 <= rows /\ Z.rem rows 2 = 1 /\ q0 + 1 <= rows).
    { unfold rows. destruct (Z.eqb_spec (Z.rem q0 2) 0) as [He | Hne]; cbn [negb].
      - split; [lia | ]. split; [ | lia].
        replace (q0 + 1) with (1 + Z.quot q0 2 * 2) by lia.
        rewrite Z.rem_add by lia. reflexivity.
      - split; [lia | ]. split; [ | lia].
        replace (q0 + 2) with (1 + (Z.quot q0 2 + 1) * 2) by lia.
        rewrite Z.rem_add by lia. reflexivity. }
    destruct Hr as (Hr0 & Hr1 & Hr2).
    pose proof (Z.quot_rem' rows 2) as Hm. fold m in Hm.
    assert (0 <= m) by (apply Z.quot_pos; lia).
    split; [lia | ]. split; [assumption | nia]. }
  destruct Hrows as (Hodd & Hm0 & Hcover).
  set (t1 := set_tb_dragging false ta).
  set (offset0 := MAX 1 (tb_offset t - m)).
  set (empty_start := - MIN 0 (tb_offset t - m - 1)).
  set (posx0 := Z.quot (aw - rows * ah) 2).
  assert (Hstart : redraw_start t1
                   = Done (t1, offset0, empty_start, posx0 + empty_start * ah, 0)).
  { unfold redraw_start. cbn [tb_mode t1 ta set_tb_dragging set_tb_sizes].
    rewrite Hmode. reflexivity. }
  assert (Hreload : exists t2, redraw_reload e t1 = Done t2).
  { rewrite redraw_reload_body. rewrite Hstart. cbn [bind].
    destruct (fold_left (redraw_row e) _ _) as [[[t' px] py] nl]. eexists. reflexivity. }
  destruct Hreload as [t2 Hreload].
  destruct (redraw_reload_placed e t1 t1 t2 _ _ _ _ Hstart Hreload)
    as (_ & Hoff2 & Hmode2 & _ & Hsize2).
  (* where the offset row is in the query *)
  assert (Hcases : offset0 = Z.max 1 (tb_offset t - m)
                   /\ empty_start = Z.max 0 (m + 1 - tb_offset t)).
  { unfold offset0, empty_start. rewrite MAX_is_max, MIN_is_min. lia. }
  destruct Hcases as [Ho0 He0].
  set (i := Z.to_nat (tb_offset t - offset0)).
  assert (Hrow : nth_error (select_rows_ge e offset0 (tb_rows t1 * tb_thumbs_per_row t1
                                                      - empty_start)) i
                 = Some (tb_offset t, _thumb_get_imgid e (tb_offset t))).
  { replace (tb_offset t) with (offset0 + Z.of_nat i) at 1 by (unfold i; lia).
    apply select_rows_ge_nth; [lia | cbn; unfold i; lia | ].
    replace (Z.to_nat (offset0 - 1) + i)%nat with (Z.to_nat (tb_offset t - 1))
      by (unfold i; lia).
    apply image_of_row_nth. exact Hoff. }
  assert (Hslot : nth_error (slots t1 (posx0 + empty_start * ah) 0
                               (length (select_rows_ge e offset0
                                          (tb_rows t1 * tb_thumbs_per_row t1 - empty_start))))
                            i
                  = Some (posx0 + empty_start * ah + Z.of_nat i * tb_thumb_size t1, 0)).
  { apply slots_nth_strip; [exact Hmode | ]. exact (nth_error_length _ _ _ Hrow). }
  destruct (reload_shows_row e t1 t1 t2 _ _ _ _ i _ _ Hstart Hreload Hrow Hslot)
    as (th & Hnth & Hr & Hid & Hx & Hy).
  cbn [fst snd] in Hr, Hid, Hx, Hy.
  assert (Hno : no_selection_scroll e t2).
  { left. rewrite Hmode2. cbn. rewrite Hmode. discriminate. }
  exists (set_tb_list (map (dt_thumbnail_update_selection e) (tb_list t2)) t2),
    (dt_thumbnail_update_selection e th).
  split.
  { cbn [dt_thumbtable_full_redraw]. rewrite Hcs. cbn [bind].
    assert (Hsb : _thumbtable_update_scrollbars ta = Done tt).
    { unfold _thumbtable_update_scrollbars. cbn [tb_mode ta set_tb_sizes]. rewrite Hmode.
      reflexivity. }
    rewrite Hsb. cbn [bind]. fold t1. rewrite Hreload. cbn [bind].
    apply redraw_finish_no_scroll. exact Hno. }
  split; [apply in_map; exact (nth_error_In _ _ Hnth) | ].
  cbn [tb_list set_tb_list th_rowid th_imgid th_x th_y dt_thumbnail_update_selection
       set_th_selected tb_thumb_size tb_offset].
  split; [exact Hr | ]. split; [exact Hid | ]. split; [exact Hy | ].
  rewrite Hsize2, Hoff2. cbn [tb_thumb_size tb_offset t1 ta set_tb_dragging set_tb_sizes].
  split; [ | split; reflexivity].
  rewrite Hx. cbn [tb_thumb_size t1 ta set_tb_dragging set_tb_sizes].
  assert (Hi : empty_start + Z.of_nat i = m) by (unfold i; lia).
  pose proof (Z.quot_rem' (aw - rows * ah) 2) as Hp. fold posx0 in Hp.
  assert (Hpr : - (2) < Z.rem (aw - rows * ah) 2 <= 0) by (apply Z.rem_bound_pos_neg; lia).
  nia.
Qed.

(* the filmstrip of 100 x 50 pixels on twelve images *)
Definition strip_12 : collaborators :=
  mk_collab 100 50 1 [101; 102; 103; 104; 105; 106; 107; 108; 109; 110; 111; 112]
            [] (-1) (fun _ => false) (fun _ => -1).

(** X22, witness: the filmstrip of 100 x 50 pixels at offset 5 shows image
    105 at x = 25. *)
Lemma X22_strip_centered_on_offset_witness :
  exists t' th,
    dt_thumbtable_full_redraw 1 strip_12 (set_tb_offset 5 strip_new) true = Done t'
    /\ In th (tb_list t')
    /\ th_imgid th = 105
    /\ 100 <= 2 * th_x th + tb_thumb_size t' <= 101.
Proof.
  destruct (X22_strip_centered_on_offset 0 strip_12 (set_tb_offset 5 strip_new))
    as (t' & th & H1 & H2 & _ & H4 & _ & H6 & _).
  - reflexivity.
  - cbn. lia.
  - cbn. lia.
  - cbn. lia.
  - exists t', th. split; [exact H1 | ]. split; [exact H2 | ].
    split; [exact H4 | exact H6].
Defined.

(** ** The offset image across a reload of the collection *)

(* the sizes of a forced _compute_sizes in filemanager mode *)
Lemma grid_sizes_forced (e : collaborators) (t : dt_thumbtable_t) :
  tb_mode t = DT_THUMBTABLE_MODE_FILEMANAGER ->
  20 < allocation_width e -> 20 < allocation_height e ->
  1 <= lighttable_zoom e <= allocation_width e ->
  exists rows size center,
    _compute_sizes e t true
    = Done (set_tb_sizes (lighttable_zoom e) rows size (allocation_width e)
                         (allocation_height e) center t, true)
    /\ 1 <= rows /\ 1 <= size /\ 0 <= center
    /\ center + lighttable_zoom e * size <= allocation_width e.
Proof.
  intros Hmode Hw Hh Hz. unfold _compute_sizes.
  rewrite (regular_test e Hw Hh), Hmode. cbn [orb].
  rewrite c_div_done by lia. cbn [bind]. rewrite MIN_is_min.
  set (n := lighttable_zoom e) in *.
  set (q := Z.quot (allocation_width e) n).
  assert (Hq : 1 <= q /\ n * q <= allocation_width e).
  { pose proof (Z.quot_rem' (allocation_width e) n) as Hqr. fold q in Hqr.
    assert (0 <= Z.rem (allocation_width e) n < n) by (apply Z.rem_bound_pos; lia).
    assert (0 <= q) by (apply Z.quot_pos; lia). nia. }
  set (size := Z.min q (allocation_height e)).
  assert (Hsize : 1 <= size <= q) by (unfold size; lia).
  rewrite c_div_done by lia. cbn [bind].
  assert (Hfit : 0 <= allocation_width e - n * size) by nia.
  set (c := Z.quot (allocation_width e - n * size) 2).
  pose proof (Z.quot_rem' (allocation_width e - n * size) 2) as Hc. fold c in Hc.
  assert (Hcb : 0 <= Z.rem (allocation_width e - n * size) 2 < 2)
    by (apply Z.rem_bound_pos; lia).
  assert (0 <= c) by (apply Z.quot_pos; lia).
  assert (0 <= Z.quot (allocation_height e) size) by (apply Z.quot_pos; lia).
  eexists. eexists. eexists. split; [reflexivity | ].
  repeat split; try lia.
Qed.

(* a forced full redraw of the grid, nothing being selected, shows the row of
   the offset in its first row *)
Lemma grid_redraw_shows_offset_row (fuel : nat) (e : collaborators) (t : dt_thumbtable_t) :
  tb_mode t = DT_THUMBTABLE_MODE_FILEMANAGER ->
  20 < allocation_width e -> 20 < allocation_height e ->
  1 <= lighttable_zoom e <= allocation_width e ->
  dt_selection_get_first_id e < 1 ->
  1 <= tb_offset t <= select_count e ->
  exists t' th k,
    dt_thumbtable_full_redraw (S fuel) e t true = Done t'
    /\ In th (tb_list t')
    /\ th_rowid th = tb_offset t
    /\ th_imgid th = _thumb_get_imgid e (tb_offset t)
    /\ th_y th = 0
    /\ tb_offset t' = k * lighttable_zoom e + 1
    /\ tb_offset t' <= tb_offset t < tb_offset t' + lighttable_zoom e.
Proof.
  intros Hmode Hw Hh Hz Hsel Hoff.
  destruct (grid_sizes_forced e t Hmode Hw Hh Hz)
    as (rows & size & center & Hcs & Hrows & Hsize & Hcenter & Hfit).
  set (n := lighttable_zoom e) in *.
  set (ta := set_tb_sizes n rows size (allocation_width e) (allocation_height e) center t)
    in *.
  set (k := Z.quot (tb_offset t - 1) n).
  destruct (align_row (tb_offset t) n (proj1 Hoff) (proj1 Hz)) as [Hk Hrange].
  fold k in Hk, Hrange.
  set (t1 := set_tb_dragging false ta).
  set (ts := set_tb_offset (k * n + 1) t1).
  assert (Hstart : redraw_start t1 = Done (ts, k * n + 1, 0, center, 0)).
  { unfold redraw_start. cbn [tb_mode t1 ta set_tb_dragging set_tb_sizes]. rewrite Hmode.
    cbn [tb_offset tb_thumbs_per_row tb_center_offset t1 ta set_tb_dragging set_tb_sizes].
    rewrite c_div_done by lia. reflexivity. }
  assert (Hreload : exists t2, redraw_reload e t1 = Done t2).
  { rewrite redraw_reload_body. rewrite Hstart. cbn [bind].
    destruct (fold_left (redraw_row e) _ _) as [[[t' px] py] nl]. eexists. reflexivity. }
  destruct Hreload as [t2 Hreload].
  destruct (redraw_reload_placed e t1 ts t2 _ _ _ _ Hstart Hreload)
    as (_ & Hoff2 & Hmode2 & _).
  set (i := Z.to_nat (tb_offset t - (k * n + 1))).
  assert (Hrow : nth_error (select_rows_ge e (k * n + 1)
                                           (tb_rows ts * tb_thumbs_per_row ts - 0)) i
                 = Some (tb_offset t, _thumb_get_imgid e (tb_offset t))).
  { replace (tb_offset t) with (k * n + 1 + Z.of_nat i) at 1 by (unfold i; lia).
    apply select_rows_ge_nth; [lia | cbn; unfold i; nia | ].
    replace (Z.to_nat (k * n + 1 - 1) + i)%nat with (Z.to_nat (tb_offset t - 1))
      by (unfold i; lia).
    apply image_of_row_nth. exact Hoff. }
  assert (Hslot : nth_error (slots ts center 0
                               (length (select_rows_ge e (k * n + 1)
                                          (tb_rows ts * tb_thumbs_per_row ts - 0))))
                            i
                  = Some (center + (0 + Z.of_nat i) * size, 0)).
  { pose proof (slots_nth_first_row ts) as Hs.
    cbn [tb_mode tb_thumb_size tb_center_offset tb_thumbs_per_row tb_view_width
         ts t1 ta set_tb_offset set_tb_dragging set_tb_sizes] in Hs.
    specialize (Hs Hmode ltac:(lia) ltac:(lia)
                   (length (select_rows_ge e (k * n + 1)
                              (tb_rows ts * tb_thumbs_per_row ts - 0))) i 0 0).
    rewrite Z.mul_0_l, Z.add_0_r in Hs. apply Hs; [lia | unfold i; lia | ].
    exact (nth_error_length _ _ _ Hrow). }
  destruct (reload_shows_row e t1 ts t2 _ _ _ _ i _ _ Hstart Hreload Hrow Hslot)
    as (th & Hnth & Hr & Hid & _ & Hy).
  cbn [fst snd] in Hr, Hid, Hy.
  assert (Hno : no_selection_scroll e t2) by (right; exact Hsel).
  exists (set_tb_list (map (dt_thumbnail_update_selection e) (tb_list t2)) t2),
    (dt_thumbnail_update_selection e th), k.
  split.
  { cbn [dt_thumbtable_full_redraw]. rewrite Hcs. cbn [bind].
    assert (Hsb : _thumbtable_update_scrollbars ta = Done tt).
    { unfold _thumbtable_update_scrollbars. cbn [tb_mode ta set_tb_sizes]. rewrite Hmode.
      cbn [mode_eqb negb]. destruct (tb_scrollbars ta); cbn [negb]; [ | reflexivity].
      cbn [tb_thumbs_per_row ta set_tb_sizes]. rewrite c_div_done by lia. reflexivity. }
    rewrite Hsb. cbn [bind]. fold t1. rewrite Hreload. cbn [bind].
    apply redraw_finish_no_scroll. exact Hno. }
  split; [apply in_map; exact (nth_error_In _ _ Hnth) | ].
  cbn [tb_list set_tb_list th_rowid th_imgid th_y dt_thumbnail_update_selection
       set_th_selected tb_offset].
  split; [exact Hr | ]. split; [exact Hid | ]. split; [exact Hy | ].
  rewrite Hoff2. cbn [tb_offset ts set_tb_offset]. split; [reflexivity | lia].
Qed.

(** X23: the window follows its offset image across a reload of the
    collection.  In filemanager mode, for a viewport larger than 20 pixels
    and a zoom between 1 and its width, nothing being selected: when the
    offset image is still in the collection after a change of type RELOAD
    (and the handler is not told to jump to another image: the image is not
    in the list of changed images, or no next image is given, or its row is
    unchanged), _dt_collection_changed_callback returns a table whose window
    shows that image, with its new row number, in the first row of the grid;
    the offset is the first row number of the grid row that holds it. *)
Theorem X23_reload_keeps_offset_image (fuel : nat) (e : collaborators)
        (t : dt_thumbtable_t) (imgs : list Z) (next : Z) :
  tb_mode t = DT_THUMBTABLE_MODE_FILEMANAGER ->
  20 < allocation_width e -> 20 < allocation_height e ->
  1 <= lighttable_zoom e <= allocation_width e ->
  dt_selection_get_first_id e < 1 ->
  0 < tb_offset_imgid t -> In (tb_offset_imgid t) (collected_images e) ->
  ~ In (tb_offset_imgid t) imgs \/ next <= 0
  \/ _thumb_get_rowid e (tb_offset_imgid t) = tb_offset t ->
  exists t' th k,
    _dt_collection_changed_callback (S fuel) e t DT_COLLECTION_CHANGE_RELOAD imgs next
    = Done t'
    /\ In th (tb_list t')
    /\ th_imgid th = tb_offset_imgid t
    /\ th_rowid th = _thumb_get_rowid e (tb_offset_imgid t)
    /\ th_y th = 0
    /\ tb_offset t' = k * lighttable_zoom e + 1
    /\ tb_offset t' <= _thumb_get_rowid e (tb_offset_imgid t)
       < tb_offset t' + lighttable_zoom e.
Proof.
  intros Hmode Hw Hh Hz Hsel Hid Hin Hstay.
  set (id := tb_offset_imgid t) in *.
  set (r := _thumb_get_rowid e id).
  assert (Hr : 1 <= r <= select_count e /\ _thumb_get_imgid e r = id).
  { unfold r, _thumb_get_rowid, _thumb_get_imgid, select_count, collected_rows.
    destruct (find_row_of_image _ id 1 Hin) as (r0 & Hfind & Hr0 & Hback).
    rewrite Hfind. cbn [fst]. rewrite Hback. split; [lia | reflexivity]. }
  destruct Hr as [Hr Hback].
  set (t3 := set_tb_offset r (set_tb_offset_imgid id t)).
  destruct (grid_redraw_shows_offset_row fuel e t3 Hmode Hw Hh Hz Hsel)
    as (t' & th & k & Hredraw & Hth & Hrow & Himg & Hy & Hk & Hrange); [exact Hr | ].
  cbn [tb_offset t3 set_tb_offset] in Hrow, Himg, Hrange.
  exists t', th, k.
  split.
  { unfold _dt_collection_changed_callback.
    assert (Hstrip : is_filmstrip t = false) by (unfold is_filmstrip; rewrite Hmode; reflexivity).
    rewrite Hstrip. cbn [andb bind]. fold id.
    destruct (Z.leb_spec id 0) as [Hle | _]; [lia | ]. cbn [andb].
    assert (Hjump : existsb (Z.eqb id) imgs && (next >? 0)
                    && negb (_thumb_get_rowid e id =? tb_offset t) = false).
    { destruct Hstay as [Hnot | [Hnext | Hsame]].
      - assert (Hex : existsb (Z.eqb id) imgs = false).
        { destruct (existsb (Z.eqb id) imgs) eqn:Hex; [ | reflexivity].
          exfalso. apply Hnot. apply existsb_exists in Hex.
          destruct Hex as (x & Hx & Heq). apply Z.eqb_eq in Heq. subst x. exact Hx. }
        rewrite Hex. reflexivity.
      - destruct (Z.gtb_spec next 0) as [Hgt | _]; [lia | ]. rewrite andb_false_r.
        reflexivity.
      - fold r in Hsame. fold r. rewrite Hsame, Z.eqb_refl. cbn [negb].
        rewrite andb_false_r. reflexivity. }
    rewrite Hjump. fold r.
    assert (Hle : (r <=? 0) = false) by (apply Z.leb_gt; lia).
    assert (Hge : (r >=? 1) = true) by (apply Z.geb_le; lia).
    rewrite !Hle. cbv beta iota zeta. rewrite ?Hle. cbv beta iota zeta.
    rewrite Hge, MAX_is_max, Z.max_r by lia. fold t3.
    rewrite Hredraw. cbn [bind]. reflexivity. }
  split; [exact Hth | ]. split; [rewrite Himg; exact Hback | ].
  split; [exact Hrow | ]. split; [exact Hy | ]. split; [exact Hk | exact Hrange].
Qed.

(* the twelve images after the first two were removed from the collection *)
Definition grid_10 : collaborators :=
  mk_collab 100 100 2 [103; 104; 105; 106; 107; 108; 109; 110; 111; 112]
            [] (-1) (fun _ => false) (fun _ => -1).

(** X23, witness: the window shows rows 3 to 8 with image 103 at the offset;
    images 101 and 102 leave the collection and image 103 is on row 1 of the
    new one. *)
Lemma X23_reload_keeps_offset_image_witness :
  exists t' th k,
    _dt_collection_changed_callback 1 grid_10
      (set_tb_offset_imgid 103 (set_tb_offset 3 grid_12_top))
      DT_COLLECTION_CHANGE_RELOAD [101; 102] 103
    = Done t'
    /\ In th (tb_list t') /\ th_imgid th = 103 /\ th_rowid th = 1 /\ th_y th = 0
    /\ tb_offset t' = k * 2 + 1.
Proof.
  destruct (X23_reload_keeps_offset_image 0 grid_10
              (set_tb_offset_imgid 103 (set_tb_offset 3 grid_12_top)) [101; 102] 103)
    as (t' & th & k & H1 & H2 & H3 & H4 & H5 & H6 & _).
  - reflexivity.
  - cbn. lia.
  - cbn. lia.
  - cbn. lia.
  - cbn. lia.
  - cbn. lia.
  - cbn. left. reflexivity.
  - left. cbn. intros [H | [H | []]]; discriminate H.
  - exists t', th, k. repeat split; assumption.
Defined.
End ThumbtableLayoutFacts.
